(** * go-sdbm: the hash, the page layout, the directory trie and the store

    A shallow embedding of the Go package [sdbm] (hash, page, DBM handle)
    together with the properties of its specification.  Go's fixed-width
    integers are [Z] with their wrap-around written out, byte slices are
    lists of [Byte.byte], the two [*os.File]s are byte lists with a file
    offset, and run-time panics (slice or index out of range) are an
    explicit outcome. *)

From Stdlib Require Import ZArith Lia Strings.Byte Strings.String.
From stdpp Require Import base list numbers.

Local Open Scope Z_scope.

(** ** Machine integers *)

Definition u64 (z : Z) : Z := z mod 2 ^ 64.
Definition u16 (z : Z) : Z := z mod 2 ^ 16.
(** [int64(x)] of an unsigned 64-bit value, and int64 arithmetic results. *)
Definition i64 (z : Z) : Z := (z + 2 ^ 63) mod 2 ^ 64 - 2 ^ 63.

(** ** Bytes *)

Abbreviation byte := Byte.byte.

#[global] Instance byte_eq_dec : EqDecision byte := Byte.byte_eq_dec.
#[global] Instance byte_inhabited : Inhabited byte := populate Byte.x00.

Definition byte_to_Z (b : byte) : Z := Z.of_N (Byte.to_N b).
Definition byte_of_Z (z : Z) : byte :=
  match Byte.of_N (Z.to_N (z mod 256)) with
  | Some b => b
  | None => Byte.x00
  end.

Definition bytes_of (s : string) : list byte := list_byte_of_string s.

(** ** Constants of the on-disk format (part_000, [const] block) *)

Definition BITSIZ : Z := 8.
Definition DBLKSIZ : Z := 4096.
Definition PBLKSIZ : Z := 1024.
Definition PAIRMAX : Z := 1008.
Definition SPLTMAX : Z := 10.
Definition SHORTSIZE : Z := 2.

(** ** Outcomes: a value, a Go run-time panic, or fuel exhausted *)

Inductive res (A : Type) : Type :=
| Ok (a : A)
| Panic
| Timeout.
Arguments Ok {A} a.
Arguments Panic {A}.
Arguments Timeout {A}.

Definition rbind {A B} (m : res A) (f : A -> res B) : res B :=
  match m with
  | Ok a => f a
  | Panic => Panic
  | Timeout => Timeout
  end.

Declare Scope res_scope.
Delimit Scope res_scope with res.
Notation "'let*' x := m 'in' k" := (rbind m (fun x => k))
  (at level 10, x pattern, k at level 200) : res_scope.

(** ** Datum: a byte slice that may be nil *)

Definition Datum : Type := option (list byte).
Definition Nullitem : Datum := None.
Definition bytes (d : Datum) : list byte := default [] d.
Definition Size (d : Datum) : Z := Z.of_nat (length (bytes d)).

(** [bad] (part_000:70): only the nil slice is rejected. *)
Definition bad (x : Datum) : bool :=
  match x with None => true | Some _ => false end.

(** ** Hash (part_002) *)

Definition Hash (data : list byte) : Z :=
  i64 (fold_left (fun hash b => u64 (byte_to_Z b + 65599 * hash)) data 0).

Definition exHash (item : Datum) : Z := Hash (bytes item).

(** ** Page (pair.go) *)

Abbreviation Page := (list byte).

Definition zero_page : Page := replicate (Z.to_nat PBLKSIZ) Byte.x00.

Definition byte_at (p : list byte) (i : Z) : byte := p !!! Z.to_nat i.

(** The bytes [a..b) of a buffer. *)
Definition sub (p : list byte) (a b : Z) : list byte :=
  take (Z.to_nat (b - a)) (drop (Z.to_nat a) p).

(** [p.buf[a:b]]: panics unless [0 <= a <= b <= PBLKSIZ]. *)
Definition slice (p : Page) (a b : Z) : res (list byte) :=
  if (0 <=? a) && (a <=? b) && (b <=? PBLKSIZ)
  then Ok (sub p a b)
  else Panic.

(** [copy(dst[off:], src)] once the slice expression has succeeded: [copy]
    moves as many bytes as fit. *)
Definition blit (p : list byte) (off : Z) (src : list byte) : list byte :=
  list_inserts (Z.to_nat off) src p.

(** [copy(p.buf[off:], src)]: the slice expression panics unless
    [0 <= off <= PBLKSIZ]. *)
Definition copy_at (p : Page) (off : Z) (src : list byte) : res Page :=
  if (0 <=? off) && (off <=? PBLKSIZ)
  then Ok (blit p off src)
  else Panic.

(** The little-endian 16-bit entry [i] of the offset table. *)
Definition ino (p : Page) (i : Z) : Z :=
  byte_to_Z (byte_at p (i * 2)) + 256 * byte_to_Z (byte_at p (i * 2 + 1)).

Definition put16 (p : Page) (i : Z) (val : Z) : Page :=
  <[Z.to_nat (i * 2 + 1) := byte_of_Z (val / 256)]>
    (<[Z.to_nat (i * 2) := byte_of_Z val]> p).

(** [p.getIno(i)]: the slice [p.buf[i*2 : i*2+2]] panics out of range. *)
Definition getIno (p : Page) (i : Z) : res Z :=
  if (0 <=? i) && (i * 2 + 2 <=? PBLKSIZ) then Ok (ino p i) else Panic.

Definition setIno (p : Page) (i : Z) (val : Z) : res Page :=
  if (0 <=? i) && (i * 2 + 2 <=? PBLKSIZ) then Ok (put16 p i val) else Panic.

Definition getN (p : Page) : res Z := getIno p 0.
Definition setN (p : Page) (val : Z) : res Page := setIno p 0 val.

Local Open Scope res_scope.

(** The end of the free area: [PBLKSIZ] for an empty page, else [ino[n]]. *)
Definition free_end (p : Page) (n : Z) : res Z :=
  if 0 <? n then getIno p n else Ok PBLKSIZ.

Definition FitPair (p : Page) (need : Z) : res bool :=
  let* n := getN p in
  let* off := free_end p n in
  let free := off - (n + 1) * SHORTSIZE in
  let need := need + 2 * SHORTSIZE in
  Ok (need <=? free).

Definition PutPair (p : Page) (key val : Datum) : res Page :=
  let* n := getN p in
  let* off := free_end p n in
  let off := off - Size key in
  let* p := copy_at p off (bytes key) in
  let* p := setIno p (n + 1) (u16 off) in
  let off := off - Size val in
  let* p := copy_at p off (bytes val) in
  let* p := setIno p (n + 2) (u16 off) in
  setN p (u16 (n + 2)).

(** The odd slots visited by [for i := 1; i < n; i += 2]. *)
Definition odd_slots (n : Z) : list Z :=
  map (fun t => 2 * Z.of_nat t + 1) (seq 0 (Z.to_nat (n / 2))).

Fixpoint seePair_from (p : Page) (key : list byte) (off : Z) (slots : list Z)
  : res Z :=
  match slots with
  | [] => Ok 0
  | i :: rest =>
      let* cur := getIno p i in
      let klen := Z.of_nat (length key) in
      let* hit := (if klen =? off - cur
                   then let* s := slice p cur (u16 (cur + u16 klen)) in
                        Ok (bool_decide (key = s))
                   else Ok false) in
      if hit : bool then Ok i
      else let* off := getIno p (i + 1) in seePair_from p key off rest
  end.

Definition seePair (p : Page) (n : Z) (key : list byte) : res Z :=
  seePair_from p key PBLKSIZ (odd_slots n).

Definition GetPair (p : Page) (key : Datum) : res Datum :=
  let* n := getN p in
  if n =? 0 then Ok Nullitem else
  let* i := seePair p n (bytes key) in
  if i =? 0 then Ok Nullitem else
  let* start := getIno p (i + 1) in
  let* end_ := getIno p i in
  let* val := slice p start end_ in
  Ok (Some val).

Definition DupPair (p : Page) (key : Datum) : res bool :=
  let* n := getN p in
  if n =? 0 then Ok false else
  let* i := seePair p n (bytes key) in
  Ok (0 <? i).

Definition GetNKey (p : Page) (num : Z) : res Datum :=
  let num := i64 (num * 2 - 1) in
  let* n := getN p in
  if (n =? 0) || (n <? num) then Ok Nullitem else
  let* off := (if 1 <? num then getIno p (num - 1) else Ok PBLKSIZ) in
  let* start := getIno p num in
  let* key := slice p start off in
  Ok (Some key).

(** [for i < n-1 { p.setIno(i, p.getIno(i+2)+uint16(zoo)); i++ }] *)
Fixpoint DelPair_adjust (p : Page) (zoo : Z) (i : Z) (count : nat) : res Page :=
  match count with
  | O => Ok p
  | S c =>
      let* v := getIno p (i + 2) in
      let* p := setIno p i (u16 (v + u16 zoo)) in
      DelPair_adjust p zoo (i + 1) c
  end.

Definition DelPair (p : Page) (key : Datum) : res (Page * bool) :=
  let* n := getN p in
  if n =? 0 then Ok (p, false) else
  let* i := seePair p n (bytes key) in
  if i =? 0 then Ok (p, false) else
  let* p := (if i <? n - 1 then
          let* dst := (if i =? 1 then Ok PBLKSIZ else getIno p (i - 1)) in
          let* src := getIno p (i + 1) in
          let zoo := dst - src in
          let* a := getIno p (i + 1) in
          let* b := getIno p n in
          let m := u16 (a - b) in
          (* copy(p.buf[dst-m:], p.buf[src-m:]) *)
          let* _ := slice p (dst - m) PBLKSIZ in
          let* tail := slice p (src - m) PBLKSIZ in
          let* p := copy_at p (dst - m) tail in
          DelPair_adjust p zoo i (Z.to_nat (n - 1 - i))
        else Ok p) in
  let* n' := getN p in
  let* p := setN p (u16 (n' - 2)) in
  Ok (p, true).

(** [SplPage]: the loop counter [n] is a uint16 and is decremented by two
    with wrap-around; [fuel] bounds the iterations of the model. *)
Fixpoint SplPage_loop (fuel : nat) (cur p newPag : Page) (sbit : Z)
    (i off n : Z) : res (Page * Page) :=
  if 0 <? n then
    match fuel with
    | O => Timeout
    | S fuel =>
        let* keyOff := getIno cur i in
        let* valOff := getIno cur (i + 1) in
        let* key := slice cur keyOff off in
        let* val := slice cur valOff keyOff in
        let* (p, newPag) :=
          (if negb (Z.land (exHash (Some key)) sbit =? 0)
           then let* newPag := PutPair newPag (Some key) (Some val) in Ok (p, newPag)
           else let* p := PutPair p (Some key) (Some val) in Ok (p, newPag)) in
        SplPage_loop fuel cur p newPag sbit (i + 2) valOff (u16 (n - 2))
    end
  else Ok (p, newPag).

Definition SplPage_fuel : nat := 600.

(** Returns the receiver page and the new page after the split. *)
Definition SplPage (p : Page) (sbit : Z) : res (Page * Page) :=
  let cur := p in
  let* n := getIno cur 0 in
  SplPage_loop SplPage_fuel cur zero_page zero_page sbit 1 PBLKSIZ n.

(** [for i := 1; n > 0; i += 2 { ...; n -= 2 }] with [n] an [int]. *)
Fixpoint ChkPage_loop (p : Page) (i off : Z) (count : nat) : res bool :=
  match count with
  | O => Ok true
  | S c =>
      let* keyOff := getIno p i in
      let* valOff := getIno p (i + 1) in
      if (off <? keyOff) || (off <? valOff) || (keyOff <? valOff)
      then Ok false
      else ChkPage_loop p (i + 2) valOff c
  end.

Definition ChkPage (p : Page) : res bool :=
  let* n := getN p in
  if (n <? 0) || (PBLKSIZ / SHORTSIZE <? n) then Ok false else
  if 0 <? n then ChkPage_loop p 1 PBLKSIZ (Z.to_nat ((n + 1) / 2))
  else Ok true.

Local Close Scope res_scope.

(** ** Files and system calls

    The host is the collaborator that supplies [seek]/[read]/[write]: a file
    is its bytes, its offset and whether it was opened for writing.  Reading
    at or past the end returns [EOF]; writing past the end zero-fills the
    hole.  Besides the errors the files produce themselves (negative offset,
    write on a read-only descriptor) a schedule of injected device faults is
    consumed one entry per system call. *)

Inductive fileid : Type := DirF | PagF.
Inductive errno : Type := EOF | EINVAL | EBADF | EIO.
Inductive ioop : Type := OpSeek | OpRead | OpWrite.

Inductive error : Type :=
| ErrInvalidArgument
| ErrInvalidPage
| ErrDBMRDOnly
| IOError (op : ioop) (f : fileid) (e : errno).

Record File : Type := mkFile {
  fdata : list byte;
  fpos : Z;
  fwritable : bool
}.

Inductive event : Type :=
| EvSeek (f : fileid) (off : Z)
| EvRead (f : fileid) (pos : Z) (got : nat)
| EvWrite (f : fileid) (pos : Z) (data : list byte).

(** The handle (part_000, [type DBM struct]).  The last two fields are not
    part of the Go struct: the device faults still to be injected and the
    log of the system calls performed so far, most recent first. *)
Record DBM : Type := mkDBM {
  dirf : File;
  pagf : File;
  rdonly : bool;
  maxbno : Z;
  curbit : Z;
  hmask : Z;
  blkptr : Z;
  keyptr : Z;
  pagbno : Z;
  pag : Page;
  dirbno : Z;
  dirbuf : list byte;
  faults : list bool;
  trace : list event
}.

Definition set_dirf (x : File) (s : DBM) : DBM :=
  {| dirf := x;
     pagf := pagf s;
     rdonly := rdonly s;
     maxbno := maxbno s;
     curbit := curbit s;
     hmask := hmask s;
     blkptr := blkptr s;
     keyptr := keyptr s;
     pagbno := pagbno s;
     pag := pag s;
     dirbno := dirbno s;
     dirbuf := dirbuf s;
     faults := faults s;
     trace := trace s |}.
Definition set_pagf (x : File) (s : DBM) : DBM :=
  {| dirf := dirf s;
     pagf := x;
     rdonly := rdonly s;
     maxbno := maxbno s;
     curbit := curbit s;
     hmask := hmask s;
     blkptr := blkptr s;
     keyptr := keyptr s;
     pagbno := pagbno s;
     pag := pag s;
     dirbno := dirbno s;
     dirbuf := dirbuf s;
     faults := faults s;
     trace := trace s |}.
Definition set_maxbno (x : Z) (s : DBM) : DBM :=
  {| dirf := dirf s;
     pagf := pagf s;
     rdonly := rdonly s;
     maxbno := x;
     curbit := curbit s;
     hmask := hmask s;
     blkptr := blkptr s;
     keyptr := keyptr s;
     pagbno := pagbno s;
     pag := pag s;
     dirbno := dirbno s;
     dirbuf := dirbuf s;
     faults := faults s;
     trace := trace s |}.
Definition set_curbit (x : Z) (s : DBM) : DBM :=
  {| dirf := dirf s;
     pagf := pagf s;
     rdonly := rdonly s;
     maxbno := maxbno s;
     curbit := x;
     hmask := hmask s;
     blkptr := blkptr s;
     keyptr := keyptr s;
     pagbno := pagbno s;
     pag := pag s;
     dirbno := dirbno s;
     dirbuf := dirbuf s;
     faults := faults s;
     trace := trace s |}.
Definition set_hmask (x : Z) (s : DBM) : DBM :=
  {| dirf := dirf s;
     pagf := pagf s;
     rdonly := rdonly s;
     maxbno := maxbno s;
     curbit := curbit s;
     hmask := x;
     blkptr := blkptr s;
     keyptr := keyptr s;
     pagbno := pagbno s;
     pag := pag s;
     dirbno := dirbno s;
     dirbuf := dirbuf s;
     faults := faults s;
     trace := trace s |}.
Definition set_blkptr (x : Z) (s : DBM) : DBM :=
  {| dirf := dirf s;
     pagf := pagf s;
     rdonly := rdonly s;
     maxbno := maxbno s;
     curbit := curbit s;
     hmask := hmask s;
     blkptr := x;
     keyptr := keyptr s;
     pagbno := pagbno s;
     pag := pag s;
     dirbno := dirbno s;
     dirbuf := dirbuf s;
     faults := faults s;
     trace := trace s |}.
Definition set_keyptr (x : Z) (s : DBM) : DBM :=
  {| dirf := dirf s;
     pagf := pagf s;
     rdonly := rdonly s;
     maxbno := maxbno s;
     curbit := curbit s;
     hmask := hmask s;
     blkptr := blkptr s;
     keyptr := x;
     pagbno := pagbno s;
     pag := pag s;
     dirbno := dirbno s;
     dirbuf := dirbuf s;
     faults := faults s;
     trace := trace s |}.
Definition set_pagbno (x : Z) (s : DBM) : DBM :=
  {| dirf := dirf s;
     pagf := pagf s;
     rdonly := rdonly s;
     maxbno := maxbno s;
     curbit := curbit s;
     hmask := hmask s;
     blkptr := blkptr s;
     keyptr := keyptr s;
     pagbno := x;
     pag := pag s;
     dirbno := dirbno s;
     dirbuf := dirbuf s;
     faults := faults s;
     trace := trace s |}.
Definition set_pag (x : Page) (s : DBM) : DBM :=
  {| dirf := dirf s;
     pagf := pagf s;
     rdonly := rdonly s;
     maxbno := maxbno s;
     curbit := curbit s;
     hmask := hmask s;
     blkptr := blkptr s;
     keyptr := keyptr s;
     pagbno := pagbno s;
     pag := x;
     dirbno := dirbno s;
     dirbuf := dirbuf s;
     faults := faults s;
     trace := trace s |}.
Definition set_dirbno (x : Z) (s : DBM) : DBM :=
  {| dirf := dirf s;
     pagf := pagf s;
     rdonly := rdonly s;
     maxbno := maxbno s;
     curbit := curbit s;
     hmask := hmask s;
     blkptr := blkptr s;
     keyptr := keyptr s;
     pagbno := pagbno s;
     pag := pag s;
     dirbno := x;
     dirbuf := dirbuf s;
     faults := faults s;
     trace := trace s |}.
Definition set_dirbuf (x : list byte) (s : DBM) : DBM :=
  {| dirf := dirf s;
     pagf := pagf s;
     rdonly := rdonly s;
     maxbno := maxbno s;
     curbit := curbit s;
     hmask := hmask s;
     blkptr := blkptr s;
     keyptr := keyptr s;
     pagbno := pagbno s;
     pag := pag s;
     dirbno := dirbno s;
     dirbuf := x;
     faults := faults s;
     trace := trace s |}.
Definition set_faults (x : list bool) (s : DBM) : DBM :=
  {| dirf := dirf s;
     pagf := pagf s;
     rdonly := rdonly s;
     maxbno := maxbno s;
     curbit := curbit s;
     hmask := hmask s;
     blkptr := blkptr s;
     keyptr := keyptr s;
     pagbno := pagbno s;
     pag := pag s;
     dirbno := dirbno s;
     dirbuf := dirbuf s;
     faults := x;
     trace := trace s |}.
Definition set_trace (x : list event) (s : DBM) : DBM :=
  {| dirf := dirf s;
     pagf := pagf s;
     rdonly := rdonly s;
     maxbno := maxbno s;
     curbit := curbit s;
     hmask := hmask s;
     blkptr := blkptr s;
     keyptr := keyptr s;
     pagbno := pagbno s;
     pag := pag s;
     dirbno := dirbno s;
     dirbuf := dirbuf s;
     faults := faults s;
     trace := x |}.

Definition file_of (f : fileid) (s : DBM) : File :=
  match f with DirF => dirf s | PagF => pagf s end.
Definition set_file (f : fileid) (x : File) (s : DBM) : DBM :=
  match f with DirF => set_dirf x s | PagF => set_pagf x s end.
Definition log (e : event) (s : DBM) : DBM := set_trace (e :: trace s) s.

(** State-passing computations on the handle; the state is kept when the
    computation panics. *)
Definition M (A : Type) : Type := DBM -> res A * DBM.

Definition ret {A} (a : A) : M A := fun s => (Ok a, s).
Definition bind {A B} (m : M A) (f : A -> M B) : M B :=
  fun s => match m s with
           | (Ok a, s') => f a s'
           | (Panic, s') => (Panic, s')
           | (Timeout, s') => (Timeout, s')
           end.
Definition lift {A} (r : res A) : M A := fun s => (r, s).
Definition get {A} (proj : DBM -> A) : M A := fun s => (Ok (proj s), s).
Definition modify (f : DBM -> DBM) : M unit := fun s => (Ok tt, f s).

Declare Scope dbm_scope.
Delimit Scope dbm_scope with dbm.
Notation "'let!' x := m 'in' k" := (bind m (fun x => k))
  (at level 10, x pattern, k at level 200) : dbm_scope.
Notation "m ;; k" := (bind m (fun _ => k))
  (at level 100, k at level 200, right associativity) : dbm_scope.

Local Open Scope dbm_scope.

Definition next_fault : M bool := fun s =>
  match faults s with
  | [] => (Ok false, s)
  | b :: rest => (Ok b, set_faults rest s)
  end.

(** [f.Seek(off, io.SeekStart)] *)
Definition sys_seek (f : fileid) (off : Z) : M (option errno) :=
  let! fail := next_fault in
  if fail : bool then ret (Some EIO)
  else if off <? 0 then ret (Some EINVAL)
  else fun s =>
    let fl := file_of f s in
    (Ok None, log (EvSeek f off) (set_file f (mkFile (fdata fl) off (fwritable fl)) s)).

(** [f.Read(buf)] with [len(buf) = n]: the bytes read and the error. *)
Definition sys_read (f : fileid) (n : nat) : M (list byte * option errno) :=
  let! fail := next_fault in
  if fail : bool then ret ([], Some EIO)
  else fun s =>
    let fl := file_of f s in
    let got := take n (drop (Z.to_nat (fpos fl)) (fdata fl)) in
    match got, n with
    | [], O => (Ok ([], None), s)
    | [], S _ => (Ok ([], Some EOF), s)
    | _, _ =>
        (Ok (got, None),
         log (EvRead f (fpos fl) (length got))
           (set_file f (mkFile (fdata fl) (fpos fl + Z.of_nat (length got))
                          (fwritable fl)) s))
    end.

Definition write_at (d : list byte) (pos : nat) (data : list byte) : list byte :=
  take pos (d ++ replicate (pos - length d) Byte.x00) ++ data
  ++ drop (pos + length data) d.

(** [f.Write(buf)] *)
Definition sys_write (f : fileid) (data : list byte) : M (option errno) :=
  let! fail := next_fault in
  if fail : bool then ret (Some EIO)
  else fun s =>
    let fl := file_of f s in
    if fwritable fl then
      (Ok None,
       log (EvWrite f (fpos fl) data)
         (set_file f (mkFile (write_at (fdata fl) (Z.to_nat (fpos fl)) data)
                        (fpos fl + Z.of_nat (length data)) (fwritable fl)) s))
    else (Ok (Some EBADF), s).

Definition offPag (off : Z) : Z := i64 (off * PBLKSIZ).
Definition offDir (off : Z) : Z := i64 (off * DBLKSIZ).

Definition seekWrite (f : fileid) (offset : Z) (buf : list byte)
  : M (option error) :=
  let! e := sys_seek f offset in
  match e with
  | Some err => ret (Some (IOError OpSeek f err))
  | None =>
      let! e := sys_write f buf in
      match e with
      | Some err => ret (Some (IOError OpWrite f err))
      | None => ret None
      end
  end.

(** [seekRead] fills the caller's buffer in place: the result carries the
    buffer after the call.  An [EOF] from [Read] is not an error, and the
    bytes of the buffer that were not read keep their old contents. *)
Definition seekRead (f : fileid) (offset : Z) (buf : list byte)
  : M (list byte * option error) :=
  let! e := sys_seek f offset in
  match e with
  | Some err => ret (buf, Some (IOError OpSeek f err))
  | None =>
      let! (got, e) := sys_read f (length buf) in
      let buf := list_inserts 0 got buf in
      match e with
      | Some EOF | None => ret (buf, None)
      | Some err => ret (buf, Some (IOError OpRead f err))
      end
  end.

(** [masks] (part_000:112), the octal constants written in decimal. *)
Definition masks : list Z :=
  [0; 1; 3; 7;
   15; 31; 63; 127;
   255; 511; 1023; 2047;
   4095; 8191; 16383; 32767;
   65535; 131071; 262143; 524287;
   1048575; 2097151; 4194303; 8388607;
   16777215; 33554431; 67108863; 134217727;
   268435455; 536870911; 1073741823; 2147483647].

(** ** The directory bitmap (part_000, [getDBit], [setDBit]) *)

(** The shared preamble: bring block [dirb] into [dirbuf]. *)
Definition load_dir (dirb : Z) : M (option error) :=
  let! cached := get dirbno in
  if dirb =? cached then ret None
  else
    let! buf := get dirbuf in
    let! (buf, err) := seekRead DirF (offDir dirb) buf in
    modify (set_dirbuf buf) ;;
    match err with
    | Some e => ret (Some e)
    | None => modify (set_dirbno dirb) ;; ret None
    end.

(** [db.dirbuf[c%DBLKSIZ]] and the shift count [dbit%BITSIZ]: a negative
    index or a negative shift count is a run-time panic. *)
Definition dir_cell (c dbit : Z) : M (Z * Z) :=
  let idx := Z.rem c DBLKSIZ in
  let sh := Z.rem dbit BITSIZ in
  if (idx <? 0) || (sh <? 0) then lift Panic else ret (idx, sh).

Definition getDBit (dbit : Z) : M bool :=
  let c := Z.quot dbit BITSIZ in
  let dirb := Z.quot c DBLKSIZ in
  let! err := load_dir dirb in
  match err with
  | Some _ => ret false
  | None =>
      let! (idx, sh) := dir_cell c dbit in
      let! buf := get dirbuf in
      ret (negb (Z.land (byte_to_Z (byte_at buf idx)) (Z.shiftl 1 sh) =? 0))
  end.

Definition setDBit (dbit : Z) : M (option error) :=
  let c := Z.quot dbit BITSIZ in
  let dirb := Z.quot c DBLKSIZ in
  let! err := load_dir dirb in
  match err with
  | Some e => ret (Some e)
  | None =>
      let! (idx, sh) := dir_cell c dbit in
      let! buf := get dirbuf in
      modify (set_dirbuf
                (<[Z.to_nat idx :=
                     byte_of_Z (Z.lor (byte_to_Z (byte_at buf idx)) (Z.shiftl 1 sh))]>
                   buf)) ;;
      let! mx := get maxbno in
      (if mx <=? dbit then modify (set_maxbno (i64 (mx + DBLKSIZ * BITSIZ)))
       else ret tt) ;;
      let! buf := get dirbuf in
      seekWrite DirF (offDir dirb) buf
  end.

(** ** The trie walk (part_000, [getPage]) *)

(** The child of trie node [dbit] selected by bit [sel] of the hash. *)
Definition child (dbit : Z) (sel : bool) : Z :=
  if sel then i64 (2 * dbit + 2) else i64 (2 * dbit + 1).

Fixpoint walk (fuel : nat) (hash dbit hbit : Z) : M (Z * Z) :=
  let! mx := get maxbno in
  if dbit <? mx then
    match fuel with
    | O => lift Timeout
    | S fuel =>
        let! split := getDBit dbit in
        if split : bool then
          walk fuel hash
            (child dbit (negb (Z.land hash (i64 (Z.shiftl 1 hbit)) =? 0)))
            (hbit + 1)
        else ret (dbit, hbit)
    end
  else ret (dbit, hbit).

Definition walk_fuel : nat := 64.

Definition getPage (hash : Z) : M (option error) :=
  let! (dbit, hbit) := walk walk_fuel hash 0 0 in
  modify (set_curbit dbit) ;;
  let! mask := lift (match masks !! Z.to_nat hbit with
                     | Some m => Ok m
                     | None => Panic
                     end) in
  modify (set_hmask mask) ;;
  let pagb := Z.land hash mask in
  let! cached := get pagbno in
  if pagb =? cached then ret None
  else
    let! buf := get pag in
    let! (buf, err) := seekRead PagF (offPag pagb) buf in
    modify (set_pag buf) ;;
    match err with
    | Some e => ret (Some e)
    | None =>
        let! ok := lift (ChkPage buf) in
        if ok : bool then modify (set_pagbno pagb) ;; ret None
        else ret (Some ErrInvalidPage)
    end.

(** ** Store flags *)

Definition StoreFlags : Type := Z.
Definition StoreREPLACE : StoreFlags := 1.
Definition StoreSEEDUPS : StoreFlags := 2.

(** ** Fetch, Delete *)

Definition write_page : M (option error) :=
  let! b := get pagbno in
  let! buf := get pag in
  seekWrite PagF (offPag b) buf.

Definition Fetch (key : Datum) : M (Datum * option error) :=
  if bad key then ret (Nullitem, Some ErrInvalidArgument)
  else
    let hash := exHash key in
    let! err := getPage hash in
    match err with
    | Some e => ret (Nullitem, Some e)
    | None =>
        let! p := get pag in
        let! v := lift (GetPair p key) in
        ret (v, None)
    end.

Definition Delete (key : Datum) : M (bool * option error) :=
  if bad key then ret (false, Some ErrInvalidArgument)
  else
    let! ro := get rdonly in
    if ro : bool then ret (false, Some ErrDBMRDOnly)
    else
      let hash := exHash key in
      let! err := getPage hash in
      match err with
      | Some e => ret (false, Some e)
      | None =>
          let! p := get pag in
          let! (p, found) := lift (DelPair p key) in
          modify (set_pag p) ;;
          if found : bool then
            let! err := write_page in
            match err with
            | Some e => ret (false, Some e)
            | None => ret (true, None)
            end
          else ret (false, None)
      end.

(** ** makeRoom: the split loop *)

Inductive loop_step : Type :=
| Return (err : option error)
| Continue.

(** The second half of a pass: mark the split in the directory, test the
    fit, and otherwise deepen the walk by one bit and write the current
    page out. *)
Definition makeRoom_mark (hm : Z) (moves : bool) (need : Z) : M loop_step :=
  let! cb := get curbit in
  let! err := setDBit cb in
  match err with
  | Some e => ret (Return (Some e))
  | None =>
      let! p := get pag in
      let! fits := lift (FitPair p need) in
      if fits : bool then ret (Return None)
      else
        modify (set_curbit (child cb moves)) ;;
        modify (set_hmask (Z.lor hm (i64 (hm + 1)))) ;;
        let! err := write_page in
        match err with
        | Some e => ret (Return (Some e))
        | None => ret Continue
        end
  end.

(** One pass through the body of the [for] loop of [makeRoom]: split the
    current page, write the page the incoming pair does not go to, then
    [makeRoom_mark]. *)
Definition makeRoom_body (hash need : Z) : M loop_step :=
  let! p := get pag in
  let! hm := get hmask in
  let! (p, newPag) := lift (SplPage p (i64 (hm + 1))) in
  modify (set_pag p) ;;
  let newp := Z.lor (Z.land hash hm) (i64 (hm + 1)) in
  let moves := negb (Z.land hash (i64 (hm + 1)) =? 0) in
  let! err :=
    (if moves then
       let! err := write_page in
       match err with
       | Some e => ret (Some e)
       | None => modify (set_pagbno newp) ;; modify (set_pag newPag) ;; ret None
       end
     else seekWrite PagF (offPag newp) newPag) in
  match err with
  | Some e => ret (Return (Some e))
  | None => makeRoom_mark hm moves need
  end.

(** [for smax--; smax > 0; smax-- { body }], counted by the number of
    passes still allowed. *)
Fixpoint makeRoom_loop (passes : nat) (hash need : Z) : M (option error) :=
  match passes with
  | O => ret None
  | S passes =>
      let! step := makeRoom_body hash need in
      match step with
      | Return err => ret err
      | Continue => makeRoom_loop passes hash need
      end
  end.

(** [smax := SPLTMAX], then the init statement [smax--] runs before the
    first test [smax > 0]: the body runs for [smax = SPLTMAX-1, ..., 1]. *)
Definition makeRoom_passes : nat := Z.to_nat (SPLTMAX - 1).

Definition makeRoom (hash need : Z) : M (option error) :=
  makeRoom_loop makeRoom_passes hash need.

(** ** Store *)

Definition Store (key val : Datum) (flags : StoreFlags) : M (bool * option error) :=
  if bad key then ret (false, Some ErrInvalidArgument)
  else
    let! ro := get rdonly in
    if ro : bool then ret (false, Some ErrDBMRDOnly)
    else
      let need := Size key + Size val in
      if (need <? 0) || (PAIRMAX <? need) then ret (false, Some ErrInvalidArgument)
      else
        let hash := exHash key in
        let! err := getPage hash in
        match err with
        | Some e => ret (false, Some e)
        | None =>
            let! p := get pag in
            let! dup :=
              (if flags =? StoreREPLACE then
                 let! (p, _) := lift (DelPair p key) in
                 modify (set_pag p) ;; ret false
               else if flags =? StoreSEEDUPS then lift (DupPair p key)
               else ret false) in
            if dup : bool then ret (true, None)
            else
              let! p := get pag in
              let! fits := lift (FitPair p need) in
              let! err := (if fits : bool then ret None else makeRoom hash need) in
              match err with
              | Some e => ret (false, Some e)
              | None =>
                  let! p := get pag in
                  let! p := lift (PutPair p key val) in
                  modify (set_pag p) ;;
                  let! err := write_page in
                  match err with
                  | Some e => ret (false, Some e)
                  | None => ret (true, None)
                  end
              end
        end.

(** ** Iteration (part_000, [FirstKey], [NextKey], [getNext]) *)

Inductive next_step : Type :=
| Found (key : Datum) (err : option error)
| Again.

(** One pass through the body of the [for] loop of [getNext]. *)
Definition getNext_body : M next_step :=
  let! kp := get keyptr in
  modify (set_keyptr (i64 (kp + 1))) ;;
  let! p := get pag in
  let! key := lift (GetNKey p (i64 (kp + 1))) in
  match key with
  | Some k => ret (Found (Some k) None)
  | None =>
      modify (set_keyptr 0) ;;
      let! pb := get pagbno in
      let! bp := get blkptr in
      let! err :=
        (if negb (pb =? bp) then
           modify (set_blkptr (i64 (bp + 1))) ;;
           sys_seek PagF (offPag (i64 (bp + 1)))
         else ret None) in
      match err with
      | Some e => ret (Found Nullitem (Some (IOError OpSeek PagF e)))
      | None =>
          let! bp := get blkptr in
          modify (set_pagbno bp) ;;
          let! p := get pag in
          let! (got, e) := sys_read PagF (length p) in
          modify (set_pag (list_inserts 0 got p)) ;;
          match e with
          | Some EOF => ret (Found Nullitem None)
          | Some e => ret (Found Nullitem (Some (IOError OpRead PagF e)))
          | None =>
              let! p := get pag in
              let! ok := lift (ChkPage p) in
              if ok : bool then ret Again
              else ret (Found Nullitem (Some ErrInvalidPage))
          end
      end
  end.

Fixpoint getNext_loop (fuel : nat) : M (Datum * option error) :=
  match fuel with
  | O => lift Timeout
  | S fuel =>
      let! step := getNext_body in
      match step with
      | Found key err => ret (key, err)
      | Again => getNext_loop fuel
      end
  end.

(** Every pass that does not return consumes at least one byte of the page
    file, so its length bounds the number of passes. *)
Definition getNext : M (Datum * option error) :=
  fun s => getNext_loop (S (S (length (fdata (pagf s))))) s.

Definition FirstKey : M (Datum * option error) :=
  let! buf := get pag in
  let! (buf, err) := seekRead PagF (offPag 0) buf in
  modify (set_pag buf) ;;
  match err with
  | Some e => ret (Nullitem, Some e)
  | None =>
      modify (set_pagbno 0) ;;
      modify (set_blkptr 0) ;;
      modify (set_keyptr 0) ;;
      getNext
  end.

Definition NextKey : M (Datum * option error) := getNext.

(** ** Prep: the handle right after the two files have been opened *)

Definition O_RDONLY : Z := 0.
Definition O_WRONLY : Z := 1.
Definition O_RDWR : Z := 2.

Definition Prep (dir_bytes pag_bytes : list byte) (flags : Z) : DBM :=
  let wronly := negb (Z.land flags O_WRONLY =? 0) in
  let flags' := if wronly then Z.lor (Z.land flags (Z.lnot O_WRONLY)) O_RDWR else flags in
  let writable := negb (Z.land flags' O_RDWR =? 0) in
  let size := Z.of_nat (length dir_bytes) in
  {| dirf := mkFile dir_bytes 0 writable;
     pagf := mkFile pag_bytes 0 writable;
     rdonly := negb wronly && (flags =? O_RDONLY);
     maxbno := i64 (size * BITSIZ);
     curbit := 0; hmask := 0; blkptr := 0; keyptr := 0;
     pagbno := -1;
     pag := zero_page;
     dirbno := if size =? 0 then 0 else -1;
     dirbuf := replicate (Z.to_nat DBLKSIZ) Byte.x00;
     faults := [];
     trace := [] |}.

Local Close Scope dbm_scope.
Local Close Scope res_scope.

(** ** Running a sequence of operations *)

Definition kv (k v : string) : Datum * Datum :=
  (Some (bytes_of k), Some (bytes_of v)).

Definition key (k : string) : Datum := Some (bytes_of k).

(** The state after a computation, whatever its outcome. *)
Definition after {A} (m : M A) (s : DBM) : DBM := (m s).2.
Definition result {A} (m : M A) (s : DBM) : res A := (m s).1.

Definition store_all (flags : StoreFlags) (l : list (Datum * Datum)) (s : DBM) : DBM :=
  fold_left (fun s kv => after (Store kv.1 kv.2 flags) s) l s.

(** A fresh database opened read/write: both files empty. *)
Definition fresh : DBM := Prep [] [] O_RDWR.

(** * Vocabulary of the properties *)

(** The polynomial [h <- 65599*h + b] over the integers, without
    wrap-around. *)
Definition poly (data : list byte) : Z :=
  fold_left (fun h b => 65599 * h + byte_to_Z b) data 0.

#[global] Instance fileid_eq_dec : EqDecision fileid.
Proof. solve_decision. Defined.

Definition is_write (f : fileid) (e : event) : bool :=
  match e with
  | EvWrite g _ _ => bool_decide (f = g)
  | _ => false
  end.

(** The system calls a computation performs from state [s], oldest first. *)
Definition events {A} (m : M A) (s : DBM) : list event :=
  rev (take (length (trace (after m s)) - length (trace s)) (trace (after m s))).

Definition writes (f : fileid) (evs : list event) : nat :=
  length (filter (fun e => is_write f e = true) evs).

(** The writes to the page file, as (offset, data), that come before the
    first write to the directory file. *)
Fixpoint page_writes_before_dbit (evs : list event) : list (Z * list byte) :=
  match evs with
  | [] => []
  | EvWrite DirF _ _ :: _ => []
  | EvWrite PagF o d :: rest => (o, d) :: page_writes_before_dbit rest
  | _ :: rest => page_writes_before_dbit rest
  end.

Definition on_file (f : fileid) (e : event) : Prop :=
  match e with
  | EvSeek g _ | EvRead g _ _ | EvWrite g _ _ => f = g
  end.

Definition big (c : string) (n : nat) : Datum :=
  Some (concat (replicate n (bytes_of c))).

Definition three_keys : DBM :=
  store_all StoreREPLACE
    [kv "key1" "val1"; kv "key2" "val2"; kv "key3" "val3"] fresh.

(** "aa" and "ii" hash to values that agree on bits 0..8 and differ on
    bit 9, so the tenth split is the first that separates them. *)
Definition one_big_pair : DBM :=
  after (getPage (exHash (key "ii")))
    (after (Store (key "aa") (big "x" 506) StoreREPLACE) fresh).

(** Page 0 holds "a" and "c", whose hashes are odd; the walk is done for
    "b", whose hash is even: the split sends both pairs to the new page and
    the incoming pair stays on the old one. *)
Definition pair_stays : DBM :=
  after (getPage (exHash (key "b")))
    (store_all StoreREPLACE [(key "a", big "p" 400); (key "c", big "r" 400)] fresh).

Definition two_pages : DBM :=
  store_all StoreREPLACE
    [(key "a", big "p" 400); (key "b", big "q" 400); (key "c", big "r" 400)]
    fresh.

Definition not_a_write (e : event) : Prop :=
  is_write DirF e = false /\ is_write PagF e = false.

(** What a read-only operation leaves alone: the bytes of both files, the
    way they were opened, the handle fields other than the caches, and a log
    that grows by seeks and reads only. *)
Record reads_only (s s' : DBM) : Prop := mk_reads_only {
  ro_pag : fdata (pagf s') = fdata (pagf s);
  ro_dir : fdata (dirf s') = fdata (dirf s);
  ro_pagw : fwritable (pagf s') = fwritable (pagf s);
  ro_dirw : fwritable (dirf s') = fwritable (dirf s);
  ro_rdonly : rdonly s' = rdonly s;
  ro_maxbno : maxbno s' = maxbno s;
  ro_blkptr : blkptr s' = blkptr s;
  ro_keyptr : keyptr s' = keyptr s;
  ro_trace : exists new, trace s' = new ++ trace s /\ Forall not_a_write new
}.

Definition quiet {A} (m : M A) : Prop := forall s, reads_only s (m s).2.

(** ** The pairs a page holds

    Slot [0] of the table is the number [n] of entries; pair number [t]
    (from 0) has its key in [ino[2t+1] .. top(2t)) and its value in
    [ino[2t+2] .. ino[2t+1]), where [top(0)] is the end of the page. *)

Definition top (p : Page) (j : Z) : Z := if j =? 0 then PBLKSIZ else ino p j.

Definition pair_at (p : Page) (t : nat) : list byte * list byte :=
  let j := 2 * Z.of_nat t in
  (sub p (ino p (j + 1)) (top p j), sub p (ino p (j + 2)) (ino p (j + 1))).

Definition pairs_of (p : Page) : list (list byte * list byte) :=
  map (pair_at p) (seq 0 (Z.to_nat (ino p 0 / 2))).

(** A well-formed page (the data model of the page): the buffer has
    [PBLKSIZ] bytes, the number of entries is even, the offsets walk
    downward from the end of the page, and the table ends below the
    payload. *)
Definition wf_page (p : Page) : bool :=
  (length p =? Z.to_nat PBLKSIZ)%nat
  && Z.even (ino p 0)
  && ((ino p 0 + 1) * SHORTSIZE <=? top p (ino p 0))
  && forallb (fun j => top p (Z.of_nat j) <=? top p (Z.of_nat j - 1))
       (seq 1 (Z.to_nat (ino p 0))).

(** The value of the first pair with the given key. *)
Fixpoint first_value (key : list byte) (l : list (list byte * list byte))
  : Datum :=
  match l with
  | [] => Nullitem
  | (k, v) :: rest => if bool_decide (key = k) then Some v else first_value key rest
  end.

(** The odd slot of the first pair with the given key, counting from slot
    [i] for the head of the list; 0 when there is none. *)
Fixpoint first_slot (key : list byte) (l : list (list byte * list byte)) (i : Z)
  : Z :=
  match l with
  | [] => 0
  | (k, v) :: rest => if bool_decide (key = k) then i else first_slot key rest (i + 2)
  end.

(** The pairs a split sends to the new page. *)
Definition goes_to_new (sbit : Z) (kv : list byte * list byte) : bool :=
  negb (Z.land (Hash kv.1) sbit =? 0).

(** [emits P m]: whatever the state, [m] only appends events satisfying [P]
    to the log. *)
Definition emits {A} (P : event -> Prop) (m : M A) : Prop :=
  forall s, exists new, trace (m s).2 = new ++ trace s /\ Forall P new.

Definition reads_on (f : fileid) (e : event) : Prop :=
  on_file f e /\ not_a_write e.

(** ** The trie walk over a cached directory block

    What [getDBit] and the loop of [getPage] compute when the block they
    need is the one in [dirbuf]: a function of the buffer alone. *)

Definition dir_bit (buf : list byte) (dbit : Z) : res bool :=
  let c := Z.quot dbit BITSIZ in
  let idx := Z.rem c DBLKSIZ in
  let sh := Z.rem dbit BITSIZ in
  if (idx <? 0) || (sh <? 0) then Panic
  else Ok (negb (Z.land (byte_to_Z (byte_at buf idx)) (Z.shiftl 1 sh) =? 0)).

Fixpoint walk_cached (fuel : nat) (buf : list byte) (mx hash dbit hbit : Z)
  : res (Z * Z) :=
  if dbit <? mx then
    match fuel with
    | O => Timeout
    | S fuel =>
        match dir_bit buf dbit with
        | Ok true =>
            walk_cached fuel buf mx hash
              (child dbit (negb (Z.land hash (i64 (Z.shiftl 1 hbit)) =? 0)))
              (hbit + 1)
        | Ok false => Ok (dbit, hbit)
        | Panic => Panic
        | Timeout => Timeout
        end
    end
  else Ok (dbit, hbit).

(** The pair is absent from the list, or it is its first or its last pair
    and occurs nowhere else. *)
Definition key_free (key : list byte) (l : list (list byte * list byte)) : bool :=
  forallb (fun kv => negb (bool_decide (kv.1 = key))) l.

Definition key_at_ends (key : list byte) (l : list (list byte * list byte)) : bool :=
  key_free key l
  || match l with
     | (k, _) :: rest => bool_decide (k = key) && key_free key rest
     | [] => false
     end
  || match reverse l with
     | (k, _) :: rest => bool_decide (k = key) && key_free key rest
     | [] => false
     end.

(** With an empty fault schedule the system calls fail only for the reasons
    the files give, and the schedule stays empty. *)
Definition calm {A} (m : M A) : Prop :=
  forall s, faults s = [] -> faults (m s).2 = [].

(** The fields of the Go struct, files apart. *)
Record same_handle (s s' : DBM) : Prop := mk_same_handle {
  sh_rdonly : rdonly s' = rdonly s;
  sh_maxbno : maxbno s' = maxbno s;
  sh_curbit : curbit s' = curbit s;
  sh_hmask : hmask s' = hmask s;
  sh_blkptr : blkptr s' = blkptr s;
  sh_keyptr : keyptr s' = keyptr s;
  sh_pagbno : pagbno s' = pagbno s;
  sh_pag : pag s' = pag s;
  sh_dirbno : dirbno s' = dirbno s;
  sh_dirbuf : dirbuf s' = dirbuf s
}.

(** ** The directory block as a trie

    Bit [d] of a block, the parent of a trie node, and the closure property
    of a directory built by splits: a node other than the root is marked
    split only if its parent is. *)

Definition bit_set (buf : list byte) (d : Z) : bool :=
  Z.testbit (byte_to_Z (byte_at buf (d / 8))) (d mod 8).

Definition parent (d : Z) : Z := (d - 1) / 2.

(** The bits of a block in the order of their numbers. *)
Definition byte_bits (b : byte) : list bool :=
  map (Z.testbit (byte_to_Z b)) [0; 1; 2; 3; 4; 5; 6; 7].

Definition dir_bits (buf : list byte) : list bool :=
  concat (map byte_bits buf).

(** [closed_below ps cs]: with [cs] the nodes below the nodes [ps], two for
    each, a marked node of [cs] has a marked parent. *)
Fixpoint closed_below (ps cs : list bool) : bool :=
  match ps, cs with
  | p :: ps', c1 :: c2 :: cs' => implb c1 p && implb c2 p && closed_below ps' cs'
  | p :: _, [c1] => implb c1 p
  | _, _ => true
  end.

Definition dir_closed (buf : list byte) : bool :=
  closed_below (dir_bits buf) (tail (dir_bits buf)).

(** Setting bit [c] of the block, the update [setDBit] makes. *)
Definition set_bit (buf : list byte) (c : Z) : list byte :=
  <[Z.to_nat (c / 8) :=
      byte_of_Z (Z.lor (byte_to_Z (byte_at buf (c / 8))) (Z.shiftl 1 (c mod 8)))]> buf.

(** A directory of one block held in [dirbuf]: the block is the cached one
    and a closed trie, and the directory file holds exactly that block with
    [maxbno] its number of bits, or is still empty with [maxbno] zero and
    the root not split. *)
Definition one_block (s : DBM) : bool :=
  (dirbno s =? 0) && (length (dirbuf s) =? Z.to_nat DBLKSIZ)%nat
  && dir_closed (dirbuf s)
  && (((maxbno s =? DBLKSIZ * BITSIZ) && bool_decide (fdata (dirf s) = dirbuf s))
      || ((maxbno s =? 0) && negb (bit_set (dirbuf s) 0)
          && bool_decide (fdata (dirf s) = []))).


(** The pairs of a list stored under the key [k], in their order. *)
Definition pairs_with (k : list byte) (l : list (list byte * list byte))
  : list (list byte * list byte) :=
  filter (fun kv => kv.1 = k) l.

(** The state between two passes of the split loop run for the key [k]:
    the walk over the cached block for the hash of [k] ends at [curbit]
    after [hbit] bits, [hmask] is the mask of that depth, the current page
    is the one the mask selects, and it is well formed and holds the pairs
    [kl] under [k].  The directory file holds the cached block, or it is
    still empty and the walk has not left the root. *)
Record split_ready (k : list byte) (kl : list (list byte * list byte))
    (hbit : Z) (s : DBM) : Prop := mk_split_ready {
  sr_faults : faults s = [];
  sr_pagw : fwritable (pagf s) = true;
  sr_dirw : fwritable (dirf s) = true;
  sr_dirbno : dirbno s = 0;
  sr_maxbno : (maxbno s = DBLKSIZ * BITSIZ /\ fdata (dirf s) = dirbuf s)
              \/ (maxbno s = 0 /\ hbit = 0 /\ fdata (dirf s) = []);
  sr_len : length (dirbuf s) = Z.to_nat DBLKSIZ;
  sr_closed : dir_closed (dirbuf s) = true;
  sr_walk : walk_cached walk_fuel (dirbuf s) (DBLKSIZ * BITSIZ) (Hash k) 0 0
            = Ok (curbit s, hbit);
  sr_mask : masks !! Z.to_nat hbit = Some (hmask s);
  sr_hbit : 0 <= hbit;
  sr_pagbno : pagbno s = Z.land (Hash k) (hmask s);
  sr_wf : wf_page (pag s) = true;
  sr_keys : pairs_with k (pairs_of (pag s)) = kl
}.

(** The state in which [getPage] and the split loop leave the handle: the
    directory is one block, and a walk for the hash of [k] ends on the
    current page, which is well formed and holds the pairs [kl] under
    [k]. *)
Record settled (k : list byte) (kl : list (list byte * list byte)) (s : DBM)
  : Prop := mk_settled {
  st_faults : faults s = [];
  st_pagw : fwritable (pagf s) = true;
  st_dirw : fwritable (dirf s) = true;
  st_block : one_block s = true;
  st_walk : exists dbit hbit mask,
      walk_cached walk_fuel (dirbuf s) (maxbno s) (Hash k) 0 0 = Ok (dbit, hbit) /\
      masks !! Z.to_nat hbit = Some mask /\
      pagbno s = Z.land (Hash k) mask;
  st_wf : wf_page (pag s) = true;
  st_keys : pairs_with k (pairs_of (pag s)) = kl
}.


(** ** Operations that leave the files alone

    Weaker than [reads_only]: the cursor of the iteration ([blkptr],
    [keyptr]) may move as well. *)
Record files_kept (s s' : DBM) : Prop := mk_files_kept {
  fk_pag : fdata (pagf s') = fdata (pagf s);
  fk_dir : fdata (dirf s') = fdata (dirf s);
  fk_pagw : fwritable (pagf s') = fwritable (pagf s);
  fk_dirw : fwritable (dirf s') = fwritable (dirf s);
  fk_rdonly : rdonly s' = rdonly s;
  fk_maxbno : maxbno s' = maxbno s;
  fk_trace : exists new, trace s' = new ++ trace s /\ Forall not_a_write new
}.

Definition still {A} (m : M A) : Prop := forall s, files_kept s (m s).2.

(** The calls of the API, and a sequence of calls run on a handle, the
    results dropped. *)
Inductive call : Type :=
| CallFetch (key : Datum)
| CallStore (key val : Datum) (flags : StoreFlags)
| CallDelete (key : Datum)
| CallFirstKey
| CallNextKey.

Definition run_call (c : call) (s : DBM) : DBM :=
  match c with
  | CallFetch key => after (Fetch key) s
  | CallStore key val flags => after (Store key val flags) s
  | CallDelete key => after (Delete key) s
  | CallFirstKey => after FirstKey s
  | CallNextKey => after NextKey s
  end.

Definition run_calls (l : list call) (s : DBM) : DBM :=
  fold_left (fun s c => run_call c s) l s.

(** [FirstKey] followed by [j] calls of [NextKey]: the result of the last
    call. *)
Fixpoint nth_key (j : nat) : M (Datum * option error) :=
  match j with
  | O => FirstKey
  | S j => bind (nth_key j) (fun _ => NextKey)
  end.

(** [writes_at_most f n m]: whatever the state, [m] appends events to the
    log, at most [n] of them writes to the file [f]. *)
Definition writes_at_most {A} (f : fileid) (n : nat) (m : M A) : Prop :=
  forall s, exists new,
    trace (m s).2 = new ++ trace s /\ (writes f (rev new) <= n)%nat.

(** The block number [b] of the page file. *)
Definition block_at (data : list byte) (b : Z) : list byte :=
  take (Z.to_nat PBLKSIZ) (drop (Z.to_nat (b * PBLKSIZ)) data).

(** The handle during an iteration over a page file that is the one page
    [p0]: the cursor stands at pair [k] of the page and the file position
    at the end of the file. *)
Record cursor (p0 : Page) (k : nat) (s : DBM) : Prop := mk_cursor {
  cu_pag : pag s = p0;
  cu_keyptr : keyptr s = Z.of_nat k;
  cu_pagbno : pagbno s = 0;
  cu_blkptr : blkptr s = 0;
  cu_faults : faults s = [];
  cu_data : fdata (pagf s) = p0;
  cu_pos : fpos (pagf s) = PBLKSIZ
}.
(** * Properties *)

(** ** Bytes and machine integers *)

Lemma byte_to_Z_range (b : byte) : 0 <= byte_to_Z b < 256.
Proof.
  unfold byte_to_Z. pose proof (Byte.to_N_bounded b). lia.
Qed.

Lemma byte_to_of_Z (z : Z) : byte_to_Z (byte_of_Z z) = z mod 256.
Proof.
  unfold byte_to_Z, byte_of_Z.
  pose proof (Z.mod_pos_bound z 256 eq_refl) as Hr.
  destruct (Byte.of_N (Z.to_N (z mod 256))) as [b|] eqn:E.
  - apply Byte.to_of_N in E. rewrite E. lia.
  - apply Byte.of_N_None_iff in E. lia.
Qed.

Lemma byte_of_to_Z (b : byte) : byte_of_Z (byte_to_Z b) = b.
Proof.
  unfold byte_of_Z. pose proof (byte_to_Z_range b) as Hr.
  rewrite Z.mod_small by lia. unfold byte_to_Z.
  rewrite N2Z.id, Byte.of_to_N. reflexivity.
Qed.

Lemma i64_small (z : Z) : - 2 ^ 63 <= z < 2 ^ 63 -> i64 z = z.
Proof. intros H. unfold i64. rewrite Z.mod_small; lia. Qed.

Lemma u16_small (z : Z) : 0 <= z < 65536 -> u16 z = z.
Proof. intros H. unfold u16. apply Z.mod_small. lia. Qed.

(** ** The hash *)

Lemma hash_fold_wraps (data : list byte) (a b : Z) :
  a = b mod 2 ^ 64 ->
  fold_left (fun hash c => u64 (byte_to_Z c + 65599 * hash)) data a
  = fold_left (fun h c => 65599 * h + byte_to_Z c) data b mod 2 ^ 64.
Proof.
  revert a b. induction data as [|c data IH]; intros a b Hab; simpl.
  - exact Hab.
  - apply IH. unfold u64. subst a.
    rewrite Z.add_comm, Z.add_mod, Z.mul_mod_idemp_r, <- Z.add_mod by lia.
    reflexivity.
Qed.

(** C8. The hash is the polynomial [h <- 65599*h + b] started at 0, taken
    modulo 2^64 and reinterpreted as a signed 64-bit integer; in particular
    hash("") = 0, hash("a") = 97 and hash("abc") is
    97*65599^2 + 98*65599 + 99 modulo 2^64, reinterpreted as signed. *)
Theorem Hash_polynomial :
  (forall data : list byte, Hash data = i64 (poly data mod 2 ^ 64)) /\
  Hash (bytes_of "") = 0 /\
  Hash (bytes_of "a") = 97 /\
  Hash (bytes_of "abc") = i64 ((97 * 65599 ^ 2 + 98 * 65599 + 99) mod 2 ^ 64).
Proof.
  split; [|repeat split; vm_compute; reflexivity].
  intros data. unfold Hash, poly. f_equal.
  apply hash_fold_wraps. reflexivity.
Qed.

(** ** Argument checks *)

(** C3, as the code has it.  A nil key is rejected by [Fetch], [Store] and
    [Delete] with the invalid-argument error, and the handle and both files
    are left exactly as they were. *)
Theorem nil_key_rejected (s : DBM) (val : Datum) (flags : StoreFlags) :
  Fetch Nullitem s = (Ok (Nullitem, Some ErrInvalidArgument), s) /\
  Store Nullitem val flags s = (Ok (false, Some ErrInvalidArgument), s) /\
  Delete Nullitem s = (Ok (false, Some ErrInvalidArgument), s).
Proof. repeat split. Qed.

(** A zero-length key that is not nil passes the check: on a fresh store
    [Fetch] reports it absent with no error. *)
Lemma empty_key_not_rejected :
  Size (Some []) = 0 /\
  result (Fetch (Some [])) fresh = Ok (Nullitem, None) /\
  result (Fetch (Some [])) fresh <> Ok (Nullitem, Some ErrInvalidArgument).
Proof.
  split; [reflexivity|]. split; [vm_compute; reflexivity|].
  vm_compute. discriminate.
Qed.

(** ** Observing the log of system calls *)

(** ** Deleting a pair that is neither first nor last on its page *)

(** C5, at a failing input.  With key1, key2, key3 stored in this order,
    [Delete key2] returns true, yet [Fetch key2] still finds a value, a
    second [Delete key2] returns true again, and key1 has disappeared:
    [DelPair] copies up to the end of the page and so overwrites the pairs
    stored before the deleted one. *)
Theorem Delete_middle_pair_still_fetched :
  let s' := after (Delete (key "key2")) three_keys in
  result (Fetch (key "key2")) three_keys = Ok (key "val2", None) /\
  result (Delete (key "key2")) three_keys = Ok (true, None) /\
  result (Fetch (key "key2")) s' = Ok (key "val2", None) /\
  result (Delete (key "key2")) s' = Ok (true, None) /\
  result (Fetch (key "key1")) s' = Ok (Nullitem, None).
Proof. vm_compute. repeat split. Qed.

(** ** Giving up on splits *)

(** C2, at a failing input.  [makeRoom] makes nine split attempts, not
    [SPLTMAX = 10], and returns success with the pair still not fitting; one
    more pass would have made room.  The [Store] that called it reports
    success and the value it stored comes back corrupted. *)
Theorem makeRoom_gives_up_after_nine :
  let h := exHash (key "ii") in
  let s := one_big_pair in
  let s1 := after (Store (key "aa") (big "x" 506) StoreREPLACE) fresh in
  let s2 := after (Store (key "ii") (big "y" 506) StoreREPLACE) s1 in
  FitPair (pag s) 508 = Ok false /\
  result (makeRoom h 508) s = Ok None /\
  writes DirF (events (makeRoom h 508) s) = 9%nat /\
  FitPair (pag (after (makeRoom h 508) s)) 508 = Ok false /\
  FitPair (pag (after (makeRoom_loop (Z.to_nat SPLTMAX) h 508) s)) 508 = Ok true /\
  result (Store (key "ii") (big "y" 506) StoreREPLACE) s1 = Ok (true, None) /\
  result (Fetch (key "ii")) s2 <> Ok (big "y" 506, None).
Proof.
  vm_compute. repeat split; discriminate.
Qed.

(** ** Iterating across a page boundary *)

(** C6, at a failing input.  Page 0 holds "b" and page 1 holds "a" and "c".
    After [FirstKey] has returned "b", the pass of [getNext] that exhausts
    page 0 reads page 1 but leaves [blkptr] and [pagbno] at 0, because the
    increment sits inside the [pagbno != blkptr] test.  The page buffer then
    holds page 1 under the number 0 and [Fetch "b"] misses a stored key. *)
Theorem getNext_does_not_advance_blkptr :
  let s1 := after FirstKey two_pages in
  let s2 := after NextKey s1 in
  result FirstKey two_pages = Ok (key "b", None) /\
  (pagbno s1, blkptr s1) = (0, 0) /\
  result getNext_body s1 = Ok Again /\
  blkptr (after getNext_body s1) = 0 /\
  pagbno (after getNext_body s1) = 0 /\
  result NextKey s1 = Ok (key "a", None) /\
  (pagbno s2, blkptr s2) = (0, 0) /\
  result (Fetch (key "b")) two_pages = Ok (big "q" 400, None) /\
  result (Fetch (key "b")) s2 = Ok (Nullitem, None).
Proof. vm_compute. repeat split. Qed.

(** ** Round trip in the presence of duplicates *)


(** ** Fetch does not write *)

Lemma reads_only_refl (s : DBM) : reads_only s s.
Proof. split; try reflexivity. exists []. split; [reflexivity|constructor]. Qed.

Lemma reads_only_trans (s1 s2 s3 : DBM) :
  reads_only s1 s2 -> reads_only s2 s3 -> reads_only s1 s3.
Proof.
  intros [a1 a2 a3 a4 a5 a6 a7 a8 [n1 [e1 f1]]] [b1 b2 b3 b4 b5 b6 b7 b8 [n2 [e2 f2]]].
  split; try congruence.
  exists (n2 ++ n1). split.
  - rewrite e2, e1, app_assoc. reflexivity.
  - apply Forall_app. split; assumption.
Qed.

Lemma quiet_ret {A} (a : A) : quiet (ret a).
Proof. intros s. apply reads_only_refl. Qed.

Lemma quiet_lift {A} (r : res A) : quiet (lift r).
Proof. intros s. apply reads_only_refl. Qed.

Lemma quiet_get {A} (proj : DBM -> A) : quiet (get proj).
Proof. intros s. apply reads_only_refl. Qed.

Lemma quiet_bind {A B} (m : M A) (f : A -> M B) :
  quiet m -> (forall a, quiet (f a)) -> quiet (bind m f).
Proof.
  intros Hm Hf s. unfold bind. specialize (Hm s).
  destruct (m s) as [[a| |] s1]; simpl in *; try assumption.
  eapply reads_only_trans; [exact Hm|apply Hf].
Qed.

Lemma quiet_modify (f : DBM -> DBM) :
  (forall s, reads_only s (f s)) -> quiet (modify f).
Proof. intros H s. apply H. Qed.

Lemma quiet_if {A} (b : bool) (m1 m2 : M A) :
  quiet m1 -> quiet m2 -> quiet (if b then m1 else m2).
Proof. destruct b; auto. Qed.

Ltac cache_update :=
  intros s; split; try reflexivity; exists []; split; [reflexivity|constructor].

Lemma cache_curbit x s : reads_only s (set_curbit x s).
Proof. revert s. cache_update. Qed.
Lemma cache_hmask x s : reads_only s (set_hmask x s).
Proof. revert s. cache_update. Qed.
Lemma cache_pag x s : reads_only s (set_pag x s).
Proof. revert s. cache_update. Qed.
Lemma cache_pagbno x s : reads_only s (set_pagbno x s).
Proof. revert s. cache_update. Qed.
Lemma cache_dirbuf x s : reads_only s (set_dirbuf x s).
Proof. revert s. cache_update. Qed.
Lemma cache_dirbno x s : reads_only s (set_dirbno x s).
Proof. revert s. cache_update. Qed.

Lemma quiet_next_fault : quiet next_fault.
Proof.
  intros s. unfold next_fault. destruct (faults s); simpl.
  - apply reads_only_refl.
  - revert s. cache_update.
Qed.

Lemma quiet_sys_seek f off : quiet (sys_seek f off).
Proof.
  unfold sys_seek. apply quiet_bind; [apply quiet_next_fault|].
  intros [|]; [apply quiet_ret|].
  destruct (off <? 0); [apply quiet_ret|].
  intros s. simpl. destruct f; simpl; split; try reflexivity;
    (eexists [_]; split; [reflexivity|]; repeat constructor).
Qed.

Lemma quiet_sys_read f n : quiet (sys_read f n).
Proof.
  unfold sys_read. apply quiet_bind; [apply quiet_next_fault|].
  intros [|]; [apply quiet_ret|].
  intros s.
  destruct (take n (drop (Z.to_nat (fpos (file_of f s))) (fdata (file_of f s))))
    as [|b got] eqn:E.
  - destruct n; apply reads_only_refl.
  - destruct f; simpl; split; try reflexivity;
      (eexists [_]; split; [reflexivity|]; repeat constructor).
Qed.

Lemma quiet_seekRead f off buf : quiet (seekRead f off buf).
Proof.
  unfold seekRead. apply quiet_bind; [apply quiet_sys_seek|].
  intros [e|]; [apply quiet_ret|].
  apply quiet_bind; [apply quiet_sys_read|].
  intros [got [[| | |]|]]; apply quiet_ret.
Qed.

Lemma quiet_load_dir dirb : quiet (load_dir dirb).
Proof.
  unfold load_dir. apply quiet_bind; [apply quiet_get|]. intros cached.
  apply quiet_if; [apply quiet_ret|].
  apply quiet_bind; [apply quiet_get|]. intros buf.
  apply quiet_bind; [apply quiet_seekRead|]. intros [buf' err].
  apply quiet_bind; [apply quiet_modify, cache_dirbuf|]. intros _.
  destruct err; [apply quiet_ret|].
  apply quiet_bind; [apply quiet_modify, cache_dirbno|]. intros _.
  apply quiet_ret.
Qed.

Lemma quiet_getDBit dbit : quiet (getDBit dbit).
Proof.
  unfold getDBit. apply quiet_bind; [apply quiet_load_dir|].
  intros [e|]; [apply quiet_ret|].
  apply quiet_bind.
  { unfold dir_cell. apply quiet_if; [apply quiet_lift|apply quiet_ret]. }
  intros [idx sh]. apply quiet_bind; [apply quiet_get|]. intros buf.
  apply quiet_ret.
Qed.

Lemma quiet_walk fuel hash dbit hbit : quiet (walk fuel hash dbit hbit).
Proof.
  revert dbit hbit. induction fuel as [|fuel IH]; intros dbit hbit; simpl.
  - apply quiet_bind; [apply quiet_get|]. intros mx.
    apply quiet_if; [apply quiet_lift|apply quiet_ret].
  - apply quiet_bind; [apply quiet_get|]. intros mx.
    apply quiet_if; [|apply quiet_ret].
    apply quiet_bind; [apply quiet_getDBit|]. intros split.
    apply quiet_if; [apply IH|apply quiet_ret].
Qed.

Lemma quiet_getPage hash : quiet (getPage hash).
Proof.
  unfold getPage. apply quiet_bind; [apply quiet_walk|]. intros [dbit hbit].
  apply quiet_bind; [apply quiet_modify, cache_curbit|]. intros _.
  apply quiet_bind; [apply quiet_lift|]. intros mask.
  apply quiet_bind; [apply quiet_modify, cache_hmask|]. intros _.
  apply quiet_bind; [apply quiet_get|]. intros cached.
  apply quiet_if; [apply quiet_ret|].
  apply quiet_bind; [apply quiet_get|]. intros buf.
  apply quiet_bind; [apply quiet_seekRead|]. intros [buf' err].
  apply quiet_bind; [apply quiet_modify, cache_pag|]. intros _.
  destruct err; [apply quiet_ret|].
  apply quiet_bind; [apply quiet_lift|]. intros ok.
  apply quiet_if; [|apply quiet_ret].
  apply quiet_bind; [apply quiet_modify, cache_pagbno|]. intros _.
  apply quiet_ret.
Qed.

Lemma writes_none (f : fileid) (evs : list event) :
  Forall (fun e => is_write f e = false) evs -> writes f evs = 0%nat.
Proof.
  unfold writes. induction 1 as [|e evs He _ IH]; [reflexivity|].
  rewrite filter_cons. destruct (decide (is_write f e = true)) as [Ht|_].
  - congruence.
  - exact IH.
Qed.

(** C10. Whatever the key and the state of the handle, and whatever the
    outcome (a value, an error or a panic), [Fetch] leaves the bytes of the
    page file and of the directory file as they were and performs no write:
    only the caches of the handle ([curbit], [hmask], the page buffer with
    [pagbno], the directory buffer with [dirbno]) and the file offsets can
    change. *)
Theorem Fetch_does_not_write (key : Datum) (s : DBM) :
  fdata (pagf (after (Fetch key) s)) = fdata (pagf s) /\
  fdata (dirf (after (Fetch key) s)) = fdata (dirf s) /\
  writes PagF (events (Fetch key) s) = 0%nat /\
  writes DirF (events (Fetch key) s) = 0%nat /\
  reads_only s (after (Fetch key) s).
Proof.
  assert (Hq : quiet (Fetch key)).
  { unfold Fetch. apply quiet_if; [apply quiet_ret|].
    apply quiet_bind; [apply quiet_getPage|]. intros [e|]; [apply quiet_ret|].
    apply quiet_bind; [apply quiet_get|]. intros p.
    apply quiet_bind; [apply quiet_lift|]. intros v. apply quiet_ret. }
  specialize (Hq s). fold (after (Fetch key) s) in Hq.
  pose proof Hq as [Hp Hd _ _ _ _ _ _ [new [Ht Hnew]]].
  assert (Hev : events (Fetch key) s = rev new).
  { unfold events. rewrite Ht, length_app.
    replace (length new + length (trace s) - length (trace s))%nat
      with (length new) by lia.
    rewrite take_app_length. reflexivity. }
  split; [exact Hp|]. split; [exact Hd|].
  split; [|split; [|exact Hq]].
  - rewrite Hev. apply writes_none, List.Forall_rev.
    eapply List.Forall_impl; [|exact Hnew]. intros e [_ He]. exact He.
  - rewrite Hev. apply writes_none, List.Forall_rev.
    eapply List.Forall_impl; [|exact Hnew]. intros e [He _]. exact He.
Qed.

(** Boolean comparisons in hypotheses, as propositions. *)
Ltac zbool :=
  repeat match goal with
    | H : (_ <? _) = true |- _ => apply Z.ltb_lt in H
    | H : (_ <? _) = false |- _ => apply Z.ltb_ge in H
    | H : (_ <=? _) = true |- _ => apply Z.leb_le in H
    | H : (_ <=? _) = false |- _ => apply Z.leb_gt in H
    | H : (_ =? _) = true |- _ => apply Z.eqb_eq in H
    | H : (_ =? _) = false |- _ => apply Z.eqb_neq in H
    end.


(** ** Reading and writing the page buffer *)

Lemma ino_range (p : Page) (i : Z) : 0 <= ino p i < 65536.
Proof.
  unfold ino.
  pose proof (byte_to_Z_range (byte_at p (i * 2))).
  pose proof (byte_to_Z_range (byte_at p (i * 2 + 1))). lia.
Qed.

Lemma byte_at_lookup (p : list byte) (i : Z) :
  0 <= i -> (Z.to_nat i < length p)%nat -> p !! Z.to_nat i = Some (byte_at p i).
Proof. intros _ H. unfold byte_at. apply list_lookup_lookup_total_lt, H. Qed.

Lemma length_put16 (p : Page) (i v : Z) : length (put16 p i v) = length p.
Proof. unfold put16. rewrite !length_insert. reflexivity. Qed.

Lemma length_blit (p : list byte) (off : Z) (src : list byte) :
  length (blit p off src) = length p.
Proof. apply length_inserts. Qed.

Lemma byte_at_put16_other (p : Page) (i v k : Z) :
  0 <= i -> 0 <= k -> k <> i * 2 -> k <> i * 2 + 1 ->
  byte_at (put16 p i v) k = byte_at p k.
Proof.
  intros Hi Hk H1 H2. unfold byte_at, put16.
  rewrite !list_lookup_total_insert_ne by lia. reflexivity.
Qed.

Lemma ino_put16_same (p : Page) (i v : Z) :
  0 <= i -> (Z.to_nat (i * 2 + 1) < length p)%nat -> 0 <= v < 65536 ->
  ino (put16 p i v) i = v.
Proof.
  intros Hi Hlen Hv. unfold ino, byte_at, put16.
  rewrite list_lookup_total_insert_ne by lia.
  rewrite list_lookup_total_insert_eq by lia.
  rewrite list_lookup_total_insert_eq by (rewrite length_insert; lia).
  rewrite !byte_to_of_Z.
  rewrite (Z.mod_small (v / 256)) by (split; [apply Z.div_pos; lia|apply Z.div_lt_upper_bound; lia]).
  pose proof (Z.div_mod v 256). lia.
Qed.

Lemma ino_put16_other (p : Page) (i j v : Z) :
  0 <= i -> 0 <= j -> i <> j -> ino (put16 p i v) j = ino p j.
Proof.
  intros Hi Hj Hne. unfold ino.
  rewrite !byte_at_put16_other by lia. reflexivity.
Qed.

Lemma byte_at_blit_in (p : list byte) (off : Z) (src : list byte) (k : Z) :
  0 <= off -> off <= k < off + Z.of_nat (length src) ->
  (Z.to_nat k < length p)%nat ->
  byte_at (blit p off src) k = byte_at src (k - off).
Proof.
  intros Hoff Hk Hlen. unfold byte_at, blit.
  rewrite list_lookup_total_inserts by lia.
  f_equal. lia.
Qed.

Lemma byte_at_blit_out (p : list byte) (off : Z) (src : list byte) (k : Z) :
  0 <= off -> 0 <= k -> k < off \/ off + Z.of_nat (length src) <= k ->
  byte_at (blit p off src) k = byte_at p k.
Proof.
  intros Hoff Hk Hout. unfold byte_at, blit.
  destruct (decide (k < off)).
  - rewrite list_lookup_total_inserts_lt by lia. reflexivity.
  - rewrite list_lookup_total_inserts_ge by lia. reflexivity.
Qed.

Lemma ino_blit (p : list byte) (off : Z) (src : list byte) (j : Z) :
  0 <= off -> 0 <= j ->
  j * 2 + 2 <= off \/ off + Z.of_nat (length src) <= j * 2 ->
  ino (blit p off src) j = ino p j.
Proof.
  intros Hoff Hj Hout. unfold ino.
  rewrite !byte_at_blit_out by lia. reflexivity.
Qed.

(** Two buffers of the same length that agree on [a..b) have the same
    bytes there. *)
Lemma sub_ext (p q : list byte) (a b : Z) :
  length p = length q -> 0 <= a ->
  (forall k, a <= k < b -> byte_at p k = byte_at q k) ->
  sub p a b = sub q a b.
Proof.
  intros Hlen Ha Hagree. unfold sub. apply list_eq. intros i.
  destruct (decide (i < Z.to_nat (b - a))%nat) as [Hi|Hi].
  - rewrite !lookup_take_lt, !lookup_drop by lia.
    destruct (decide (Z.to_nat a + i < length p)%nat) as [Hin|Hout].
    + rewrite !list_lookup_lookup_total_lt by lia.
      f_equal. specialize (Hagree (a + Z.of_nat i)). unfold byte_at in Hagree.
      replace (Z.to_nat (a + Z.of_nat i)) with (Z.to_nat a + i)%nat in Hagree by lia.
      apply Hagree. lia.
    + rewrite !lookup_ge_None_2 by lia. reflexivity.
  - rewrite !lookup_take_ge by lia. reflexivity.
Qed.

Lemma length_sub (p : list byte) (a b : Z) :
  0 <= a <= b -> b <= Z.of_nat (length p) -> Z.of_nat (length (sub p a b)) = b - a.
Proof.
  intros Hab Hb. unfold sub. rewrite length_take, length_drop. lia.
Qed.

Lemma sub_blit_same (p : list byte) (off : Z) (src : list byte) :
  0 <= off -> off + Z.of_nat (length src) <= Z.of_nat (length p) ->
  sub (blit p off src) off (off + Z.of_nat (length src)) = src.
Proof.
  intros Hoff Hfit. unfold sub. apply list_eq. intros i.
  replace (Z.to_nat (off + Z.of_nat (length src) - off)) with (length src) by lia.
  destruct (decide (i < length src)%nat) as [Hi|Hi].
  - rewrite lookup_take_lt, lookup_drop by lia. unfold blit.
    rewrite list_lookup_inserts by lia. f_equal. lia.
  - rewrite lookup_take_ge by lia. symmetry. apply lookup_ge_None_2. lia.
Qed.

Lemma sub_blit_other (p : list byte) (off : Z) (src : list byte) (a b : Z) :
  0 <= off -> 0 <= a ->
  b <= off \/ off + Z.of_nat (length src) <= a ->
  sub (blit p off src) a b = sub p a b.
Proof.
  intros Hoff Ha Hout. apply sub_ext.
  - apply length_blit.
  - exact Ha.
  - intros k Hk. apply byte_at_blit_out; lia.
Qed.

Lemma sub_put16_other (p : Page) (i v a b : Z) :
  0 <= i -> i * 2 + 2 <= a -> sub (put16 p i v) a b = sub p a b.
Proof.
  intros Hi Ha. apply sub_ext.
  - apply length_put16.
  - lia.
  - intros k Hk. apply byte_at_put16_other; lia.
Qed.

(** ** Well-formed pages *)

Lemma wf_page_iff (p : Page) :
  wf_page p = true <->
  length p = 1024%nat /\ Z.even (ino p 0) = true /\
  (ino p 0 + 1) * 2 <= top p (ino p 0) /\
  (forall j, 1 <= j <= ino p 0 -> top p j <= top p (j - 1)).
Proof.
  unfold wf_page. rewrite !andb_true_iff, Nat.eqb_eq, Z.leb_le, forallb_forall.
  change (Z.to_nat PBLKSIZ) with 1024%nat. change SHORTSIZE with 2.
  split.
  - intros [[[H1 H2] H3] H4]. repeat split; try assumption.
    intros j Hj. specialize (H4 (Z.to_nat j)).
    rewrite Z2Nat.id in H4 by lia. apply Z.leb_le, H4.
    apply in_seq. lia.
  - intros (H1 & H2 & H3 & H4). repeat split; try assumption.
    intros j Hj%in_seq. apply Z.leb_le, H4. lia.
Qed.

Section WellFormed.
Variable p : Page.
Hypothesis Hwf : wf_page p = true.


Lemma wf_length : length p = 1024%nat.
Proof. apply wf_page_iff in Hwf. tauto. Qed.

Lemma wf_even : exists m : nat, ino p 0 = 2 * Z.of_nat m.
Proof.
  apply wf_page_iff in Hwf. destruct Hwf as (_ & He & _).
  apply Z.even_spec in He. destruct He as [m Hm].
  pose proof (ino_range p 0). exists (Z.to_nat m). lia.
Qed.

Lemma wf_room : (ino p 0 + 1) * 2 <= top p (ino p 0).
Proof. apply wf_page_iff in Hwf. tauto. Qed.

Lemma wf_step (j : Z) : 1 <= j <= ino p 0 -> top p j <= top p (j - 1).
Proof. apply wf_page_iff in Hwf. destruct Hwf as (_ & _ & _ & H). apply H. Qed.

Lemma wf_mono (j j' : Z) : 0 <= j <= j' -> j' <= ino p 0 -> top p j' <= top p j.
Proof.
  intros Hj Hj'.
  replace j' with (j + Z.of_nat (Z.to_nat (j' - j))) in * by lia.
  induction (Z.to_nat (j' - j)) as [|d IH].
  - replace (j + Z.of_nat 0) with j by lia. lia.
  - pose proof (wf_step (j + Z.of_nat (S d))) as Hs.
    replace (j + Z.of_nat (S d) - 1) with (j + Z.of_nat d) in Hs by lia.
    lia.
Qed.

Lemma wf_top_le (j : Z) : 0 <= j <= ino p 0 -> top p j <= 1024.
Proof. intros Hj. apply (wf_mono 0 j); lia. Qed.

Lemma wf_top_ge (j : Z) : 0 <= j <= ino p 0 -> (ino p 0 + 1) * 2 <= top p j.
Proof.
  intros Hj. pose proof wf_room. pose proof (wf_mono j (ino p 0)). lia.
Qed.

Lemma wf_count : 0 <= ino p 0 <= 511.
Proof.
  pose proof (ino_range p 0). pose proof wf_room.
  pose proof (wf_top_le (ino p 0)). lia.
Qed.

Lemma wf_getN : getN p = Ok (ino p 0).
Proof. reflexivity. Qed.

Lemma wf_getIno (j : Z) : 0 <= j <= ino p 0 -> getIno p j = Ok (ino p j).
Proof.
  intros Hj. pose proof wf_count. unfold getIno.
  change PBLKSIZ with 1024.
  destruct (0 <=? j) eqn:E1; [|lia].
  destruct (j * 2 + 2 <=? 1024) eqn:E2; [reflexivity|lia].
Qed.

Lemma wf_free_end : free_end p (ino p 0) = Ok (top p (ino p 0)).
Proof.
  unfold free_end, top. pose proof wf_count.
  destruct (0 <? ino p 0) eqn:E.
  - rewrite wf_getIno by lia. destruct (ino p 0 =? 0) eqn:E0; [lia|reflexivity].
  - destruct (ino p 0 =? 0) eqn:E0; [reflexivity|lia].
Qed.

Lemma wf_FitPair (need : Z) :
  FitPair p need = Ok (need + 4 <=? top p (ino p 0) - (ino p 0 + 1) * 2).
Proof.
  unfold FitPair. rewrite wf_getN. simpl rbind. rewrite wf_free_end.
  reflexivity.
Qed.
End WellFormed.

Lemma getIno_ok (p : Page) (j : Z) : 0 <= j <= 511 -> getIno p j = Ok (ino p j).
Proof.
  intros Hj. unfold getIno. change PBLKSIZ with 1024.
  destruct (0 <=? j) eqn:E1; [|lia].
  destruct (j * 2 + 2 <=? 1024) eqn:E2; [reflexivity|lia].
Qed.

Lemma setIno_ok (p : Page) (j v : Z) :
  0 <= j <= 511 -> setIno p j v = Ok (put16 p j v).
Proof.
  intros Hj. unfold setIno. change PBLKSIZ with 1024.
  destruct (0 <=? j) eqn:E1; [|lia].
  destruct (j * 2 + 2 <=? 1024) eqn:E2; [reflexivity|lia].
Qed.

Lemma copy_at_ok (p : Page) (off : Z) (src : list byte) :
  0 <= off <= 1024 -> copy_at p off src = Ok (blit p off src).
Proof.
  intros H. unfold copy_at. change PBLKSIZ with 1024.
  destruct (0 <=? off) eqn:E1; [|lia].
  destruct (off <=? 1024) eqn:E2; [reflexivity|lia].
Qed.

Lemma slice_ok (p : Page) (a b : Z) :
  0 <= a <= b -> b <= 1024 -> slice p a b = Ok (sub p a b).
Proof.
  intros H1 H2. unfold slice. change PBLKSIZ with 1024.
  destruct (0 <=? a) eqn:E1; [|lia].
  destruct (a <=? b) eqn:E2; [|lia].
  destruct (b <=? 1024) eqn:E3; [reflexivity|lia].
Qed.

Lemma top_0 (p : Page) : top p 0 = 1024.
Proof. reflexivity. Qed.

Lemma top_pos (p : Page) (j : Z) : j <> 0 -> top p j = ino p j.
Proof. intros H. unfold top. destruct (j =? 0) eqn:E; [lia|reflexivity]. Qed.

(** Two pages with the same offsets and the same payload bytes hold the
    same pair at position [t]. *)
Lemma pair_at_ext (p q : Page) (t : nat) :
  length p = length q ->
  ino q (2 * Z.of_nat t + 1) = ino p (2 * Z.of_nat t + 1) ->
  ino q (2 * Z.of_nat t + 2) = ino p (2 * Z.of_nat t + 2) ->
  top q (2 * Z.of_nat t) = top p (2 * Z.of_nat t) ->
  (forall k, ino p (2 * Z.of_nat t + 2) <= k < top p (2 * Z.of_nat t) ->
             byte_at q k = byte_at p k) ->
  ino p (2 * Z.of_nat t + 2) <= ino p (2 * Z.of_nat t + 1) ->
  ino p (2 * Z.of_nat t + 1) <= top p (2 * Z.of_nat t) ->
  pair_at q t = pair_at p t.
Proof.
  intros Hlen H1 H2 H0 Hbytes Hle Hle'. unfold pair_at. cbv zeta.
  rewrite H1, H2, H0.
  pose proof (ino_range p (2 * Z.of_nat t + 1)).
  pose proof (ino_range p (2 * Z.of_nat t + 2)).
  f_equal; apply sub_ext; try lia; intros k Hk; apply Hbytes; lia.
Qed.

(** ** PutPair on a page with room *)

Lemma PutPair_fits (p : Page) (key val : Datum) :
  wf_page p = true ->
  Size key + Size val + 4 <= top p (ino p 0) - (ino p 0 + 1) * 2 ->
  exists p',
    PutPair p key val = Ok p' /\
    wf_page p' = true /\
    pairs_of p' = pairs_of p ++ [(bytes key, bytes val)] /\
    ino p' 0 = ino p 0 + 2 /\
    top p' (ino p' 0) = top p (ino p 0) - Size key - Size val.
Proof.
  intros Hwf Hfit.
  pose proof (wf_length p Hwf) as Hlen.
  pose proof (wf_count p Hwf) as Hn.
  pose proof (wf_top_le p Hwf (ino p 0) ltac:(lia)) as Htop.
  destruct (wf_even p Hwf) as [m Hm].
  set (n := ino p 0) in *.
  set (off0 := top p n) in *.
  set (off1 := off0 - Size key).
  set (off2 := off1 - Size val).
  assert (Hk : 0 <= Size key) by (unfold Size; lia).
  assert (Hv : 0 <= Size val) by (unfold Size; lia).
  set (p1 := blit p off1 (bytes key)).
  set (p2 := put16 p1 (n + 1) off1).
  set (p3 := blit p2 off2 (bytes val)).
  set (p4 := put16 p3 (n + 2) off2).
  set (p5 := put16 p4 0 (n + 2)).
  assert (Hrun : PutPair p key val = Ok p5).
  { unfold PutPair. rewrite wf_getN by assumption. simpl rbind.
    rewrite wf_free_end by assumption. simpl rbind. fold n off0 off1.
    rewrite copy_at_ok by lia. simpl rbind. fold p1.
    rewrite setIno_ok by lia. simpl rbind.
    rewrite (u16_small off1) by lia. fold p2 off2.
    rewrite copy_at_ok by lia. simpl rbind. fold p3.
    rewrite setIno_ok by lia. simpl rbind.
    rewrite (u16_small off2) by lia. fold p4.
    unfold setN. rewrite setIno_ok by lia.
    rewrite (u16_small (n + 2)) by lia. reflexivity. }
  assert (Hlen5 : length p5 = 1024%nat).
  { unfold p5, p4, p3, p2, p1.
    rewrite !length_put16, length_blit, length_put16, length_blit. exact Hlen. }
  assert (Hbyte : forall k, off0 <= k -> byte_at p5 k = byte_at p k).
  { intros k Hk0. unfold p5, p4, p3, p2, p1.
    rewrite !byte_at_put16_other by lia.
    rewrite byte_at_blit_out by (unfold Size in *; lia).
    rewrite byte_at_put16_other by lia.
    rewrite byte_at_blit_out by (unfold Size in *; lia). reflexivity. }
  assert (Hino : forall j, 1 <= j <= n -> ino p5 j = ino p j).
  { intros j Hj. unfold p5, p4, p3, p2, p1.
    rewrite !ino_put16_other by lia.
    rewrite ino_blit by lia.
    rewrite ino_put16_other by lia.
    rewrite ino_blit by lia. reflexivity. }
  assert (Hn5 : ino p5 0 = n + 2).
  { unfold p5. apply ino_put16_same; try lia.
    unfold p4, p3, p2, p1.
    rewrite length_put16, length_blit, length_put16, length_blit. lia. }
  assert (H1 : ino p5 (n + 1) = off1).
  { unfold p5, p4, p3.
    rewrite !ino_put16_other by lia.
    rewrite ino_blit by lia.
    unfold p2. apply ino_put16_same; try lia.
    unfold p1. rewrite length_blit. lia. }
  assert (H2 : ino p5 (n + 2) = off2).
  { unfold p5. rewrite ino_put16_other by lia.
    unfold p4. apply ino_put16_same; try lia.
    unfold p3, p2, p1. rewrite length_blit, length_put16, length_blit. lia. }
  assert (Htopj : forall j, 0 <= j <= n -> top p5 j = top p j).
  { intros j Hj. unfold top. destruct (j =? 0) eqn:E; [reflexivity|].
    apply Hino. lia. }
  assert (Hkey : sub p5 off1 off0 = bytes key).
  { unfold p5, p4. rewrite !sub_put16_other by lia.
    unfold p3. rewrite sub_blit_other by (unfold Size in *; lia).
    unfold p2. rewrite sub_put16_other by lia.
    unfold p1. replace off0 with (off1 + Z.of_nat (length (bytes key)))
      by (unfold off1, Size; lia).
    apply sub_blit_same; unfold Size in *; lia. }
  assert (Hval : sub p5 off2 off1 = bytes val).
  { unfold p5, p4. rewrite !sub_put16_other by lia.
    unfold p3. replace off1 with (off2 + Z.of_nat (length (bytes val)))
      by (unfold off2, Size; lia).
    apply sub_blit_same; [lia|].
    unfold p2, p1. rewrite length_put16, length_blit. unfold Size in *. lia. }
  exists p5. split; [exact Hrun|]. split; [|split; [|split]].
  - apply wf_page_iff. rewrite Hn5. split; [exact Hlen5|]. split; [|split].
    + apply Z.even_spec. exists (Z.of_nat m + 1). lia.
    + rewrite top_pos by lia. rewrite H2. lia.
    + intros j Hj.
      destruct (decide (j <= n)) as [Hle|Hgt].
      * rewrite !Htopj by lia. apply (wf_step p Hwf). lia.
      * destruct (decide (j = n + 1)) as [->|Hne].
        -- replace (n + 1 - 1) with n by lia.
           rewrite (Htopj n) by lia. rewrite (top_pos p5 (n + 1)) by lia.
           rewrite H1. unfold off1. fold off0. lia.
        -- replace j with (n + 2) by lia.
           replace (n + 2 - 1) with (n + 1) by lia.
           rewrite !top_pos by lia. rewrite H1, H2. unfold off2. lia.
  - unfold pairs_of. rewrite Hn5. fold n. rewrite Hm.
    replace (2 * Z.of_nat m + 2) with (Z.of_nat (S m) * 2) by lia.
    replace (2 * Z.of_nat m) with (Z.of_nat m * 2) by lia.
    rewrite !Z.div_mul, !Nat2Z.id by lia.
    rewrite seq_S, map_app. simpl. f_equal.
    + apply map_ext_in. intros t Ht%in_seq.
      assert (Hs := wf_step p Hwf (2 * Z.of_nat t + 1) ltac:(lia)).
      assert (Hs2 := wf_step p Hwf (2 * Z.of_nat t + 2) ltac:(lia)).
      replace (2 * Z.of_nat t + 1 - 1) with (2 * Z.of_nat t) in Hs by lia.
      replace (2 * Z.of_nat t + 2 - 1) with (2 * Z.of_nat t + 1) in Hs2 by lia.
      rewrite !top_pos in Hs2 by lia. rewrite (top_pos p (2 * Z.of_nat t + 1)) in Hs by lia.
      pose proof (wf_mono p Hwf (2 * Z.of_nat t + 2) n ltac:(lia) ltac:(lia)) as Hge.
      rewrite (top_pos p (2 * Z.of_nat t + 2)) in Hge by lia. fold off0 in Hge.
      apply pair_at_ext; try (apply Hino; lia); try lia.
      * apply Htopj. lia.
      * intros k Hk0. apply Hbyte. lia.
    + f_equal. unfold pair_at. cbv zeta. rewrite <- Hm.
      rewrite Htopj by lia. fold off0. rewrite H1, H2, Hkey, Hval. reflexivity.
  - exact Hn5.
  - rewrite Hn5. rewrite top_pos by lia. rewrite H2. unfold off2, off1. lia.
Qed.

(** ** The empty page *)

Lemma byte_at_zero_page (k : Z) : byte_at zero_page k = Byte.x00.
Proof.
  unfold byte_at, zero_page.
  destruct (decide (Z.to_nat k < Z.to_nat PBLKSIZ)%nat) as [H|H].
  - apply list_lookup_total_correct, lookup_replicate_2. exact H.
  - rewrite list_lookup_total_alt, lookup_ge_None_2; [reflexivity|].
    rewrite length_replicate. lia.
Qed.

Lemma ino_zero_page (j : Z) : ino zero_page j = 0.
Proof. unfold ino. rewrite !byte_at_zero_page. reflexivity. Qed.

Lemma wf_zero_page : wf_page zero_page = true.
Proof. vm_compute. reflexivity. Qed.

Lemma pairs_of_zero_page : pairs_of zero_page = [].
Proof. unfold pairs_of. rewrite ino_zero_page. reflexivity. Qed.

(** ** ChkPage accepts well-formed pages *)

Lemma ChkPage_loop_wf (p : Page) (d : nat) :
  wf_page p = true ->
  forall t : nat,
    2 * (Z.of_nat t + Z.of_nat d) = ino p 0 ->
    ChkPage_loop p (2 * Z.of_nat t + 1) (top p (2 * Z.of_nat t)) d = Ok true.
Proof.
  intros Hwf. pose proof (wf_count p Hwf) as Hn.
  induction d as [|d IH]; intros t Ht; [reflexivity|].
  simpl. rewrite !getIno_ok by lia. simpl rbind.
  assert (Hs := wf_step p Hwf (2 * Z.of_nat t + 1) ltac:(lia)).
  assert (Hs2 := wf_step p Hwf (2 * Z.of_nat t + 2) ltac:(lia)).
  replace (2 * Z.of_nat t + 1 - 1) with (2 * Z.of_nat t) in Hs by lia.
  replace (2 * Z.of_nat t + 2 - 1) with (2 * Z.of_nat t + 1) in Hs2 by lia.
  rewrite !top_pos in Hs2 by lia.
  rewrite (top_pos p (2 * Z.of_nat t + 1)) in Hs by lia.
  replace (2 * Z.of_nat t + 1 + 1) with (2 * Z.of_nat t + 2) by lia.
  destruct (top p (2 * Z.of_nat t) <? ino p (2 * Z.of_nat t + 1)) eqn:E1; [lia|].
  destruct (top p (2 * Z.of_nat t) <? ino p (2 * Z.of_nat t + 2)) eqn:E2; [lia|].
  destruct (ino p (2 * Z.of_nat t + 1) <? ino p (2 * Z.of_nat t + 2)) eqn:E3; [lia|].
  simpl.
  specialize (IH (S t) ltac:(lia)).
  replace (2 * Z.of_nat (S t) + 1) with (2 * Z.of_nat t + 1 + 2) in IH by lia.
  replace (2 * Z.of_nat (S t)) with (2 * Z.of_nat t + 2) in IH by lia.
  rewrite top_pos in IH by lia. exact IH.
Qed.

Lemma ChkPage_wf (p : Page) : wf_page p = true -> ChkPage p = Ok true.
Proof.
  intros Hwf. pose proof (wf_count p Hwf) as Hn.
  destruct (wf_even p Hwf) as [m Hm].
  unfold ChkPage. rewrite wf_getN by assumption. simpl rbind.
  change (PBLKSIZ / SHORTSIZE) with 512.
  destruct (ino p 0 <? 0) eqn:E1; [lia|].
  destruct (512 <? ino p 0) eqn:E2; [lia|]. simpl.
  destruct (0 <? ino p 0) eqn:E3; [|reflexivity].
  replace (Z.to_nat ((ino p 0 + 1) / 2)) with m.
  - apply (ChkPage_loop_wf p m Hwf 0%nat). lia.
  - rewrite Hm. replace (2 * Z.of_nat m + 1) with (1 + Z.of_nat m * 2) by lia.
    rewrite Z.div_add by lia. change (1 / 2) with 0. lia.
Qed.

(** ** SplPage *)

Section Split.
Variable cur : Page.
Variable sbit : Z.
Hypothesis Hwf : wf_page cur = true.

Lemma SplPage_loop_wf (d : nat) :
  forall (t fuel : nat) (p newPag : Page),
    2 * (Z.of_nat t + Z.of_nat d) = ino cur 0 ->
    (d <= fuel)%nat ->
    wf_page p = true -> wf_page newPag = true ->
    ino p 0 <= 2 * Z.of_nat t -> ino newPag 0 <= 2 * Z.of_nat t ->
    top cur (2 * Z.of_nat t) <= top p (ino p 0) ->
    top cur (2 * Z.of_nat t) <= top newPag (ino newPag 0) ->
    exists p' newPag',
      SplPage_loop fuel cur p newPag sbit (2 * Z.of_nat t + 1)
        (top cur (2 * Z.of_nat t)) (2 * Z.of_nat d) = Ok (p', newPag') /\
      wf_page p' = true /\ wf_page newPag' = true /\
      pairs_of p' = pairs_of p
        ++ filter (fun kv => goes_to_new sbit kv = false)
             (map (pair_at cur) (seq t d)) /\
      pairs_of newPag' = pairs_of newPag
        ++ filter (fun kv => goes_to_new sbit kv = true)
             (map (pair_at cur) (seq t d)).
Proof.
  pose proof (wf_count cur Hwf) as Hn.
  induction d as [|d IH]; intros t fuel p newPag Ht Hfuel Hp Hnew Hpn Hnn Hpt Hnt.
  - exists p, newPag. simpl. rewrite !app_nil_r.
    destruct fuel; simpl; repeat split; assumption.
  - destruct fuel as [|fuel]; [lia|].
    assert (Hs := wf_step cur Hwf (2 * Z.of_nat t + 1) ltac:(lia)).
    assert (Hs2 := wf_step cur Hwf (2 * Z.of_nat t + 2) ltac:(lia)).
    replace (2 * Z.of_nat t + 1 - 1) with (2 * Z.of_nat t) in Hs by lia.
    replace (2 * Z.of_nat t + 2 - 1) with (2 * Z.of_nat t + 1) in Hs2 by lia.
    rewrite !top_pos in Hs2 by lia.
    rewrite (top_pos cur (2 * Z.of_nat t + 1)) in Hs by lia.
    pose proof (wf_top_le cur Hwf (2 * Z.of_nat t) ltac:(lia)) as Hle.
    pose proof (wf_top_ge cur Hwf (2 * Z.of_nat t + 2) ltac:(lia)) as Hge.
    rewrite top_pos in Hge by lia.
    pose proof (ino_range cur (2 * Z.of_nat t + 1)) as Hr1.
    pose proof (ino_range cur (2 * Z.of_nat t + 2)) as Hr2.
    pose proof (wf_length cur Hwf) as Hlen.
    set (off := top cur (2 * Z.of_nat t)) in *.
    set (keyOff := ino cur (2 * Z.of_nat t + 1)) in *.
    set (valOff := ino cur (2 * Z.of_nat t + 2)) in *.
    assert (Hpair : pair_at cur t = (sub cur keyOff off, sub cur valOff keyOff))
      by reflexivity.
    assert (Hsk : Size (Some (sub cur keyOff off)) = off - keyOff)
      by (unfold Size; simpl; apply length_sub; lia).
    assert (Hsv : Size (Some (sub cur valOff keyOff)) = keyOff - valOff)
      by (unfold Size; simpl; apply length_sub; lia).
    cbn [SplPage_loop].
    destruct (0 <? 2 * Z.of_nat (S d)) eqn:E; [|zbool; lia].
    rewrite (getIno_ok cur (2 * Z.of_nat t + 1)) by lia. simpl rbind.
    replace (2 * Z.of_nat t + 1 + 1) with (2 * Z.of_nat t + 2) by lia.
    rewrite (getIno_ok cur (2 * Z.of_nat t + 2)) by lia. simpl rbind.
    fold keyOff valOff.
    rewrite (slice_ok cur keyOff off) by lia. simpl rbind.
    rewrite (slice_ok cur valOff keyOff) by lia. simpl rbind.
    replace (u16 (2 * Z.of_nat (S d) - 2)) with (2 * Z.of_nat d)
      by (rewrite u16_small; lia).
    replace (2 * Z.of_nat t + 1 + 2) with (2 * Z.of_nat (S t) + 1) by lia.
    assert (Hoff' : valOff = top cur (2 * Z.of_nat (S t))).
    { rewrite top_pos by lia. unfold valOff. f_equal. lia. }
    change (negb (Z.land (exHash (Some (sub cur keyOff off))) sbit =? 0))
      with (goes_to_new sbit (sub cur keyOff off, sub cur valOff keyOff)).
    cbn [seq map]. rewrite !filter_cons, Hpair.
    destruct (goes_to_new sbit (sub cur keyOff off, sub cur valOff keyOff)) eqn:Eg.
    + destruct (PutPair_fits newPag (Some (sub cur keyOff off))
                  (Some (sub cur valOff keyOff)) Hnew) as (q & Hq & Hqwf & Hqp & Hqn & Hqt).
      { pose proof (wf_count newPag Hnew). rewrite Hsk, Hsv. lia. }
      rewrite Hq. simpl rbind.
      destruct (IH (S t) fuel p q) as (p' & n' & Hrun & Hw1 & Hw2 & Hp1 & Hp2);
        try assumption; try lia;
        try (rewrite <- ?Hoff', ?Hqt, ?Hsk, ?Hsv; lia).
      rewrite <- Hoff' in Hrun.
      exists p', n'. split; [exact Hrun|]. split; [exact Hw1|]. split; [exact Hw2|].
      split.
      * rewrite Hp1. destruct (decide (true = false)) as [?|_]; [discriminate|].
        reflexivity.
      * rewrite Hp2, Hqp. destruct (decide (true = true)) as [_|?]; [|congruence].
        simpl. rewrite <- app_assoc. reflexivity.
    + destruct (PutPair_fits p (Some (sub cur keyOff off))
                  (Some (sub cur valOff keyOff)) Hp) as (q & Hq & Hqwf & Hqp & Hqn & Hqt).
      { pose proof (wf_count p Hp). rewrite Hsk, Hsv. lia. }
      rewrite Hq. simpl rbind.
      destruct (IH (S t) fuel q newPag) as (p' & n' & Hrun & Hw1 & Hw2 & Hp1 & Hp2);
        try assumption; try lia;
        try (rewrite <- ?Hoff', ?Hqt, ?Hsk, ?Hsv; lia).
      rewrite <- Hoff' in Hrun.
      exists p', n'. split; [exact Hrun|]. split; [exact Hw1|]. split; [exact Hw2|].
      split.
      * rewrite Hp1, Hqp. destruct (decide (false = false)) as [_|?]; [|congruence].
        simpl. rewrite <- app_assoc. reflexivity.
      * rewrite Hp2. destruct (decide (false = true)) as [?|_]; [discriminate|].
        reflexivity.
Qed.
End Split.

Lemma filter_partition {A} (f : A -> bool) (l : list A) :
  filter (fun x => f x = false) l ++ filter (fun x => f x = true) l ≡ₚ l.
Proof.
  induction l as [|x l IH]; [reflexivity|].
  rewrite !filter_cons. destruct (f x) eqn:E.
  - destruct (decide (true = false)) as [?|_]; [discriminate|].
    destruct (decide (true = true)) as [_|?]; [|congruence].
    rewrite <- Permutation_middle. constructor. exact IH.
  - destruct (decide (false = false)) as [_|?]; [|congruence].
    destruct (decide (false = true)) as [?|_]; [discriminate|].
    simpl. constructor. exact IH.
Qed.

(** C7. On a well-formed page [SplPage] returns (it does not panic), the
    pairs whose key hashes to a value with [hash & sbit != 0] are put into
    the new page and the other pairs back into the emptied page, both in the
    order of the slots they came from; both pages pass [ChkPage] and
    together they hold exactly the pairs of the original page. *)
Theorem SplPage_redistributes (p : Page) (sbit : Z) :
  wf_page p = true ->
  exists p' newPag,
    SplPage p sbit = Ok (p', newPag) /\
    pairs_of newPag = filter (fun kv => goes_to_new sbit kv = true) (pairs_of p) /\
    pairs_of p' = filter (fun kv => goes_to_new sbit kv = false) (pairs_of p) /\
    ChkPage p' = Ok true /\ ChkPage newPag = Ok true /\
    wf_page p' = true /\ wf_page newPag = true /\
    pairs_of p' ++ pairs_of newPag ≡ₚ pairs_of p.
Proof.
  intros Hwf. destruct (wf_even p Hwf) as [m Hm].
  pose proof (wf_count p Hwf) as Hn.
  pose proof (wf_top_le p Hwf 0 ltac:(lia)) as Htop.
  destruct (SplPage_loop_wf p sbit Hwf m 0%nat SplPage_fuel zero_page zero_page)
    as (p' & newPag & Hrun & Hw1 & Hw2 & Hp1 & Hp2).
  { lia. }
  { unfold SplPage_fuel. lia. }
  { apply wf_zero_page. }
  { apply wf_zero_page. }
  { rewrite ino_zero_page. lia. }
  { rewrite ino_zero_page. lia. }
  { rewrite ino_zero_page. change (top zero_page 0) with 1024. exact Htop. }
  { rewrite ino_zero_page. change (top zero_page 0) with 1024. exact Htop. }
  exists p', newPag.
  rewrite pairs_of_zero_page in Hp1, Hp2. simpl in Hp1, Hp2.
  assert (Hall : map (pair_at p) (seq 0 m) = pairs_of p).
  { unfold pairs_of. rewrite Hm.
    replace (2 * Z.of_nat m) with (Z.of_nat m * 2) by lia.
    rewrite Z.div_mul, Nat2Z.id by lia. reflexivity. }
  rewrite Hall in Hp1, Hp2.
  split.
  { unfold SplPage. rewrite getIno_ok by lia. cbn [rbind].
    rewrite Hm.
    change (2 * Z.of_nat 0 + 1) with 1 in Hrun.
    change (top p (2 * Z.of_nat 0)) with PBLKSIZ in Hrun.
    exact Hrun. }
  split; [exact Hp2|]. split; [exact Hp1|].
  split; [apply ChkPage_wf, Hw1|]. split; [apply ChkPage_wf, Hw2|].
  split; [exact Hw1|]. split; [exact Hw2|].
  rewrite Hp1, Hp2. apply filter_partition.
Qed.

(** A witness: the page holding "a", "b", "c" split on bit 0. *)
Lemma SplPage_redistributes_witness :
  exists p, wf_page p = true /\
  exists p' newPag,
    SplPage p 1 = Ok (p', newPag) /\
    pairs_of newPag = filter (fun kv => goes_to_new 1 kv = true) (pairs_of p) /\
    pairs_of p' = filter (fun kv => goes_to_new 1 kv = false) (pairs_of p) /\
    ChkPage p' = Ok true /\ ChkPage newPag = Ok true /\
    wf_page p' = true /\ wf_page newPag = true /\
    pairs_of p' ++ pairs_of newPag ≡ₚ pairs_of p.
Proof.
  exists (pag (store_all 0 [kv "a" "1"; kv "b" "2"; kv "c" "3"] fresh)).
  split; [vm_compute; reflexivity|].
  apply SplPage_redistributes. vm_compute. reflexivity.
Defined.

(** ** The order of writes in a pass of makeRoom *)

Lemma events_of_trace {A} (m : M A) (s : DBM) (new : list event) :
  trace (after m s) = new ++ trace s -> events m s = rev new.
Proof.
  intros Ht. unfold events. rewrite Ht, length_app.
  replace (length new + length (trace s) - length (trace s))%nat
    with (length new) by lia.
  rewrite take_app_length. reflexivity.
Qed.

Lemma writes_app (f : fileid) (a b : list event) :
  writes f (a ++ b) = (writes f a + writes f b)%nat.
Proof. unfold writes. rewrite list.filter_app, length_app. reflexivity. Qed.

Lemma writes_other_file (f g : fileid) (evs : list event) :
  f <> g -> Forall (on_file g) evs -> writes f evs = 0%nat.
Proof.
  intros Hne Hall. apply writes_none.
  eapply List.Forall_impl; [|exact Hall].
  intros [h o|h o n|h o d] He; simpl in *; try reflexivity.
  subst h. apply bool_decide_eq_false. exact Hne.
Qed.

(** Events on the directory file that include a write hide every later
    write to the page file. *)
Lemma page_writes_hidden (a b : list event) :
  Forall (on_file DirF) a -> (0 < writes DirF a)%nat ->
  page_writes_before_dbit (a ++ b) = [].
Proof.
  induction 1 as [|e a He Ha IH]; intros Hw.
  - unfold writes in Hw. simpl in Hw. lia.
  - destruct e as [h o|h o n|h o d]; simpl in He; subst; simpl.
    + apply IH. exact Hw.
    + apply IH. exact Hw.
    + reflexivity.
Qed.

(** What [next_fault], [sys_seek] and [sys_write] do to the log. *)
Lemma sys_seek_run (f : fileid) (off : Z) (s : DBM) :
  (exists e, result (sys_seek f off) s = Ok (Some e) /\
             trace (after (sys_seek f off) s) = trace s) \/
  (result (sys_seek f off) s = Ok None /\
   trace (after (sys_seek f off) s) = EvSeek f off :: trace s).
Proof.
  unfold sys_seek, result, after, bind, next_fault.
  destruct (faults s) as [|[|] rest]; simpl.
  - destruct (off <? 0); simpl; [left; eauto|right].
    destruct f; simpl; auto.
  - left. eauto.
  - destruct (off <? 0); simpl; [left; eauto|right].
    destruct f; simpl; auto.
Qed.

Lemma sys_write_run (f : fileid) (data : list byte) (s : DBM) :
  (exists e, result (sys_write f data) s = Ok (Some e) /\
             trace (after (sys_write f data) s) = trace s) \/
  (result (sys_write f data) s = Ok None /\
   trace (after (sys_write f data) s)
   = EvWrite f (fpos (file_of f s)) data :: trace s).
Proof.
  unfold sys_write, result, after, bind, next_fault.
  destruct (faults s) as [|[|] rest]; simpl.
  - destruct f; simpl; destruct (fwritable _); simpl; eauto.
  - left. eauto.
  - destruct f; simpl; destruct (fwritable _); simpl; eauto.
Qed.

Lemma sys_seek_pos (f : fileid) (off : Z) (s : DBM) :
  result (sys_seek f off) s = Ok None ->
  fpos (file_of f (after (sys_seek f off) s)) = off.
Proof.
  unfold sys_seek, result, after, bind, next_fault.
  destruct (faults s) as [|[|] rest]; simpl; try discriminate;
    destruct (off <? 0); simpl; try discriminate; destruct f; reflexivity.
Qed.

(** [seekWrite] either fails, logging no write, or logs the seek and the
    write of the whole buffer at the offset asked for. *)
Lemma seekWrite_run (f : fileid) (off : Z) (buf : list byte) (s : DBM) :
  (exists e new,
      result (seekWrite f off buf) s = Ok (Some e) /\
      trace (after (seekWrite f off buf) s) = new ++ trace s /\
      Forall not_a_write new /\ Forall (on_file f) new) \/
  (result (seekWrite f off buf) s = Ok None /\
   trace (after (seekWrite f off buf) s)
   = EvWrite f off buf :: EvSeek f off :: trace s).
Proof.
  pose proof (sys_seek_run f off s) as Hseek.
  pose proof (sys_seek_pos f off s) as Hpos.
  unfold seekWrite, result, after, bind in *.
  destruct (sys_seek f off s) as [[[e|]| |] s1] eqn:E1; simpl in *.
  - left. destruct Hseek as [(e' & _ & Ht)|[Hr _]]; [|discriminate].
    exists (IOError OpSeek f e), []. rewrite Ht. repeat split; constructor.
  - destruct Hseek as [(e' & Hr & _)|[_ Ht]]; [discriminate|].
    pose proof (sys_write_run f buf s1) as Hw.
    unfold result, after in Hw.
    destruct (sys_write f buf s1) as [[[e|]| |] s2] eqn:E2; simpl in *.
    + left. destruct Hw as [(e' & _ & Ht2)|[Hr _]]; [|discriminate].
      exists (IOError OpWrite f e), [EvSeek f off]. rewrite Ht2, Ht.
      repeat split; repeat constructor.
    + right. destruct Hw as [(e' & Hr & _)|[_ Ht2]]; [discriminate|].
      rewrite Ht2, Ht, Hpos by reflexivity. split; reflexivity.
    + destruct Hw as [(e' & Hr & _)|[Hr _]]; discriminate.
    + destruct Hw as [(e' & Hr & _)|[Hr _]]; discriminate.
  - destruct Hseek as [(e' & Hr & _)|[Hr _]]; discriminate.
  - destruct Hseek as [(e' & Hr & _)|[Hr _]]; discriminate.
Qed.


Lemma emits_nothing {A} (P : event -> Prop) (m : M A) :
  (forall s, trace (m s).2 = trace s) -> emits P m.
Proof. intros H s. exists []. split; [apply H|constructor]. Qed.

Lemma emits_bind {A B} (P : event -> Prop) (m : M A) (f : A -> M B) :
  emits P m -> (forall a, emits P (f a)) -> emits P (bind m f).
Proof.
  intros Hm Hf s. unfold bind. destruct (Hm s) as (n1 & Ht1 & Hp1).
  destruct (m s) as [[a| |] s1]; simpl in *; eauto.
  destruct (Hf a s1) as (n2 & Ht2 & Hp2).
  exists (n2 ++ n1). rewrite Ht2, Ht1, app_assoc. split; [reflexivity|].
  apply Forall_app. split; assumption.
Qed.

Lemma emits_if {A} (P : event -> Prop) (b : bool) (m1 m2 : M A) :
  emits P m1 -> emits P m2 -> emits P (if b then m1 else m2).
Proof. destruct b; auto. Qed.

Lemma emits_weaken {A} (P Q : event -> Prop) (m : M A) :
  (forall e, P e -> Q e) -> emits P m -> emits Q m.
Proof.
  intros HPQ Hm s. destruct (Hm s) as (new & Ht & Hp).
  exists new. split; [exact Ht|]. eapply List.Forall_impl; eauto.
Qed.


Lemma emits_next_fault (P : event -> Prop) : emits P next_fault.
Proof.
  apply emits_nothing. intros s. unfold next_fault.
  destruct (faults s); reflexivity.
Qed.

Lemma emits_sys_seek (f : fileid) (off : Z) : emits (reads_on f) (sys_seek f off).
Proof.
  unfold sys_seek. apply emits_bind; [apply emits_next_fault|].
  intros [|]; [apply emits_nothing; reflexivity|].
  destruct (off <? 0); [apply emits_nothing; reflexivity|].
  intros s. eexists [_]. split; [destruct f; reflexivity|].
  repeat constructor.
Qed.

Lemma emits_sys_read (f : fileid) (n : nat) : emits (reads_on f) (sys_read f n).
Proof.
  unfold sys_read. apply emits_bind; [apply emits_next_fault|].
  intros [|]; [apply emits_nothing; reflexivity|].
  intros s.
  destruct (take n (drop (Z.to_nat (fpos (file_of f s))) (fdata (file_of f s))))
    as [|b got] eqn:E.
  - exists []. split; [destruct n; reflexivity|constructor].
  - eexists [_]. split; [destruct f; reflexivity|]. repeat constructor.
Qed.

Lemma emits_seekRead (f : fileid) (off : Z) (buf : list byte) :
  emits (reads_on f) (seekRead f off buf).
Proof.
  unfold seekRead. apply emits_bind; [apply emits_sys_seek|].
  intros [e|]; [apply emits_nothing; reflexivity|].
  apply emits_bind; [apply emits_sys_read|].
  intros [got [[| | |]|]]; apply emits_nothing; reflexivity.
Qed.

Lemma emits_load_dir (dirb : Z) : emits (reads_on DirF) (load_dir dirb).
Proof.
  unfold load_dir. apply emits_bind; [apply emits_nothing; reflexivity|].
  intros cached. apply emits_if; [apply emits_nothing; reflexivity|].
  apply emits_bind; [apply emits_nothing; reflexivity|]. intros buf.
  apply emits_bind; [apply emits_seekRead|]. intros [buf' err].
  apply emits_bind; [apply emits_nothing; reflexivity|]. intros _.
  destruct err; [apply emits_nothing; reflexivity|].
  apply emits_bind; [|intros _]; apply emits_nothing; reflexivity.
Qed.

Lemma emits_seekWrite (f : fileid) (off : Z) (buf : list byte) :
  emits (on_file f) (seekWrite f off buf).
Proof.
  intros s. destruct (seekWrite_run f off buf s) as [(e & new & _ & Ht & _ & Hf)|[_ Ht]].
  - exists new. split; assumption.
  - eexists [_; _]. split; [exact Ht|]. repeat constructor.
Qed.

Lemma emits_write_page : emits (on_file PagF) write_page.
Proof.
  unfold write_page. apply emits_bind; [apply emits_nothing; reflexivity|].
  intros b. apply emits_bind; [apply emits_nothing; reflexivity|].
  intros buf. apply emits_seekWrite.
Qed.

(** [setDBit] touches the directory file only, and it has written the
    directory block exactly when it returns without error. *)
Lemma setDBit_run (dbit : Z) (s : DBM) :
  exists new,
    trace (after (setDBit dbit) s) = new ++ trace s /\
    Forall (on_file DirF) new /\
    (result (setDBit dbit) s = Ok None -> (0 < writes DirF (rev new))%nat) /\
    (result (setDBit dbit) s <> Ok None -> writes DirF (rev new) = 0%nat).
Proof.
  unfold result, after.
  destruct (setDBit dbit s) as [r s'] eqn:E. simpl. revert E.
  unfold setDBit.
  set (c := Z.quot dbit BITSIZ). set (dirb := Z.quot c DBLKSIZ).
  unfold bind at 1.
  destruct (emits_load_dir dirb s) as (n1 & Ht1 & Hp1).
  assert (Hq1 : writes DirF (rev n1) = 0%nat).
  { apply writes_none, List.Forall_rev.
    eapply List.Forall_impl; [|exact Hp1]. intros e [_ [He _]]. exact He. }
  assert (Hd1 : Forall (on_file DirF) n1).
  { eapply List.Forall_impl; [|exact Hp1]. intros e [He _]. exact He. }
  destruct (load_dir dirb s) as [r1 s1]. simpl in Ht1.
  assert (Hfail : r <> Ok None -> s' = s1 ->
            exists new, trace s' = new ++ trace s /\ Forall (on_file DirF) new /\
              (r = Ok None -> (0 < writes DirF (rev new))%nat) /\
              (r <> Ok None -> writes DirF (rev new) = 0%nat)).
  { intros Hr ->. exists n1. split; [exact Ht1|]. split; [exact Hd1|].
    split; [intros Heq; contradiction|intros _; exact Hq1]. }
  destruct r1 as [[e|]| |]; simpl;
    try (intros [= <- <-]; apply Hfail; [discriminate|reflexivity]).
  unfold dir_cell.
  destruct ((Z.rem c DBLKSIZ <? 0) || (Z.rem dbit BITSIZ <? 0)); simpl;
    try (intros [= <- <-]; apply Hfail; [discriminate|reflexivity]).
  unfold bind, get, modify, ret. simpl.
  destruct (maxbno s1 <=? dbit); simpl;
  match goal with
  | |- context [seekWrite DirF ?o ?b ?st] =>
      assert (Hst : trace st = trace s1) by reflexivity;
      destruct (seekWrite_run DirF o b st) as [(e & n2 & Hr & Ht2 & Hw2 & Hf2)|[Hr Ht2]];
      unfold result, after in Hr, Ht2;
      destruct (seekWrite DirF o b st) as [r2 s2]
  end; simpl in *; subst r2; intros [= <- <-].
  - exists (n2 ++ n1). rewrite Ht2, Ht1, app_assoc.
    split; [reflexivity|]. split; [apply Forall_app; split; assumption|].
    split; [discriminate|]. intros _.
    rewrite rev_app_distr, writes_app, Hq1.
    rewrite (writes_none DirF (rev n2)); [reflexivity|].
    apply List.Forall_rev. eapply List.Forall_impl; [|exact Hw2].
    intros ev [He _]. exact He.
  - eexists (_ :: _ :: n1). rewrite Ht2, Ht1.
    split; [reflexivity|]. split; [repeat constructor; assumption|].
    split; [|intros Hne; contradiction].
    intros _. simpl rev. rewrite !writes_app. unfold writes at 2 3. simpl. lia.
  - exists (n2 ++ n1). rewrite Ht2, Ht1, app_assoc.
    split; [reflexivity|]. split; [apply Forall_app; split; assumption|].
    split; [discriminate|]. intros _.
    rewrite rev_app_distr, writes_app, Hq1.
    rewrite (writes_none DirF (rev n2)); [reflexivity|].
    apply List.Forall_rev. eapply List.Forall_impl; [|exact Hw2].
    intros ev [He _]. exact He.
  - eexists (_ :: _ :: n1). rewrite Ht2, Ht1.
    split; [reflexivity|]. split; [repeat constructor; assumption|].
    split; [|intros Hne; contradiction].
    intros _. simpl rev. rewrite !writes_app. unfold writes at 2 3. simpl. lia.
Qed.

(** The second half of a pass logs events on the directory file, then
    events on the page file; and the latter only after a directory write. *)
Lemma makeRoom_mark_run (hm : Z) (moves : bool) (need : Z) (s : DBM) :
  exists d p,
    trace (after (makeRoom_mark hm moves need) s) = p ++ d ++ trace s /\
    Forall (on_file DirF) d /\ Forall (on_file PagF) p /\
    ((0 < writes DirF (rev d))%nat \/ (writes DirF (rev d) = 0%nat /\ p = [])).
Proof.
  unfold after.
  destruct (makeRoom_mark hm moves need s) as [r s'] eqn:E. simpl. revert E.
  unfold makeRoom_mark. unfold bind at 1. unfold get at 1. unfold bind at 1.
  destruct (setDBit_run (curbit s) s) as (d & Ht & Hd & Hok & Hbad).
  unfold result, after in *.
  destruct (setDBit (curbit s) s) as [r1 s1]. simpl in *.
  assert (Hfail : r1 <> Ok None -> s' = s1 ->
            exists d p, trace s' = p ++ d ++ trace s /\
              Forall (on_file DirF) d /\ Forall (on_file PagF) p /\
              ((0 < writes DirF (rev d))%nat \/ (writes DirF (rev d) = 0%nat /\ p = []))).
  { intros Hr ->. exists d, []. split; [exact Ht|]. split; [exact Hd|].
    split; [constructor|]. right. split; [apply Hbad, Hr|reflexivity]. }
  assert (Hdone : r1 = Ok None -> forall p, trace s' = p ++ trace s1 ->
            Forall (on_file PagF) p ->
            exists d p, trace s' = p ++ d ++ trace s /\
              Forall (on_file DirF) d /\ Forall (on_file PagF) p /\
              ((0 < writes DirF (rev d))%nat \/ (writes DirF (rev d) = 0%nat /\ p = []))).
  { intros Hr p Hp Hall. exists d, p. rewrite Hp, Ht.
    split; [reflexivity|]. split; [exact Hd|]. split; [exact Hall|].
    left. apply Hok, Hr. }
  destruct r1 as [[e|]| |];
    try (intros [= <- <-]; apply Hfail; [discriminate|reflexivity]).
  unfold bind, get, lift.
  destruct (FitPair (pag s1) need) as [[|]| |];
    try (intros [= <- <-]; apply (Hdone eq_refl []); [reflexivity|constructor]).
  unfold modify. simpl.
  match goal with
  | |- context [write_page ?st] =>
      destruct (emits_write_page st) as (p & Hp & Hall);
      destruct (write_page st) as [[[e|]| |] s2]
  end; simpl in *; intros [= <- <-]; apply (Hdone eq_refl p); assumption.
Qed.

(** The events between two states of one run. *)
Lemma take_new_events (old new : list event) :
  rev (take (length (new ++ old) - length old) (new ++ old)) = rev new.
Proof.
  rewrite length_app.
  replace (length new + length old - length old)%nat with (length new) by lia.
  rewrite take_app_length. reflexivity.
Qed.

(** C4, as the code has it.  In a pass of [makeRoom] that reaches the write
    of the directory block, exactly one page has been written to the page
    file before it: the old page (the receiver of the split) at [pagbno]
    when the incoming pair moves to the new page, and the new page at
    [newp] when the incoming pair stays; in the second case the old page is
    not written before the directory bit is set. *)
Theorem makeRoom_write_order (hash need : Z) (s : DBM) :
  (0 < writes DirF (events (makeRoom_body hash need) s))%nat ->
  exists old new,
    SplPage (pag s) (i64 (hmask s + 1)) = Ok (old, new) /\
    page_writes_before_dbit (events (makeRoom_body hash need) s)
    = [if negb (Z.land hash (i64 (hmask s + 1)) =? 0)
       then (offPag (pagbno s), old)
       else (offPag (Z.lor (Z.land hash (hmask s)) (i64 (hmask s + 1))), new)].
Proof.
  unfold events, after.
  destruct (makeRoom_body hash need s) as [r s'] eqn:E. simpl.
  assert (Hnone : forall n, trace s' = n ++ trace s -> Forall not_a_write n ->
            (0 < writes DirF (rev (take (length (trace s') - length (trace s))
                                     (trace s'))))%nat -> False).
  { intros n Ht Hn Hw. rewrite Ht, take_new_events in Hw.
    rewrite writes_none in Hw; [lia|]. apply List.Forall_rev.
    eapply List.Forall_impl; [|exact Hn]. intros e [He _]. exact He. }
  assert (Hshape : forall (off : Z) (data : list byte) d p,
            trace s' = p ++ d ++ EvWrite PagF off data :: EvSeek PagF off :: trace s ->
            Forall (on_file DirF) d -> Forall (on_file PagF) p ->
            (0 < writes DirF (rev d))%nat \/ (writes DirF (rev d) = 0%nat /\ p = []) ->
            (0 < writes DirF (rev (take (length (trace s') - length (trace s))
                                     (trace s'))))%nat ->
            page_writes_before_dbit
              (rev (take (length (trace s') - length (trace s)) (trace s')))
            = [(off, data)]).
  { intros off data d p Ht Hd Hp Hcase Hw.
    assert (Ht' : trace s'
                  = (p ++ d ++ [EvWrite PagF off data; EvSeek PagF off]) ++ trace s)
      by (rewrite Ht, <- !app_assoc; reflexivity).
    rewrite Ht', take_new_events in Hw |- *.
    rewrite !rev_app_distr in Hw |- *. simpl rev in Hw |- *.
    simpl. f_equal.
    destruct Hcase as [Hpos|[Hzero ->]].
    - apply page_writes_hidden; [apply List.Forall_rev, Hd|exact Hpos].
    - exfalso. simpl in Hw. rewrite app_nil_r in Hw.
      change (EvSeek PagF off :: EvWrite PagF off data :: rev d)
        with ([EvSeek PagF off; EvWrite PagF off data] ++ rev d) in Hw.
      rewrite writes_app, Hzero in Hw. unfold writes in Hw. simpl in Hw. lia. }
  intros Hw. revert E.
  unfold makeRoom_body. unfold bind at 1, get at 1. unfold bind at 1, get at 1.
  unfold bind at 1, lift at 1.
  destruct (SplPage (pag s) (i64 (hmask s + 1))) as [[old new]| |];
    [|intros [= <- <-]; exfalso; apply (Hnone []); [reflexivity|constructor|exact Hw]..].
  exists old, new. split; [reflexivity|].
  revert E. unfold bind at 1, modify at 1. unfold bind at 1.
  set (s1 := set_pag old s).
  destruct (negb (Z.land hash (i64 (hmask s + 1)) =? 0)).
  - unfold bind at 1, write_page at 1. unfold bind at 1, get at 1.
    unfold bind at 1, get at 1.
    change (pagbno s1) with (pagbno s). change (pag s1) with old.
    destruct (seekWrite_run PagF (offPag (pagbno s)) old s1)
      as [(e & n & Hr & Ht & Hnw & _)|[Hr Ht]];
      unfold result, after in Hr, Ht;
      destruct (seekWrite PagF (offPag (pagbno s)) old s1) as [r1 s2];
      simpl in Hr, Ht; subst r1.
    + intros [= <- <-]. exfalso. apply (Hnone n); assumption.
    + unfold ret, modify, bind. simpl.
      match goal with
      | |- makeRoom_mark ?a ?b ?c ?st = _ -> _ =>
          destruct (makeRoom_mark_run a b c st) as (d & p & Ht3 & Hd & Hp & Hcase);
          unfold after in Ht3; simpl in Ht3; rewrite Ht in Ht3
      end.
      intros E. rewrite E in Ht3. simpl in Ht3.
      apply (Hshape _ _ d p); assumption.
  - destruct (seekWrite_run PagF
                (offPag (Z.lor (Z.land hash (hmask s)) (i64 (hmask s + 1)))) new s1)
      as [(e & n & Hr & Ht & Hnw & _)|[Hr Ht]];
      unfold result, after in Hr, Ht;
      destruct (seekWrite PagF
                  (offPag (Z.lor (Z.land hash (hmask s)) (i64 (hmask s + 1)))) new s1)
        as [r1 s2];
      simpl in Hr, Ht; subst r1.
    + intros [= <- <-]. exfalso. apply (Hnone n); assumption.
    + match goal with
      | |- makeRoom_mark ?a ?b ?c ?st = _ -> _ =>
          destruct (makeRoom_mark_run a b c st) as (d & p & Ht3 & Hd & Hp & Hcase);
          unfold after in Ht3; rewrite Ht in Ht3
      end.
      intros E. rewrite E in Ht3. simpl in Ht3.
      apply (Hshape _ _ d p); assumption.
Qed.

Lemma makeRoom_write_order_witness :
  (0 < writes DirF (events (makeRoom_body (exHash (key "b")) 401) pair_stays))%nat /\
  exists old new,
    SplPage (pag pair_stays) (i64 (hmask pair_stays + 1)) = Ok (old, new) /\
    page_writes_before_dbit (events (makeRoom_body (exHash (key "b")) 401) pair_stays)
    = [if negb (Z.land (exHash (key "b")) (i64 (hmask pair_stays + 1)) =? 0)
       then (offPag (pagbno pair_stays), old)
       else (offPag (Z.lor (Z.land (exHash (key "b")) (hmask pair_stays))
                       (i64 (hmask pair_stays + 1))), new)].
Proof.
  split.
  - vm_compute. lia.
  - apply (makeRoom_write_order (exHash (key "b")) 401 pair_stays).
    vm_compute. lia.
Defined.

(** C4 fails in the branch where the incoming pair stays on the old page:
    the pass writes the directory block, and the only write to the page file
    before it goes to page 1, not to the old page at [pagbno = 0]. *)
Lemma old_page_not_written_when_pair_stays :
  let s := pair_stays in
  let evs := events (makeRoom_body (exHash (key "b")) 401) s in
  Z.land (exHash (key "b")) (i64 (hmask s + 1)) = 0 /\
  writes DirF evs = 1%nat /\
  offPag (pagbno s) = 0 /\
  map fst (page_writes_before_dbit evs) = [1024].
Proof. vm_compute. repeat split. Qed.

(** ** Looking a key up on a well-formed page *)

Lemma pairs_of_even (p : Page) (m : nat) :
  ino p 0 = 2 * Z.of_nat m -> pairs_of p = map (pair_at p) (seq 0 m).
Proof.
  intros Hm. unfold pairs_of. rewrite Hm.
  replace (2 * Z.of_nat m) with (Z.of_nat m * 2) by lia.
  rewrite Z.div_mul, Nat2Z.id by lia. reflexivity.
Qed.

Lemma odd_slots_even (m : nat) :
  odd_slots (2 * Z.of_nat m) = map (fun t => 2 * Z.of_nat t + 1) (seq 0 m).
Proof.
  unfold odd_slots.
  replace (2 * Z.of_nat m) with (Z.of_nat m * 2) by lia.
  rewrite Z.div_mul, Nat2Z.id by lia. reflexivity.
Qed.

Lemma length_pairs_of (p : Page) (m : nat) :
  ino p 0 = 2 * Z.of_nat m -> length (pairs_of p) = m.
Proof.
  intros Hm. rewrite (pairs_of_even p m Hm), length_map, length_seq. reflexivity.
Qed.

(** On a well-formed page pair [t] lies inside the page, key above value. *)
Lemma wf_pair_bounds (p : Page) (t : nat) :
  wf_page p = true -> 2 * Z.of_nat t + 2 <= ino p 0 ->
  (ino p 0 + 1) * 2 <= ino p (2 * Z.of_nat t + 2) /\
  ino p (2 * Z.of_nat t + 2) <= ino p (2 * Z.of_nat t + 1) /\
  ino p (2 * Z.of_nat t + 1) <= top p (2 * Z.of_nat t) /\
  top p (2 * Z.of_nat t) <= 1024.
Proof.
  intros Hwf Ht.
  assert (Hs := wf_step p Hwf (2 * Z.of_nat t + 1) ltac:(lia)).
  assert (Hs2 := wf_step p Hwf (2 * Z.of_nat t + 2) ltac:(lia)).
  replace (2 * Z.of_nat t + 1 - 1) with (2 * Z.of_nat t) in Hs by lia.
  replace (2 * Z.of_nat t + 2 - 1) with (2 * Z.of_nat t + 1) in Hs2 by lia.
  rewrite !top_pos in Hs2 by lia.
  rewrite (top_pos p (2 * Z.of_nat t + 1)) in Hs by lia.
  pose proof (wf_top_le p Hwf (2 * Z.of_nat t) ltac:(lia)).
  pose proof (wf_top_ge p Hwf (2 * Z.of_nat t + 2) ltac:(lia)) as Hge.
  rewrite top_pos in Hge by lia. lia.
Qed.

Lemma seePair_from_wf (p : Page) (key : list byte) (d : nat) :
  wf_page p = true ->
  forall t : nat,
    2 * (Z.of_nat t + Z.of_nat d) = ino p 0 ->
    seePair_from p key (top p (2 * Z.of_nat t))
      (map (fun t => 2 * Z.of_nat t + 1) (seq t d))
    = Ok (first_slot key (map (pair_at p) (seq t d)) (2 * Z.of_nat t + 1)).
Proof.
  intros Hwf. pose proof (wf_count p Hwf) as Hn.
  pose proof (wf_length p Hwf) as Hlen.
  induction d as [|d IH]; intros t Ht; [reflexivity|].
  destruct (wf_pair_bounds p t Hwf ltac:(lia)) as (Hb1 & Hb2 & Hb3 & Hb4).
  pose proof (ino_range p (2 * Z.of_nat t + 1)) as Hr1.
  cbn [seq map seePair_from first_slot].
  rewrite (getIno_ok p (2 * Z.of_nat t + 1)) by lia. cbn [rbind].
  set (off := top p (2 * Z.of_nat t)) in *.
  set (cur := ino p (2 * Z.of_nat t + 1)) in *.
  assert (Hpair : pair_at p t = (sub p cur off,
                                 sub p (ino p (2 * Z.of_nat t + 2)) cur))
    by reflexivity.
  rewrite Hpair.
  assert (Hklen : Z.of_nat (length (sub p cur off)) = off - cur)
    by (apply length_sub; lia).
  assert (Hnext : seePair_from p key (ino p (2 * Z.of_nat t + 2))
                    (map (fun t => 2 * Z.of_nat t + 1) (seq (S t) d))
                  = Ok (first_slot key (map (pair_at p) (seq (S t) d))
                          (2 * Z.of_nat t + 1 + 2))).
  { specialize (IH (S t) ltac:(lia)).
    replace (2 * Z.of_nat (S t)) with (2 * Z.of_nat t + 2) in IH by lia.
    rewrite top_pos in IH by lia.
    replace (2 * Z.of_nat t + 2 + 1) with (2 * Z.of_nat t + 1 + 2) in IH by lia.
    exact IH. }
  destruct (Z.of_nat (length key) =? off - cur) eqn:Elen.
  - apply Z.eqb_eq in Elen.
    rewrite (u16_small (Z.of_nat (length key))) by lia.
    rewrite (u16_small (cur + Z.of_nat (length key))) by lia.
    replace (cur + Z.of_nat (length key)) with off by lia.
    rewrite slice_ok by lia. cbn [rbind].
    destruct (bool_decide (key = sub p cur off)); [reflexivity|].
    replace (2 * Z.of_nat t + 1 + 1) with (2 * Z.of_nat t + 2) by lia.
    rewrite (getIno_ok p (2 * Z.of_nat t + 2)) by lia. cbn [rbind].
    exact Hnext.
  - apply Z.eqb_neq in Elen. cbn [rbind].
    rewrite bool_decide_eq_false_2 by (intros ->; lia).
    replace (2 * Z.of_nat t + 1 + 1) with (2 * Z.of_nat t + 2) by lia.
    rewrite (getIno_ok p (2 * Z.of_nat t + 2)) by lia. cbn [rbind].
    exact Hnext.
Qed.

Lemma seePair_wf (p : Page) (key : list byte) :
  wf_page p = true ->
  seePair p (ino p 0) key = Ok (first_slot key (pairs_of p) 1).
Proof.
  intros Hwf. destruct (wf_even p Hwf) as [m Hm].
  unfold seePair. rewrite (pairs_of_even p m Hm), Hm, odd_slots_even.
  apply (seePair_from_wf p key m Hwf 0%nat). lia.
Qed.

(** [first_slot] and [first_value] find the same pair. *)
Lemma first_slot_found (key : list byte) (l : list (list byte * list byte)) :
  forall i, 0 < i ->
    (first_slot key l i = 0 /\ first_value key l = Nullitem /\
     Forall (fun kv => kv.1 <> key) l) \/
    (exists t v, l !! t = Some (key, v) /\
                 first_slot key l i = i + 2 * Z.of_nat t /\
                 first_value key l = Some v /\
                 Forall (fun kv => kv.1 <> key) (take t l)).
Proof.
  induction l as [|[k v] l IH]; intros i Hi.
  - left. repeat split. constructor.
  - simpl. destruct (bool_decide (key = k)) eqn:E.
    + apply bool_decide_eq_true in E. subst k. right.
      exists 0%nat, v. repeat split; [lia|constructor].
    + apply bool_decide_eq_false in E.
      destruct (IH (i + 2) ltac:(lia)) as [(H1 & H2 & H3)|(t & v' & H1 & H2 & H3 & H4)].
      * left. repeat split; try assumption. constructor; [simpl; congruence|exact H3].
      * right. exists (S t), v'. repeat split; try assumption; [lia|].
        simpl. constructor; [simpl; congruence|exact H4].
Qed.

Lemma lookup_pairs_of (p : Page) (m t : nat) :
  ino p 0 = 2 * Z.of_nat m -> (t < m)%nat -> pairs_of p !! t = Some (pair_at p t).
Proof.
  intros Hm Ht. rewrite (pairs_of_even p m Hm), list_lookup_fmap.
  rewrite lookup_seq_lt by lia. reflexivity.
Qed.

(** [GetPair] returns the value of the first pair with the key. *)
Lemma GetPair_wf (p : Page) (key : Datum) :
  wf_page p = true -> GetPair p key = Ok (first_value (bytes key) (pairs_of p)).
Proof.
  intros Hwf. destruct (wf_even p Hwf) as [m Hm].
  pose proof (wf_count p Hwf) as Hn.
  unfold GetPair. rewrite wf_getN by assumption. cbn [rbind].
  destruct (ino p 0 =? 0) eqn:E0.
  { apply Z.eqb_eq in E0. unfold pairs_of. rewrite E0. reflexivity. }
  rewrite seePair_wf by assumption. cbn [rbind].
  destruct (first_slot_found (bytes key) (pairs_of p) 1 ltac:(lia))
    as [(H1 & H2 & _)|(t & v & H1 & H2 & H3 & _)].
  - rewrite H1, H2. reflexivity.
  - rewrite H2, H3.
    assert (Ht : (t < m)%nat).
    { apply lookup_lt_Some in H1. rewrite (length_pairs_of p m Hm) in H1. exact H1. }
    rewrite (lookup_pairs_of p m t Hm Ht) in H1.
    destruct (1 + 2 * Z.of_nat t =? 0) eqn:E1; [zbool; lia|].
    destruct (wf_pair_bounds p t Hwf ltac:(lia)) as (Hb1 & Hb2 & Hb3 & Hb4).
    replace (1 + 2 * Z.of_nat t + 1) with (2 * Z.of_nat t + 2) by lia.
    replace (1 + 2 * Z.of_nat t) with (2 * Z.of_nat t + 1) by lia.
    rewrite !getIno_ok by lia. cbn [rbind].
    pose proof (wf_top_le p Hwf (2 * Z.of_nat t + 1) ltac:(lia)) as Hle.
    rewrite top_pos in Hle by lia.
    rewrite slice_ok by lia. cbn [rbind].
    unfold pair_at in H1. cbv zeta in H1. injection H1 as _ Hv. rewrite Hv.
    reflexivity.
Qed.

(** ** DelPair: key absent, last pair, first pair *)

Lemma DelPair_absent (p : Page) (key : Datum) :
  wf_page p = true ->
  Forall (fun kv => kv.1 <> bytes key) (pairs_of p) ->
  DelPair p key = Ok (p, false).
Proof.
  intros Hwf Hno. unfold DelPair. rewrite wf_getN by assumption. cbn [rbind].
  destruct (ino p 0 =? 0); [reflexivity|].
  rewrite seePair_wf by assumption. cbn [rbind].
  destruct (first_slot_found (bytes key) (pairs_of p) 1 ltac:(lia))
    as [(H1 & _)|(t & v & H1 & _)].
  - rewrite H1. reflexivity.
  - exfalso. rewrite Forall_lookup in Hno. apply (Hno t _ H1). reflexivity.
Qed.

(** Dropping the count by two keeps the first pairs. *)
Lemma drop_last_pair (p : Page) (m : nat) :
  wf_page p = true -> ino p 0 = 2 * Z.of_nat (S m) ->
  wf_page (put16 p 0 (ino p 0 - 2)) = true /\
  pairs_of (put16 p 0 (ino p 0 - 2)) = take m (pairs_of p).
Proof.
  intros Hwf Hm. pose proof (wf_count p Hwf) as Hn.
  pose proof (wf_length p Hwf) as Hlen.
  set (q := put16 p 0 (ino p 0 - 2)).
  assert (Hq0 : ino q 0 = 2 * Z.of_nat m).
  { unfold q. rewrite ino_put16_same by lia. lia. }
  assert (Hino : forall j, 1 <= j -> ino q j = ino p j).
  { intros j Hj. unfold q. apply ino_put16_other; lia. }
  assert (Htop : forall j, 0 <= j -> top q j = top p j).
  { intros j Hj. unfold top. destruct (j =? 0) eqn:E; [reflexivity|].
    apply Hino. zbool. lia. }
  split.
  - apply wf_page_iff. rewrite Hq0. split; [|split; [|split]].
    + unfold q. rewrite length_put16. exact Hlen.
    + apply Z.even_spec. exists (Z.of_nat m). lia.
    + rewrite Htop by lia.
      pose proof (wf_top_ge p Hwf (2 * Z.of_nat m) ltac:(lia)). lia.
    + intros j Hj. rewrite !Htop by lia. apply (wf_step p Hwf). lia.
  - rewrite (pairs_of_even q m Hq0), (pairs_of_even p (S m) Hm).
    rewrite seq_S, map_app, take_app_length' by (rewrite length_map, length_seq; lia).
    apply map_ext_in. intros t Ht%in_seq.
    destruct (wf_pair_bounds p t Hwf ltac:(lia)) as (Hb1 & Hb2 & Hb3 & Hb4).
    apply pair_at_ext; try lia.
    + unfold q. symmetry. apply length_put16.
    + apply Hino. lia.
    + apply Hino. lia.
    + apply Htop. lia.
    + intros k Hk. unfold q. apply byte_at_put16_other; lia.
Qed.

Lemma DelPair_last (p : Page) (key : Datum) (l : list (list byte * list byte))
    (v : list byte) :
  wf_page p = true ->
  pairs_of p = l ++ [(bytes key, v)] ->
  Forall (fun kv => kv.1 <> bytes key) l ->
  exists p', DelPair p key = Ok (p', true) /\ wf_page p' = true /\ pairs_of p' = l.
Proof.
  intros Hwf Hl Hno. pose proof (wf_count p Hwf) as Hn.
  destruct (wf_even p Hwf) as [m Hm].
  assert (Hlen : m = S (length l)).
  { rewrite <- (length_pairs_of p m Hm), Hl, length_app. simpl. lia. }
  subst m.
  destruct (drop_last_pair p (length l) Hwf Hm) as [Hwf' Hpairs].
  exists (put16 p 0 (ino p 0 - 2)). split; [|split; [exact Hwf'|]].
  - unfold DelPair. rewrite wf_getN by assumption. cbn [rbind].
    destruct (ino p 0 =? 0) eqn:E0; [zbool; lia|].
    rewrite seePair_wf by assumption. cbn [rbind].
    destruct (first_slot_found (bytes key) (pairs_of p) 1 ltac:(lia))
      as [(_ & _ & H3)|(t & v' & H1 & H2 & _ & H4)].
    { exfalso. rewrite Hl in H3. apply Forall_app in H3. destruct H3 as [_ H3].
      inversion H3; subst. simpl in *. congruence. }
    assert (Ht : t = length l).
    { destruct (decide (t < length l)%nat) as [Hlt|Hge].
      - exfalso. rewrite Hl, lookup_app_l in H1 by lia.
        rewrite Forall_lookup in Hno. apply (Hno t _ H1). reflexivity.
      - apply lookup_lt_Some in H1. rewrite Hl, length_app in H1. simpl in H1. lia. }
    subst t. rewrite H2.
    destruct (1 + 2 * Z.of_nat (length l) =? 0) eqn:E1; [zbool; lia|].
    destruct (1 + 2 * Z.of_nat (length l) <? ino p 0 - 1) eqn:E2; [zbool; lia|].
    cbn [rbind]. rewrite wf_getN by assumption. cbn [rbind].
    unfold setN. rewrite setIno_ok by lia. cbn [rbind].
    rewrite u16_small by lia. reflexivity.
  - rewrite Hpairs, Hl. apply take_app_length.
Qed.

(** The loop that shifts the offset table down by two slots. *)
Lemma DelPair_adjust_run (zoo : Z) (c : nat) :
  forall (q : Page) (i : Z),
    1 <= i -> i + Z.of_nat c + 1 <= 511 ->
    (Z.to_nat 1024 <= length q)%nat ->
    exists q',
      DelPair_adjust q zoo i c = Ok q' /\
      length q' = length q /\
      (forall k, 0 <= k -> k < i * 2 \/ (i + Z.of_nat c) * 2 <= k ->
                 byte_at q' k = byte_at q k) /\
      (forall j, i <= j < i + Z.of_nat c ->
                 ino q' j = u16 (ino q (j + 2) + u16 zoo)).
Proof.
  induction c as [|c IH]; intros q i Hi Hc Hlen.
  - exists q. split; [reflexivity|]. split; [reflexivity|].
    split; [reflexivity|]. intros j Hj. lia.
  - cbn [DelPair_adjust]. rewrite getIno_ok by lia. cbn [rbind].
    rewrite setIno_ok by lia. cbn [rbind].
    set (q1 := put16 q i (u16 (ino q (i + 2) + u16 zoo))).
    destruct (IH q1 (i + 1)) as (q' & Hrun & Hlen' & Hbytes & Hinos);
      [lia|lia|unfold q1; rewrite length_put16; exact Hlen|].
    exists q'. split; [exact Hrun|].
    split; [rewrite Hlen'; unfold q1; apply length_put16|].
    split.
    + intros k Hk Hout. rewrite Hbytes by lia.
      unfold q1. apply byte_at_put16_other; lia.
    + intros j Hj. destruct (decide (j = i)) as [->|Hne].
      * unfold ino at 1. rewrite !Hbytes by lia. fold (ino q1 i).
        unfold q1. apply ino_put16_same; [lia|lia|].
        unfold u16. apply Z.mod_pos_bound. lia.
      * rewrite Hinos by lia. f_equal. f_equal.
        unfold q1. apply ino_put16_other; lia.
Qed.

(** Bytes moved up by [z] keep their contents. *)
Lemma sub_shift (p q : list byte) (a b z : Z) :
  0 <= a -> 0 <= z -> b + z <= Z.of_nat (length q) -> b <= Z.of_nat (length p) ->
  (forall k, a <= k < b -> byte_at q (k + z) = byte_at p k) ->
  sub q (a + z) (b + z) = sub p a b.
Proof.
  intros Ha Hz Hq Hp Hagree. unfold sub. apply list_eq. intros i.
  replace (Z.to_nat (b + z - (a + z))) with (Z.to_nat (b - a)) by lia.
  destruct (decide (i < Z.to_nat (b - a))%nat) as [Hi|Hi].
  - rewrite !lookup_take_lt, !lookup_drop by lia.
    rewrite !list_lookup_lookup_total_lt by lia.
    f_equal. specialize (Hagree (a + Z.of_nat i) ltac:(lia)).
    unfold byte_at in Hagree.
    replace (Z.to_nat (a + Z.of_nat i + z)) with (Z.to_nat (a + z) + i)%nat in Hagree by lia.
    replace (Z.to_nat (a + Z.of_nat i)) with (Z.to_nat a + i)%nat in Hagree by lia.
    exact Hagree.
  - rewrite !lookup_take_ge by lia. reflexivity.
Qed.

Lemma byte_at_sub (p : list byte) (a b k : Z) :
  0 <= a -> 0 <= k < b - a -> b <= Z.of_nat (length p) ->
  byte_at (sub p a b) k = byte_at p (a + k).
Proof.
  intros Ha Hk Hb. unfold byte_at, sub.
  apply list_lookup_total_correct.
  rewrite lookup_take_lt, lookup_drop by lia.
  replace (Z.to_nat a + Z.to_nat k)%nat with (Z.to_nat (a + k)) by lia.
  apply list_lookup_lookup_total_lt. lia.
Qed.

Lemma DelPair_first (p : Page) (key : Datum) (l : list (list byte * list byte))
    (v : list byte) :
  wf_page p = true ->
  pairs_of p = (bytes key, v) :: l ->
  exists p', DelPair p key = Ok (p', true) /\ wf_page p' = true /\ pairs_of p' = l.
Proof.
  intros Hwf Hl.
  destruct l as [|kv2 l'] eqn:El.
  { apply (DelPair_last p key [] v Hwf); [exact Hl|constructor]. }
  rewrite <- El in *. assert (Hl2 : (2 <= length (pairs_of p))%nat)
    by (rewrite Hl, El; simpl; lia).
  clear kv2 l' El.
  pose proof (wf_count p Hwf) as Hn. pose proof (wf_length p Hwf) as Hlen.
  destruct (wf_even p Hwf) as [m Hm].
  rewrite (length_pairs_of p m Hm) in Hl2.
  destruct m as [|m]; [lia|].
  set (n := ino p 0) in *.
  destruct (wf_pair_bounds p 0 Hwf ltac:(lia)) as (Hb1 & Hb2 & Hb3 & Hb4).
  change (2 * Z.of_nat 0 + 2) with 2 in *. change (2 * Z.of_nat 0 + 1) with 1 in *.
  change (top p (2 * Z.of_nat 0)) with 1024 in *.
  pose proof (wf_mono p Hwf 2 n ltac:(lia) ltac:(lia)) as Hn2.
  pose proof (wf_top_ge p Hwf n ltac:(lia)) as Hnge.
  rewrite (top_pos p n), (top_pos p 2) in Hn2 by lia.
  rewrite (top_pos p n) in Hnge by lia. fold n in Hnge, Hb1.
  set (zoo := 1024 - ino p 2).
  set (mv := ino p 2 - ino p n).
  set (tail := sub p (ino p n) 1024).
  set (p1 := blit p (1024 - mv) tail).
  assert (Hlen1 : length p1 = 1024%nat) by (unfold p1; rewrite length_blit; exact Hlen).
  destruct (DelPair_adjust_run zoo (Z.to_nat (n - 2)) p1 1)
    as (p2 & Hrun & Hlen2 & Hbytes2 & Hinos2); [lia|lia|lia|].
  set (p3 := put16 p2 0 (n - 2)).
  assert (Hbyte1 : forall k, 0 <= k < 1024 - mv -> byte_at p1 k = byte_at p k).
  { intros k Hk. unfold p1. apply byte_at_blit_out; lia. }
  assert (Hdata1 : forall k, ino p n <= k < ino p 2 ->
                             byte_at p1 (k + zoo) = byte_at p k).
  { intros k Hk. unfold p1.
    rewrite byte_at_blit_in.
    - unfold tail. rewrite byte_at_sub by lia. f_equal. unfold zoo, mv. lia.
    - lia.
    - unfold tail. rewrite length_sub by lia. unfold zoo, mv. lia.
    - unfold zoo. lia. }
  assert (Hino1 : forall j, 0 <= j <= n -> ino p1 j = ino p j).
  { intros j Hj. unfold ino. rewrite !Hbyte1 by (unfold mv; lia). reflexivity. }
  assert (Hino3 : forall j, 1 <= j <= n - 2 -> ino p3 j = ino p (j + 2) + zoo).
  { intros j Hj. unfold p3. rewrite ino_put16_other by lia.
    rewrite Hinos2 by lia. rewrite Hino1 by lia.
    pose proof (wf_mono p Hwf 2 (j + 2) ltac:(lia) ltac:(lia)) as Hj2.
    pose proof (wf_mono p Hwf (j + 2) n ltac:(lia) ltac:(lia)) as Hjn.
    rewrite !top_pos in Hj2, Hjn by lia.
    rewrite (u16_small zoo) by (unfold zoo; lia).
    apply u16_small. unfold zoo. lia. }
  assert (Hn3 : ino p3 0 = n - 2).
  { unfold p3. apply ino_put16_same; lia. }
  assert (Hdata3 : forall k, ino p n <= k < ino p 2 ->
                             byte_at p3 (k + zoo) = byte_at p k).
  { intros k Hk. unfold p3. rewrite byte_at_put16_other by (unfold zoo; lia).
    rewrite Hbytes2 by (unfold zoo; lia). apply Hdata1. exact Hk. }
  assert (Htop3 : forall j, 0 <= j <= n - 2 -> top p3 j = top p (j + 2) + zoo).
  { intros j Hj. unfold top at 1. destruct (j =? 0) eqn:E.
    - zbool. subst j. change (0 + 2) with 2. rewrite top_pos by lia.
      unfold zoo. change PBLKSIZ with 1024. lia.
    - zbool. rewrite top_pos by lia. apply Hino3. lia. }
  assert (Hlen3 : length p3 = 1024%nat).
  { unfold p3. rewrite length_put16, Hlen2. exact Hlen1. }
  exists p3. split; [|split].
  - unfold DelPair. rewrite wf_getN by assumption. cbn [rbind]. fold n.
    destruct (n =? 0) eqn:E0; [zbool; lia|].
    rewrite seePair_wf by assumption. cbn [rbind]. rewrite Hl.
    cbn [first_slot]. rewrite bool_decide_eq_true_2 by reflexivity.
    change (1 =? 0) with false. cbv iota.
    destruct (1 <? n - 1) eqn:E1; [|zbool; lia].
    change (1 =? 1) with true. cbv iota. cbn [rbind].
    change (1 + 1) with 2. rewrite !getIno_ok by lia. cbn [rbind].
    change PBLKSIZ with 1024.
    rewrite (u16_small (ino p 2 - ino p n)) by lia. fold mv.
    rewrite slice_ok by (unfold mv; lia). cbn [rbind].
    replace (ino p 2 - mv) with (ino p n) by (unfold mv; lia).
    rewrite slice_ok by lia. cbn [rbind]. fold tail.
    rewrite copy_at_ok by (unfold mv; lia). cbn [rbind]. fold p1.
    replace (n - 1 - 1) with (n - 2) by lia. fold zoo.
    rewrite Hrun. cbn [rbind].
    unfold getN. rewrite getIno_ok by lia. cbn [rbind].
    assert (Hn2' : ino p2 0 = n).
    { unfold ino. rewrite !Hbytes2 by lia. fold (ino p1 0). apply Hino1. lia. }
    rewrite Hn2'. unfold setN. rewrite setIno_ok by lia. cbn [rbind].
    rewrite u16_small by lia. reflexivity.
  - apply wf_page_iff. rewrite Hn3. split; [exact Hlen3|]. split; [|split].
    + apply Z.even_spec. exists (Z.of_nat m). lia.
    + rewrite Htop3 by lia. replace (n - 2 + 2) with n by lia.
      rewrite top_pos by lia. unfold zoo. lia.
    + intros j Hj. rewrite !Htop3 by lia.
      pose proof (wf_step p Hwf (j + 2) ltac:(lia)) as Hs.
      replace (j - 1 + 2) with (j + 2 - 1) by lia. lia.
  - rewrite (pairs_of_even p3 m) by lia.
    rewrite (pairs_of_even p (S m) Hm) in Hl.
    cbn [seq map] in Hl. injection Hl as _ _ Hl'. rewrite <- Hl'.
    rewrite <- seq_shift, map_map.
    apply map_ext_in. intros t Ht%in_seq.
    destruct (wf_pair_bounds p (S t) Hwf ltac:(lia)) as (Hc1 & Hc2 & Hc3 & Hc4).
    pose proof (wf_mono p Hwf 2 (2 * Z.of_nat (S t)) ltac:(lia) ltac:(lia)) as Hup.
    rewrite (top_pos p 2) in Hup by lia.
    unfold pair_at. cbv zeta.
    rewrite Htop3 by lia. rewrite !Hino3 by lia.
    replace (2 * Z.of_nat t + 2) with (2 * Z.of_nat (S t)) by lia.
    replace (2 * Z.of_nat t + 1 + 2) with (2 * Z.of_nat (S t) + 1) by lia.
    replace (2 * Z.of_nat (S t) + 2) with (2 * Z.of_nat (S t) + 2) by lia.
    pose proof (wf_mono p Hwf (2 * Z.of_nat (S t) + 2) n ltac:(lia) ltac:(lia)) as Hlow.
    rewrite (top_pos p n), (top_pos p (2 * Z.of_nat (S t) + 2)) in Hlow by lia.
    f_equal.
    + apply sub_shift; [lia|unfold zoo; lia|unfold zoo; lia|lia|].
      intros k Hk. apply Hdata3. lia.
    + apply sub_shift; [lia|unfold zoo; lia|unfold zoo; lia|lia|].
      intros k Hk. apply Hdata3. lia.
Qed.

(** ** Running without device faults *)


Lemma calm_pure {A} (m : M A) : (forall s, faults (m s).2 = faults s) -> calm m.
Proof. intros H s Hs. rewrite H. exact Hs. Qed.

Lemma calm_bind {A B} (m : M A) (f : A -> M B) :
  calm m -> (forall a, calm (f a)) -> calm (bind m f).
Proof.
  intros Hm Hf s Hs. unfold bind. specialize (Hm s Hs).
  destruct (m s) as [[a| |] s1]; simpl in *; try assumption.
  apply Hf, Hm.
Qed.

Lemma calm_if {A} (b : bool) (m1 m2 : M A) :
  calm m1 -> calm m2 -> calm (if b then m1 else m2).
Proof. destruct b; auto. Qed.

Lemma calm_next_fault : calm next_fault.
Proof. intros s Hs. unfold next_fault. rewrite Hs. exact Hs. Qed.

Lemma calm_sys_seek f off : calm (sys_seek f off).
Proof.
  unfold sys_seek. apply calm_bind; [apply calm_next_fault|].
  intros [|]; [apply calm_pure; reflexivity|].
  destruct (off <? 0); apply calm_pure; intros s; destruct f; reflexivity.
Qed.

Lemma calm_sys_read f n : calm (sys_read f n).
Proof.
  unfold sys_read. apply calm_bind; [apply calm_next_fault|].
  intros [|]; [apply calm_pure; reflexivity|].
  apply calm_pure. intros s.
  destruct (take n (drop (Z.to_nat (fpos (file_of f s))) (fdata (file_of f s)))).
  - destruct n; reflexivity.
  - destruct f; reflexivity.
Qed.

Lemma calm_sys_write f data : calm (sys_write f data).
Proof.
  unfold sys_write. apply calm_bind; [apply calm_next_fault|].
  intros [|]; [apply calm_pure; reflexivity|].
  apply calm_pure. intros s. destruct (fwritable (file_of f s)); destruct f; reflexivity.
Qed.

Lemma calm_seekRead f off buf : calm (seekRead f off buf).
Proof.
  unfold seekRead. apply calm_bind; [apply calm_sys_seek|].
  intros [e|]; [apply calm_pure; reflexivity|].
  apply calm_bind; [apply calm_sys_read|].
  intros [got [[| | |]|]]; apply calm_pure; reflexivity.
Qed.

Lemma calm_seekWrite f off buf : calm (seekWrite f off buf).
Proof.
  unfold seekWrite. apply calm_bind; [apply calm_sys_seek|].
  intros [e|]; [apply calm_pure; reflexivity|].
  apply calm_bind; [apply calm_sys_write|].
  intros [e|]; apply calm_pure; reflexivity.
Qed.

Lemma calm_load_dir dirb : calm (load_dir dirb).
Proof.
  unfold load_dir. apply calm_bind; [apply calm_pure; reflexivity|].
  intros cached. apply calm_if; [apply calm_pure; reflexivity|].
  apply calm_bind; [apply calm_pure; reflexivity|]. intros buf.
  apply calm_bind; [apply calm_seekRead|]. intros [buf' err].
  apply calm_bind; [apply calm_pure; reflexivity|]. intros _.
  destruct err; [apply calm_pure; reflexivity|].
  apply calm_bind; [|intros _]; apply calm_pure; reflexivity.
Qed.

Lemma calm_getDBit dbit : calm (getDBit dbit).
Proof.
  unfold getDBit. apply calm_bind; [apply calm_load_dir|].
  intros [e|]; [apply calm_pure; reflexivity|].
  apply calm_bind.
  { unfold dir_cell. apply calm_if; apply calm_pure; reflexivity. }
  intros [idx sh]. apply calm_bind; [|intros buf]; apply calm_pure; reflexivity.
Qed.

Lemma calm_walk fuel hash dbit hbit : calm (walk fuel hash dbit hbit).
Proof.
  revert dbit hbit. induction fuel as [|fuel IH]; intros dbit hbit; simpl.
  - apply calm_bind; [apply calm_pure; reflexivity|]. intros mx.
    apply calm_if; apply calm_pure; reflexivity.
  - apply calm_bind; [apply calm_pure; reflexivity|]. intros mx.
    apply calm_if; [|apply calm_pure; reflexivity].
    apply calm_bind; [apply calm_getDBit|]. intros split.
    apply calm_if; [apply IH|apply calm_pure; reflexivity].
Qed.

Lemma calm_getPage hash : calm (getPage hash).
Proof.
  unfold getPage. apply calm_bind; [apply calm_walk|]. intros [dbit hbit].
  apply calm_bind; [apply calm_pure; reflexivity|]. intros _.
  apply calm_bind; [apply calm_pure; reflexivity|]. intros mask.
  apply calm_bind; [apply calm_pure; reflexivity|]. intros _.
  apply calm_bind; [apply calm_pure; reflexivity|]. intros cached.
  apply calm_if; [apply calm_pure; reflexivity|].
  apply calm_bind; [apply calm_pure; reflexivity|]. intros buf.
  apply calm_bind; [apply calm_seekRead|]. intros [buf' err].
  apply calm_bind; [apply calm_pure; reflexivity|]. intros _.
  destruct err; [apply calm_pure; reflexivity|].
  apply calm_bind; [apply calm_pure; reflexivity|]. intros ok.
  apply calm_if; [|apply calm_pure; reflexivity].
  apply calm_bind; [|intros _]; apply calm_pure; reflexivity.
Qed.

(** ** System calls leave the fields of the handle alone *)


Lemma same_handle_refl s : same_handle s s.
Proof. split; reflexivity. Qed.

Lemma same_handle_trans s1 s2 s3 :
  same_handle s1 s2 -> same_handle s2 s3 -> same_handle s1 s3.
Proof. intros [] []. split; congruence. Qed.

Lemma sys_seek_handle f off s : same_handle s (sys_seek f off s).2.
Proof.
  unfold sys_seek, bind, next_fault.
  destruct (faults s) as [|[|] rest]; simpl; try (split; reflexivity);
    destruct (off <? 0); simpl; try (split; reflexivity);
    destruct f; split; reflexivity.
Qed.

Lemma sys_read_handle f n s : same_handle s (sys_read f n s).2.
Proof.
  unfold sys_read, bind, next_fault.
  destruct (faults s) as [|[|] rest]; simpl; try (split; reflexivity).
  - destruct (take n _); [destruct n; split; reflexivity|].
    destruct f; split; reflexivity.
  - match goal with |- context [take n ?l] => destruct (take n l) end;
      [destruct n; split; reflexivity|].
    destruct f; split; reflexivity.
Qed.

Lemma sys_write_handle f data s : same_handle s (sys_write f data s).2.
Proof.
  unfold sys_write, bind, next_fault.
  destruct (faults s) as [|[|] rest]; simpl; try (split; reflexivity).
  - destruct f; simpl; destruct (fwritable _); split; reflexivity.
  - destruct f; simpl; destruct (fwritable _); split; reflexivity.
Qed.

Lemma seekRead_handle f off buf s : same_handle s (seekRead f off buf s).2.
Proof.
  unfold seekRead, bind.
  pose proof (sys_seek_handle f off s) as H1.
  destruct (sys_seek f off s) as [[[e|]| |] s1]; simpl in *; try exact H1.
  pose proof (sys_read_handle f (length buf) s1) as H2.
  destruct (sys_read f (length buf) s1) as [[[got [[| | |]|]]| |] s2]; simpl in *;
    eapply same_handle_trans; eassumption.
Qed.

Lemma seekWrite_handle f off buf s : same_handle s (seekWrite f off buf s).2.
Proof.
  unfold seekWrite, bind.
  pose proof (sys_seek_handle f off s) as H1.
  destruct (sys_seek f off s) as [[[e|]| |] s1]; simpl in *; try exact H1.
  pose proof (sys_write_handle f buf s1) as H2.
  destruct (sys_write f buf s1) as [[[e|]| |] s2]; simpl in *;
    eapply same_handle_trans; eassumption.
Qed.

(** Without faults a seek to a non-negative offset succeeds. *)
Lemma sys_seek_calm f off s :
  faults s = [] -> 0 <= off ->
  sys_seek f off s
  = (Ok None, log (EvSeek f off)
                (set_file f (mkFile (fdata (file_of f s)) off
                               (fwritable (file_of f s))) s)).
Proof.
  intros Hs Hoff. unfold sys_seek, bind, next_fault. rewrite Hs.
  destruct (off <? 0) eqn:E; [zbool; lia|]. reflexivity.
Qed.

Lemma sys_read_calm f n s :
  faults s = [] ->
  exists got e, (sys_read f n s).1 = Ok (got, e) /\ (e = None \/ e = Some EOF).
Proof.
  intros Hs. unfold sys_read, bind, next_fault. rewrite Hs.
  match goal with
  | |- context [take n ?l] => destruct (take n l) as [|b got]
  end.
  - destruct n; simpl; eauto.
  - simpl. eauto.
Qed.

Lemma sys_write_calm f data s :
  faults s = [] -> fwritable (file_of f s) = true -> (sys_write f data s).1 = Ok None.
Proof.
  intros Hs Hw. unfold sys_write, bind, next_fault. rewrite Hs, Hw. reflexivity.
Qed.

(** Without faults [seekRead] at a non-negative offset returns no error and
    the buffer with the bytes read over its head. *)
Lemma seekRead_calm f off buf s :
  faults s = [] -> 0 <= off ->
  exists got, (seekRead f off buf s).1 = Ok (list_inserts 0 got buf, None).
Proof.
  intros Hs Hoff. unfold seekRead, bind. rewrite sys_seek_calm by assumption.
  match goal with
  | |- context [sys_read f ?n ?st] =>
      destruct (sys_read_calm f n st) as (got & e & Hr & He);
      [destruct f; exact Hs|];
      destruct (sys_read f n st) as [r s2]
  end.
  simpl in Hr. subst r. exists got. destruct He as [->| ->]; reflexivity.
Qed.

(** Without faults [seekWrite] to a file opened for writing succeeds. *)
Lemma seekWrite_calm f off buf s :
  faults s = [] -> 0 <= off -> fwritable (file_of f s) = true ->
  (seekWrite f off buf s).1 = Ok None.
Proof.
  intros Hs Hoff Hw. unfold seekWrite, bind. rewrite sys_seek_calm by assumption.
  match goal with
  | |- context [sys_write f buf ?st] =>
      pose proof (sys_write_calm f buf st) as Hr;
      destruct (sys_write f buf st) as [r s2]
  end.
  simpl in Hr. rewrite Hr; [reflexivity|destruct f; exact Hs|destruct f; exact Hw].
Qed.

(** ** The walk over a cached directory block *)

Lemma getDBit_cached (dbit : Z) (s : DBM) :
  Z.quot (Z.quot dbit BITSIZ) DBLKSIZ = dirbno s ->
  getDBit dbit s = (dir_bit (dirbuf s) dbit, s).
Proof.
  intros Hc. unfold getDBit, load_dir, bind, get. simpl.
  rewrite Hc, Z.eqb_refl. simpl. unfold dir_cell, dir_bit.
  destruct ((Z.rem (Z.quot dbit BITSIZ) DBLKSIZ <? 0) || (Z.rem dbit BITSIZ <? 0));
    reflexivity.
Qed.

Lemma first_block (dbit : Z) :
  0 <= dbit < DBLKSIZ * BITSIZ -> Z.quot (Z.quot dbit BITSIZ) DBLKSIZ = 0.
Proof.
  intros H. change (DBLKSIZ * BITSIZ) with 32768 in H.
  change BITSIZ with 8. change DBLKSIZ with 4096.
  rewrite (Z.quot_div_nonneg dbit 8) by lia.
  apply Z.quot_small. split; [apply Z.div_pos; lia|].
  apply Z.div_lt_upper_bound; lia.
Qed.

Lemma walk_cached_run (hash : Z) (fuel : nat) :
  forall (dbit hbit : Z) (s : DBM),
    dirbno s = 0 -> maxbno s <= DBLKSIZ * BITSIZ -> 0 <= dbit ->
    walk fuel hash dbit hbit s
    = (walk_cached fuel (dirbuf s) (maxbno s) hash dbit hbit, s).
Proof.
  induction fuel as [|fuel IH]; intros dbit hbit s Hd Hmx Hdbit.
  - simpl. unfold bind, get. simpl. destruct (dbit <? maxbno s); reflexivity.
  - cbn [walk walk_cached]. unfold bind at 1, get at 1. simpl.
    destruct (dbit <? maxbno s) eqn:E; [|reflexivity]. zbool.
    unfold bind. rewrite getDBit_cached by (rewrite first_block; lia).
    destruct (dir_bit (dirbuf s) dbit) as [[|]| |]; try reflexivity.
    apply IH; try assumption.
    change (DBLKSIZ * BITSIZ) with 32768 in Hmx.
    unfold child. destruct (negb _); rewrite i64_small; lia.
Qed.

Lemma load_dir_calm (dirb : Z) (s : DBM) :
  faults s = [] -> 0 <= offDir dirb ->
  exists s', load_dir dirb s = (Ok None, s') /\
             dirbno s' = dirb /\ faults s' = [] /\ maxbno s' = maxbno s.
Proof.
  intros Hs Hoff. unfold load_dir, bind, get. simpl.
  destruct (dirb =? dirbno s) eqn:E.
  { zbool. exists s. repeat split; auto. }
  destruct (seekRead_calm DirF (offDir dirb) (dirbuf s) s Hs Hoff) as (got & Hr).
  pose proof (calm_seekRead DirF (offDir dirb) (dirbuf s) s Hs) as Hc.
  pose proof (seekRead_handle DirF (offDir dirb) (dirbuf s) s) as Hh.
  destruct (seekRead DirF (offDir dirb) (dirbuf s) s) as [r s1].
  simpl in Hr, Hc, Hh. subst r. simpl.
  eexists. split; [reflexivity|]. simpl.
  repeat split; [exact Hc|apply Hh].
Qed.

(** The walk of [getPage] from the root when the directory has at most one
    block: after it the block is cached (or the directory is empty) and
    the result is the walk over the cached block. *)
Lemma walk_start (hash : Z) (fuel : nat) (s : DBM) :
  faults s = [] -> maxbno s <= DBLKSIZ * BITSIZ ->
  exists sw,
    walk (S fuel) hash 0 0 s
    = (walk_cached (S fuel) (dirbuf sw) (maxbno sw) hash 0 0, sw) /\
    (dirbno sw = 0 \/ maxbno sw <= 0) /\
    faults sw = [] /\ maxbno sw = maxbno s.
Proof.
  intros Hs Hmx.
  destruct (decide (maxbno s <= 0)) as [Hz|Hpos].
  { exists s. split; [|auto].
    cbn [walk walk_cached]. unfold bind, get. simpl.
    destruct (0 <? maxbno s) eqn:E; [zbool; lia|reflexivity]. }
  destruct (load_dir_calm 0 s Hs ltac:(vm_compute; discriminate))
    as (sl & Hl & Hd & Hf & Hm).
  exists sl. split; [|auto].
  cbn [walk walk_cached]. unfold bind at 1, get at 1. simpl.
  rewrite Hm. destruct (0 <? maxbno s) eqn:E; [|zbool; lia].
  unfold bind at 1. unfold getDBit. unfold bind at 1.
  change (Z.quot (Z.quot 0 BITSIZ) DBLKSIZ) with 0. rewrite Hl.
  change (dir_cell (Z.quot 0 BITSIZ) 0) with (ret (A := Z * Z) (0, 0)).
  unfold bind, ret, get. simpl.
  unfold dir_bit.
  change (Z.rem (Z.quot 0 BITSIZ) DBLKSIZ) with 0.
  change (Z.rem 0 BITSIZ) with 0. change ((0 <? 0) || (0 <? 0)) with false.
  cbv iota.
  destruct (negb (Z.land (byte_to_Z (byte_at (dirbuf sl) 0)) (Z.shiftl 1 0) =? 0));
    [|reflexivity].
  rewrite <- Hm. apply walk_cached_run; [exact Hd|lia|].
  unfold child. destruct (negb _); vm_compute; discriminate.
Qed.

Lemma walk_settled (hash : Z) (fuel : nat) (s : DBM) :
  dirbno s = 0 \/ maxbno s <= 0 -> maxbno s <= DBLKSIZ * BITSIZ ->
  walk fuel hash 0 0 s = (walk_cached fuel (dirbuf s) (maxbno s) hash 0 0, s).
Proof.
  intros [Hd|Hz] Hmx.
  - apply walk_cached_run; [exact Hd|exact Hmx|lia].
  - destruct fuel; cbn [walk walk_cached]; unfold bind, get; simpl;
      (destruct (0 <? maxbno s) eqn:E; [zbool; lia|reflexivity]).
Qed.

(** What a successful [getPage] establishes when the directory has at most
    one block and no fault occurs. *)
Lemma getPage_located (hash : Z) (s s1 : DBM) :
  faults s = [] -> maxbno s <= DBLKSIZ * BITSIZ ->
  getPage hash s = (Ok None, s1) ->
  exists dbit hbit mask,
    walk_cached walk_fuel (dirbuf s1) (maxbno s1) hash 0 0 = Ok (dbit, hbit) /\
    masks !! Z.to_nat hbit = Some mask /\
    curbit s1 = dbit /\ hmask s1 = mask /\ pagbno s1 = Z.land hash mask /\
    (dirbno s1 = 0 \/ maxbno s1 <= 0) /\
    faults s1 = [] /\ maxbno s1 = maxbno s.
Proof.
  intros Hs Hmx. unfold getPage. unfold bind at 1.
  destruct (walk_start hash 63 s Hs Hmx) as (sw & Hw & Hdir & Hf & Hm).
  change (S 63) with walk_fuel in Hw. rewrite Hw.
  destruct (walk_cached walk_fuel (dirbuf sw) (maxbno sw) hash 0 0)
    as [[dbit hbit]| |] eqn:Ewalk; try discriminate.
  unfold bind at 1, modify at 1. unfold bind at 1, lift at 1.
  destruct (masks !! Z.to_nat hbit) as [mask|] eqn:Emask; try discriminate.
  unfold bind at 1, modify at 1. unfold bind at 1, get at 1.
  set (s' := set_hmask mask (set_curbit dbit sw)).
  change (pagbno s') with (pagbno sw).
  destruct (Z.land hash mask =? pagbno sw) eqn:Ecache.
  - intros [= <-]. zbool. exists dbit, hbit, mask. simpl.
    repeat split; try assumption; try congruence.
  - unfold bind at 1, get at 1. unfold bind at 1.
    pose proof (calm_seekRead PagF (offPag (Z.land hash mask)) (pag s') s' Hf) as Hc.
    pose proof (seekRead_handle PagF (offPag (Z.land hash mask)) (pag s') s') as Hh.
    destruct (seekRead PagF (offPag (Z.land hash mask)) (pag s') s')
      as [[[buf err]| |] s2]; simpl in Hc, Hh; try discriminate.
    unfold bind at 1, modify at 1.
    destruct err as [e|]; [discriminate|].
    unfold bind at 1, lift at 1.
    destruct (ChkPage buf) as [[|]| |]; try discriminate.
    unfold bind, modify, ret. intros [= <-].
    destruct Hh as [h1 h2 h3 h4 h5 h6 h7 h8 h9 h10]. simpl in *.
    exists dbit, hbit, mask. rewrite h10, h2, h9.
    repeat split; try assumption; try congruence.
Qed.

Lemma getPage_again (hash : Z) (s : DBM) (dbit hbit mask : Z) :
  dirbno s = 0 \/ maxbno s <= 0 -> maxbno s <= DBLKSIZ * BITSIZ ->
  walk_cached walk_fuel (dirbuf s) (maxbno s) hash 0 0 = Ok (dbit, hbit) ->
  masks !! Z.to_nat hbit = Some mask ->
  pagbno s = Z.land hash mask ->
  getPage hash s = (Ok None, set_hmask mask (set_curbit dbit s)).
Proof.
  intros Hdir Hmx Hwalk Hmask Hpag. unfold getPage. unfold bind at 1.
  rewrite walk_settled by assumption. rewrite Hwalk.
  unfold bind at 1, modify at 1. unfold bind at 1, lift at 1. rewrite Hmask.
  unfold bind at 1, modify at 1. unfold bind at 1, get at 1.
  change (pagbno (set_hmask mask (set_curbit dbit s))) with (pagbno s).
  rewrite Hpag, Z.eqb_refl. reflexivity.
Qed.

(** The page numbers the walk produces are valid file offsets. *)
Lemma masks_bound (hbit : nat) (mask : Z) :
  masks !! hbit = Some mask -> 0 <= mask < 2 ^ 31.
Proof.
  intros H. unfold masks in H.
  do 32 (destruct hbit as [|hbit]; [injection H as <-; lia|]).
  discriminate.
Qed.

Lemma land_mask_bound (hash mask : Z) :
  0 <= mask -> 0 <= Z.land hash mask <= mask.
Proof.
  intros Hm. split.
  - apply Z.land_nonneg. right. exact Hm.
  - destruct (Z.eq_dec mask 0) as [->|Hne]; [rewrite Z.land_0_r; lia|].
    assert (Hpos : 0 <= Z.land hash mask) by (apply Z.land_nonneg; right; exact Hm).
    destruct (Z.le_gt_cases (Z.land hash mask) mask) as [Hle|Hgt]; [exact Hle|].
    exfalso.
    assert (Hlog : Z.log2 mask < Z.log2 (Z.land hash mask) \/
                   Z.log2 mask = Z.log2 (Z.land hash mask)).
    { pose proof (Z.log2_le_mono mask (Z.land hash mask) ltac:(lia)). lia. }
    assert (Hbit : Z.testbit (Z.land hash mask) (Z.log2 (Z.land hash mask)) = true)
      by (apply Z.bit_log2; lia).
    rewrite Z.land_spec in Hbit. apply andb_true_iff in Hbit. destruct Hbit as [_ Hb].
    destruct Hlog as [Hlt|Heq].
    + rewrite Z.bits_above_log2 in Hb by lia. discriminate.
    + (* same top bit: compare the remainders *)
      assert (Hsub : Z.land hash mask = mask - Z.land (Z.lnot hash) mask).
      { pose proof (Z.add_lor_land (Z.land hash mask) (Z.land (Z.lnot hash) mask)) as Ha.
        assert (Hdisj : Z.land (Z.land hash mask) (Z.land (Z.lnot hash) mask) = 0).
        { apply Z.bits_inj'. intros k Hk. rewrite !Z.land_spec, Z.lnot_spec, Z.bits_0 by lia.
          destruct (Z.testbit hash k), (Z.testbit mask k); reflexivity. }
        assert (Hcov : Z.lor (Z.land hash mask) (Z.land (Z.lnot hash) mask) = mask).
        { apply Z.bits_inj'. intros k Hk. rewrite Z.lor_spec, !Z.land_spec, Z.lnot_spec by lia.
          destruct (Z.testbit hash k), (Z.testbit mask k); reflexivity. }
        rewrite Hdisj, Hcov in Ha. lia. }
      assert (0 <= Z.land (Z.lnot hash) mask) by (apply Z.land_nonneg; right; exact Hm).
      lia.
Qed.

(** ** Store followed by Fetch when the pair fits on the located page *)

Lemma key_free_Forall (k : list byte) (l : list (list byte * list byte)) :
  key_free k l = true <-> Forall (fun kv => kv.1 <> k) l.
Proof.
  unfold key_free. rewrite forallb_forall, Forall_forall. split.
  - intros H kv Hin. specialize (H kv Hin).
    apply negb_true_iff, bool_decide_eq_false in H. exact H.
  - intros H kv Hin. apply negb_true_iff, bool_decide_eq_false, H, Hin.
Qed.




(** Writing the current page back and fetching the key: the fetch walks to
    the same page, finds it cached, and returns the first value stored
    under the key. *)
Lemma write_then_Fetch (k : list byte) (s1 sx : DBM) :
  faults s1 = [] -> maxbno s1 <= DBLKSIZ * BITSIZ ->
  (exists dbit hbit mask,
     walk_cached walk_fuel (dirbuf s1) (maxbno s1) (Hash k) 0 0 = Ok (dbit, hbit) /\
     masks !! Z.to_nat hbit = Some mask /\
     pagbno s1 = Z.land (Hash k) mask) ->
  dirbno s1 = 0 \/ maxbno s1 <= 0 ->
  fwritable (pagf s1) = true ->
  same_handle (set_pag (pag sx) s1) sx -> faults sx = [] -> pagf sx = pagf s1 ->
  wf_page (pag sx) = true ->
  exists s2 s3,
    write_page sx = (Ok None, s2) /\ pag s2 = pag sx /\
    Fetch (Some k) s2 = (Ok (first_value k (pairs_of (pag sx)), None), s3).
Proof.
  intros Hf Hmx (dbit & hbit & mask & Hwalk & Hmask & Hpag) Hdir Hw Hh Hfx Hpf Hwf.
  destruct Hh as [h1 h2 h3 h4 h5 h6 h7 h8 h9 h10]. simpl in *.
  pose proof (masks_bound _ _ Hmask) as Hmb.
  pose proof (land_mask_bound (Hash k) mask ltac:(lia)) as Hlb.
  assert (Hoff : 0 <= offPag (pagbno sx)).
  { rewrite h7, Hpag. unfold offPag. change PBLKSIZ with 1024.
    rewrite i64_small; lia. }
  unfold write_page, bind, get.
  pose proof (seekWrite_calm PagF (offPag (pagbno sx)) (pag sx) sx Hfx Hoff) as Hr.
  pose proof (seekWrite_handle PagF (offPag (pagbno sx)) (pag sx) sx) as Hh2.
  pose proof (calm_seekWrite PagF (offPag (pagbno sx)) (pag sx) sx Hfx) as Hc2.
  destruct (seekWrite PagF (offPag (pagbno sx)) (pag sx) sx) as [r s2].
  simpl in Hr, Hh2, Hc2. rewrite Hr by (simpl; rewrite Hpf; exact Hw).
  destruct Hh2 as [g1 g2 g3 g4 g5 g6 g7 g8 g9 g10].
  exists s2. eexists. split; [reflexivity|]. split; [exact g8|].
  unfold Fetch. cbn [bad]. unfold bind at 1. unfold exHash, bytes. simpl default.
  rewrite (getPage_again (Hash k) s2 dbit hbit mask).
  - unfold bind, get, lift, ret. simpl. rewrite g8.
    rewrite GetPair_wf by exact Hwf. reflexivity.
  - rewrite g9, g2, h9, h2. exact Hdir.
  - rewrite g2, h2. exact Hmx.
  - rewrite g10, g2, h10, h2. exact Hwalk.
  - exact Hmask.
  - rewrite g7, h7. exact Hpag.
Qed.






(** ** Bits of the directory block *)

Lemma land_bit_test (x k : Z) :
  0 <= k -> negb (Z.land x (Z.shiftl 1 k) =? 0) = Z.testbit x k.
Proof.
  intros Hk. destruct (Z.testbit x k) eqn:E.
  - apply negb_true_iff, Z.eqb_neq. intros H.
    assert (Hb : Z.testbit (Z.land x (Z.shiftl 1 k)) k = true).
    { rewrite Z.land_spec, E, Z.shiftl_spec, Z.sub_diag by lia. reflexivity. }
    rewrite H, Z.bits_0 in Hb. discriminate.
  - apply negb_false_iff, Z.eqb_eq. apply Z.bits_inj'. intros j Hj.
    rewrite Z.land_spec, Z.bits_0, Z.shiftl_spec by lia.
    destruct (Z.eq_dec j k) as [->|Hne].
    + rewrite E. reflexivity.
    + replace (Z.testbit 1 (j - k)) with false; [apply andb_false_r|].
      destruct (Z.lt_ge_cases (j - k) 0) as [Hlt|Hge].
      * symmetry. apply Z.testbit_neg_r. lia.
      * symmetry. change 1 with (2 ^ 0). apply Z.pow2_bits_false. lia.
Qed.

Lemma dir_bit_first_block (buf : list byte) (d : Z) :
  0 <= d < DBLKSIZ * BITSIZ -> dir_bit buf d = Ok (bit_set buf d).
Proof.
  intros Hd. change (DBLKSIZ * BITSIZ) with 32768 in Hd.
  unfold dir_bit, bit_set. change BITSIZ with 8. change DBLKSIZ with 4096.
  rewrite (Z.quot_div_nonneg d 8) by lia.
  assert (Hc : 0 <= d / 8 < 4096)
    by (split; [apply Z.div_pos; lia|apply Z.div_lt_upper_bound; lia]).
  rewrite (Z.rem_small (d / 8) 4096) by lia.
  rewrite (Z.rem_mod_nonneg d 8) by lia.
  pose proof (Z.mod_pos_bound d 8 ltac:(lia)) as Hm.
  destruct (d / 8 <? 0) eqn:E1; [zbool; lia|].
  destruct (d mod 8 <? 0) eqn:E2; [zbool; lia|]. simpl.
  rewrite land_bit_test by lia. reflexivity.
Qed.

Lemma bit_set_set_bit (buf : list byte) (c d : Z) :
  0 <= c -> 0 <= d -> (Z.to_nat (c / 8) < length buf)%nat ->
  bit_set (set_bit buf c) d = if Z.eq_dec d c then true else bit_set buf d.
Proof.
  intros Hc Hd Hlen. unfold bit_set, set_bit.
  pose proof (Z.mod_pos_bound c 8 ltac:(lia)) as Hcm.
  pose proof (Z.mod_pos_bound d 8 ltac:(lia)) as Hdm.
  assert (Hc8 : 0 <= c / 8) by (apply Z.div_pos; lia).
  assert (Hd8 : 0 <= d / 8) by (apply Z.div_pos; lia).
  destruct (Z.eq_dec (d / 8) (c / 8)) as [Heq|Hne].
  - rewrite Heq. unfold byte_at. rewrite list_lookup_total_insert_eq by lia.
    rewrite byte_to_of_Z.
    pose proof (byte_to_Z_range (buf !!! Z.to_nat (c / 8))) as Hr.
    fold (byte_at buf (c / 8)) in *.
    assert (Hsmall : Z.lor (byte_to_Z (byte_at buf (c / 8))) (Z.shiftl 1 (c mod 8)) mod 256
                     = Z.lor (byte_to_Z (byte_at buf (c / 8))) (Z.shiftl 1 (c mod 8))).
    { apply Z.mod_small. split.
      - apply Z.lor_nonneg. split; [lia|apply Z.shiftl_nonneg; lia].
      - change 256 with (2 ^ 8).
        destruct (Z.eq_dec (Z.lor (byte_to_Z (byte_at buf (c / 8)))
                              (Z.shiftl 1 (c mod 8))) 0) as [->|Hnz]; [lia|].
        apply Z.log2_lt_pow2.
        + assert (0 <= Z.lor (byte_to_Z (byte_at buf (c / 8))) (Z.shiftl 1 (c mod 8)))
            by (apply Z.lor_nonneg; split; [lia|apply Z.shiftl_nonneg; lia]). lia.
        + rewrite Z.log2_lor by (try lia; apply Z.shiftl_nonneg; lia).
          apply Z.max_lub_lt.
          * destruct (Z.eq_dec (byte_to_Z (byte_at buf (c / 8))) 0) as [->|Hb];
              [simpl; lia|apply Z.log2_lt_pow2; lia].
          * rewrite Z.shiftl_1_l, Z.log2_pow2 by lia. lia. }
    rewrite Hsmall, Z.lor_spec, Z.shiftl_spec by lia.
    destruct (Z.eq_dec d c) as [->|Hdc].
    + rewrite Z.sub_diag. apply orb_true_r.
    + assert (Hmod : d mod 8 <> c mod 8).
      { intros Hm. apply Hdc.
        rewrite (Z.div_mod d 8), (Z.div_mod c 8) by lia. lia. }
      replace (Z.testbit 1 (d mod 8 - c mod 8)) with false; [apply orb_false_r|].
      destruct (Z.lt_ge_cases (d mod 8 - c mod 8) 0) as [Hlt|Hge].
      * symmetry. apply Z.testbit_neg_r. lia.
      * symmetry. change 1 with (2 ^ 0). apply Z.pow2_bits_false. lia.
  - unfold byte_at. rewrite list_lookup_total_insert_ne by lia.
    destruct (Z.eq_dec d c) as [->|_]; [contradiction|reflexivity].
Qed.

(** ** Writes without faults *)

Lemma sys_seek_files f off s g :
  fwritable (file_of g (sys_seek f off s).2) = fwritable (file_of g s).
Proof.
  unfold sys_seek, bind, next_fault.
  destruct (faults s) as [|[|] rest]; simpl; try reflexivity;
    destruct (off <? 0); simpl; destruct f, g; reflexivity.
Qed.

Lemma sys_write_files f data s g :
  fwritable (file_of g (sys_write f data s).2) = fwritable (file_of g s).
Proof.
  unfold sys_write, bind, next_fault.
  destruct (faults s) as [|[|] rest]; simpl; try reflexivity;
    destruct f, g; simpl;
    match goal with |- context [if fwritable ?x then _ else _] =>
      destruct (fwritable x) eqn:E end; simpl; congruence.
Qed.

Lemma seekWrite_files f off buf s g :
  fwritable (file_of g (seekWrite f off buf s).2) = fwritable (file_of g s).
Proof.
  unfold seekWrite, bind.
  pose proof (sys_seek_files f off s g) as H1.
  destruct (sys_seek f off s) as [[[e|]| |] s1]; simpl in *; try exact H1.
  pose proof (sys_write_files f buf s1 g) as H2.
  destruct (sys_write f buf s1) as [[[e|]| |] s2]; simpl in *; congruence.
Qed.

(** Without faults a write at a non-negative offset of a file opened for
    writing succeeds; it puts the buffer into the file at the offset and
    touches nothing else. *)
Lemma seekWrite_ok f off buf s :
  faults s = [] -> 0 <= off -> fwritable (file_of f s) = true ->
  exists s', seekWrite f off buf s = (Ok None, s') /\
             same_handle s s' /\ faults s' = [] /\
             (forall g, fwritable (file_of g s') = fwritable (file_of g s)) /\
             fdata (file_of f s')
             = write_at (fdata (file_of f s)) (Z.to_nat off) buf /\
             (forall g, g <> f -> fdata (file_of g s') = fdata (file_of g s)).
Proof.
  intros Hs Hoff Hw. unfold seekWrite, bind. rewrite sys_seek_calm by assumption.
  unfold sys_write, bind, next_fault.
  assert (Hfl : forall x, faults (log (EvSeek f off) (set_file f x s)) = [])
    by (intros x; destruct f; exact Hs).
  rewrite Hfl.
  assert (Hfile : forall x, file_of f (log (EvSeek f off) (set_file f x s)) = x)
    by (intros x; destruct f; reflexivity).
  rewrite Hfile. cbn [fdata fpos fwritable]. rewrite Hw.
  eexists. split; [reflexivity|].
  split; [destruct f; split; reflexivity|].
  split; [destruct f; exact Hs|].
  split; [intros g; destruct f, g; cbn; try reflexivity; symmetry; exact Hw|].
  split; [destruct f; reflexivity|].
  intros g Hne. destruct f, g; try reflexivity; contradiction.
Qed.

Lemma write_page_ok s :
  faults s = [] -> 0 <= pagbno s < 2 ^ 32 -> fwritable (pagf s) = true ->
  exists s', write_page s = (Ok None, s') /\
             same_handle s s' /\ faults s' = [] /\
             (forall g, fwritable (file_of g s') = fwritable (file_of g s)) /\
             fdata (pagf s')
             = write_at (fdata (pagf s)) (Z.to_nat (pagbno s * PBLKSIZ)) (pag s) /\
             fdata (dirf s') = fdata (dirf s).
Proof.
  intros Hs Hb Hw. unfold write_page, bind, get.
  destruct (seekWrite_ok PagF (offPag (pagbno s)) (pag s) s Hs)
    as (s' & Hrun & Hh & Hf & Hws & Hdata & Hother); [|exact Hw|].
  { unfold offPag. change PBLKSIZ with 1024. rewrite i64_small; lia. }
  exists s'. split; [exact Hrun|]. split; [exact Hh|]. split; [exact Hf|].
  split; [exact Hws|]. split.
  - cbn [file_of] in Hdata. rewrite Hdata. unfold offPag.
    change PBLKSIZ with 1024. rewrite i64_small by lia. reflexivity.
  - apply (Hother DirF). discriminate.
Qed.

Lemma write_at_over (d data : list byte) :
  (length d <= length data)%nat -> write_at d 0 data = data.
Proof.
  intros H. unfold write_at. rewrite take_0, drop_ge by (cbn; lia).
  cbn. apply app_nil_r.
Qed.

(** [setDBit] on a bit of the cached first block. *)
Lemma setDBit_ok (d : Z) (s : DBM) :
  faults s = [] -> fwritable (dirf s) = true -> dirbno s = 0 ->
  0 <= d < DBLKSIZ * BITSIZ ->
  exists s',
    setDBit d s = (Ok None, s') /\
    same_handle
      (set_maxbno (if maxbno s <=? d then i64 (maxbno s + DBLKSIZ * BITSIZ)
                   else maxbno s)
         (set_dirbuf (set_bit (dirbuf s) d) s)) s' /\
    faults s' = [] /\
    (forall g, fwritable (file_of g s') = fwritable (file_of g s)) /\
    fdata (dirf s') = write_at (fdata (dirf s)) 0 (set_bit (dirbuf s) d) /\
    fdata (pagf s') = fdata (pagf s).
Proof.
  intros Hs Hw Hd Hr. unfold setDBit.
  pose proof (first_block d Hr) as Hb. rewrite Hb.
  unfold bind at 1. unfold load_dir. unfold bind at 1, get at 1.
  rewrite Hd. change (0 =? 0) with true. cbv iota. unfold ret at 1.
  unfold dir_cell.
  change (DBLKSIZ * BITSIZ) with 32768 in Hr.
  change BITSIZ with 8. change DBLKSIZ with 4096.
  rewrite (Z.quot_div_nonneg d 8) by lia.
  assert (Hc : 0 <= d / 8 < 4096)
    by (split; [apply Z.div_pos; lia|apply Z.div_lt_upper_bound; lia]).
  rewrite (Z.rem_small (d / 8) 4096) by lia.
  rewrite (Z.rem_mod_nonneg d 8) by lia.
  pose proof (Z.mod_pos_bound d 8 ltac:(lia)) as Hm.
  destruct (d / 8 <? 0) eqn:E1; [zbool; lia|].
  destruct (d mod 8 <? 0) eqn:E2; [zbool; lia|]. cbn [orb].
  unfold bind at 1, ret at 1. unfold bind at 1, get at 1.
  unfold bind at 1, modify at 1. unfold bind at 1, get at 1.
  cbn [maxbno set_dirbuf].
  fold (set_bit (dirbuf s) d).
  set (s1 := set_dirbuf (set_bit (dirbuf s) d) s).
  unfold bind at 1.
  assert (Hstep : exists s2,
    (if maxbno s <=? d then modify (set_maxbno (i64 (maxbno s + 4096 * 8)))
     else ret tt) s1 = (Ok tt, s2) /\
    same_handle (set_maxbno (if maxbno s <=? d then i64 (maxbno s + 4096 * 8)
                             else maxbno s) s1) s2 /\
    faults s2 = [] /\ dirf s2 = dirf s /\ pagf s2 = pagf s).
  { destruct (maxbno s <=? d); eexists; (split; [reflexivity|]);
      (split; [split; reflexivity|auto]). }
  destruct Hstep as (s2 & -> & Hh2 & Hf2 & Hd2 & Hp2).
  unfold bind at 1, get at 1. change (offDir 0) with 0.
  destruct (seekWrite_ok DirF 0 (dirbuf s2) s2 Hf2 ltac:(lia))
    as (s3 & Hrun & Hh3 & Hf3 & Hw3 & Hdata & Hother).
  { simpl. rewrite Hd2. exact Hw. }
  exists s3. split; [exact Hrun|]. split.
  { eapply same_handle_trans; eassumption. }
  split; [exact Hf3|]. split.
  { intros g. rewrite Hw3. destruct g; simpl; congruence. }
  split.
  - cbn [file_of] in Hdata. rewrite Hdata, Hd2.
    rewrite (sh_dirbuf _ _ Hh2). reflexivity.
  - pose proof (Hother PagF ltac:(discriminate)) as Hpg. cbn [file_of] in Hpg.
    rewrite Hpg, Hp2. reflexivity.
Qed.

(** ** The shape of the trie *)

Lemma child_small (d : Z) (b : bool) :
  0 <= d < DBLKSIZ * BITSIZ -> child d b = if b then 2 * d + 2 else 2 * d + 1.
Proof.
  change (DBLKSIZ * BITSIZ) with 32768. intros H.
  unfold child. destruct b; rewrite i64_small; lia.
Qed.

Lemma parent_child (d : Z) (b : bool) :
  0 <= d < DBLKSIZ * BITSIZ -> parent (child d b) = d.
Proof.
  intros H. rewrite child_small by exact H. unfold parent.
  destruct b.
  - replace (2 * d + 2 - 1) with (1 + d * 2) by lia.
    rewrite Z.div_add by lia. reflexivity.
  - replace (2 * d + 1 - 1) with (d * 2) by lia. apply Z.div_mul. lia.
Qed.

Lemma dir_bits_lookup (buf : list byte) :
  forall d : nat,
    (d < 8 * length buf)%nat ->
    dir_bits buf !! d = Some (bit_set buf (Z.of_nat d)).
Proof.
  unfold dir_bits. induction buf as [|b buf IH]; intros d Hd; [simpl in Hd; lia|].
  cbn [map concat]. destruct (decide (d < 8)%nat) as [Hlt|Hge].
  - rewrite lookup_app_l by (unfold byte_bits; rewrite length_map; simpl; lia).
    unfold bit_set, byte_at.
    rewrite (Z.div_small (Z.of_nat d) 8), (Z.mod_small (Z.of_nat d) 8) by lia.
    change (Z.to_nat 0) with 0%nat. cbn [lookup_total list_lookup_total].
    unfold byte_bits.
    do 8 (destruct d as [|d]; [reflexivity|]). lia.
  - rewrite lookup_app_r by (unfold byte_bits; rewrite length_map; simpl; lia).
    assert (Hl : length (byte_bits b) = 8%nat) by reflexivity.
    rewrite Hl, IH by (simpl in Hd; lia).
    f_equal. unfold bit_set, byte_at.
    replace (Z.of_nat d) with (Z.of_nat (d - 8) + 1 * 8) by lia.
    rewrite Z.div_add, Z.mod_add by lia.
    assert (H0 : 0 <= Z.of_nat (d - 8) / 8) by (apply Z.div_pos; lia).
    replace (Z.to_nat (Z.of_nat (d - 8) / 8 + 1))
      with (S (Z.to_nat (Z.of_nat (d - 8) / 8))) by lia.
    reflexivity.
Qed.

Lemma length_dir_bits (buf : list byte) : length (dir_bits buf) = (8 * length buf)%nat.
Proof.
  unfold dir_bits. induction buf as [|b buf IH]; [reflexivity|].
  cbn [map concat]. rewrite length_app, IH. unfold byte_bits.
  rewrite length_map. simpl. lia.
Qed.

Lemma div2_SS (j : nat) : (S (S j) / 2 = S (j / 2))%nat.
Proof.
  change (S (S j)) with (1 * 2 + j)%nat. rewrite Nat.div_add_l by lia. lia.
Qed.

Lemma closed_below_spec (ps : list bool) :
  forall cs,
    closed_below ps cs = true <->
    forall j c p, cs !! j = Some c -> ps !! (j / 2)%nat = Some p ->
                  implb c p = true.
Proof.
  induction ps as [|p ps IH]; intros cs.
  - simpl. split; [|reflexivity]. intros _ j c p _ H. discriminate.
  - destruct cs as [|c1 [|c2 cs]]; cbn [closed_below].
    + split; [|reflexivity]. intros _ j c q H. discriminate.
    + split.
      * intros H [|j] c q Hc Hq; [|discriminate].
        injection Hc as <-. injection Hq as <-. exact H.
      * intros H. apply (H 0%nat c1 p); reflexivity.
    + rewrite !andb_true_iff, IH. split.
      * intros [[H1 H2] H3] [|[|j]] c q Hc Hq.
        -- injection Hc as <-. injection Hq as <-. exact H1.
        -- injection Hc as <-. injection Hq as <-. exact H2.
        -- rewrite div2_SS in Hq. apply (H3 j c q); assumption.
      * intros H. split; [split|].
        -- apply (H 0%nat c1 p); reflexivity.
        -- apply (H 1%nat c2 p); reflexivity.
        -- intros j c q Hc Hq. apply (H (S (S j)) c q); [exact Hc|].
           rewrite div2_SS. exact Hq.
Qed.

Lemma dir_closed_spec (buf : list byte) :
  length buf = Z.to_nat DBLKSIZ ->
  dir_closed buf = true <->
  forall d, 1 <= d < DBLKSIZ * BITSIZ ->
            bit_set buf d = true -> bit_set buf (parent d) = true.
Proof.
  intros Hlen. change DBLKSIZ with 4096 in *. change BITSIZ with 8.
  unfold dir_closed. rewrite closed_below_spec. split.
  - intros H d Hd Hb.
    assert (Hp : 0 <= parent d < d).
    { unfold parent. split; [apply Z.div_pos; lia|].
      apply Z.div_lt_upper_bound; lia. }
    specialize (H (Z.to_nat (d - 1)) true (bit_set buf (parent d))).
    apply H.
    + rewrite lookup_tail.
      replace (S (Z.to_nat (d - 1))) with (Z.to_nat d) by lia.
      rewrite dir_bits_lookup by lia. rewrite Z2Nat.id by lia. rewrite Hb.
      reflexivity.
    + replace (Z.to_nat (d - 1) / 2)%nat with (Z.to_nat (parent d)).
      * rewrite dir_bits_lookup by lia. rewrite Z2Nat.id by lia. reflexivity.
      * unfold parent. rewrite Z2Nat.inj_div by lia. reflexivity.
  - intros H j c p Hc Hp. rewrite lookup_tail in Hc.
    assert (Hj : (S j < 8 * length buf)%nat).
    { rewrite <- length_dir_bits. apply lookup_lt_is_Some. eauto. }
    rewrite dir_bits_lookup in Hc by exact Hj.
    rewrite dir_bits_lookup in Hp
      by (pose proof (Nat.Div0.div_le_upper_bound j 2 j ltac:(lia)); lia).
    injection Hc as <-. injection Hp as <-.
    destruct (bit_set buf (Z.of_nat (S j))) eqn:E; [|reflexivity].
    cbn [implb]. apply H in E; [|lia].
    assert (Hpar : parent (Z.of_nat (S j)) = Z.of_nat (j / 2)).
    { unfold parent. rewrite Nat2Z.inj_div. f_equal. lia. }
    rewrite Hpar in E. exact E.
Qed.

Lemma walk_cached_step (fuel : nat) (buf : list byte) (mx hash dbit hbit : Z) :
  walk_cached (S fuel) buf mx hash dbit hbit
  = if dbit <? mx then
      match dir_bit buf dbit with
      | Ok true =>
          walk_cached fuel buf mx hash
            (child dbit (negb (Z.land hash (i64 (Z.shiftl 1 hbit)) =? 0)))
            (hbit + 1)
      | Ok false => Ok (dbit, hbit)
      | Panic => Panic
      | Timeout => Timeout
      end
    else Ok (dbit, hbit).
Proof. reflexivity. Qed.

(** Where a walk can end: not above its start, at a bit that is clear when
    it lies inside the directory, and below a split node unless it is the
    start itself. *)
Lemma walk_cached_end (buf : list byte) (mx hash : Z) (fuel : nat) :
  forall d hb c h,
    mx <= DBLKSIZ * BITSIZ -> 0 <= d ->
    walk_cached fuel buf mx hash d hb = Ok (c, h) ->
    d <= c /\ hb <= h /\
    (c < mx -> bit_set buf c = false) /\
    (c = d \/ bit_set buf (parent c) = true).
Proof.
  induction fuel as [|fuel IH]; intros d hb c h Hmx Hd; cbn [walk_cached].
  - destruct (d <? mx) eqn:E; [discriminate|]. intros [= <- <-]. zbool.
    repeat split; lia.
  - destruct (d <? mx) eqn:E.
    + zbool. rewrite dir_bit_first_block by lia.
      destruct (bit_set buf d) eqn:Eb.
      * intros Hw.
        pose proof (child_small d (negb (Z.land hash (i64 (Z.shiftl 1 hb)) =? 0))
                      ltac:(lia)) as Hc.
        pose proof (parent_child d (negb (Z.land hash (i64 (Z.shiftl 1 hb)) =? 0))
                      ltac:(lia)) as Hp.
        apply IH in Hw; [|exact Hmx|destruct (negb _); lia].
        destruct Hw as (H1 & H2 & H3 & H4).
        split; [destruct (negb _); lia|]. split; [lia|]. split; [exact H3|].
        right. destruct H4 as [->|H4]; [rewrite Hp; exact Eb|exact H4].
      * intros [= <- <-]. repeat split; try lia; auto.
    + intros [= <- <-]. zbool. repeat split; lia.
Qed.

(** The level of the node a walk ends at. *)
Lemma walk_cached_level (buf : list byte) (mx hash : Z) (fuel : nat) :
  forall d hb c h,
    mx <= DBLKSIZ * BITSIZ -> 0 <= hb ->
    2 ^ hb - 1 <= d <= 2 ^ (hb + 1) - 2 ->
    walk_cached fuel buf mx hash d hb = Ok (c, h) ->
    2 ^ h - 1 <= c <= 2 ^ (h + 1) - 2.
Proof.
  induction fuel as [|fuel IH]; intros d hb c h Hmx Hhb Hd; cbn [walk_cached].
  - destruct (d <? mx); [discriminate|]. intros [= <- <-]. exact Hd.
  - destruct (d <? mx) eqn:E; [|intros [= <- <-]; exact Hd].
    zbool.
    assert (Hd0 : 0 <= d) by (pose proof (Z.pow_pos_nonneg 2 hb); lia).
    rewrite dir_bit_first_block by lia.
    destruct (bit_set buf d); [|intros [= <- <-]; exact Hd].
    apply IH; [exact Hmx|lia|].
    rewrite child_small by lia.
    replace (hb + 1 + 1) with (Z.succ (hb + 1)) by lia.
    rewrite (Z.pow_succ_r 2 (hb + 1)) by lia.
    replace (hb + 1) with (Z.succ hb) in * by lia.
    rewrite (Z.pow_succ_r 2 hb) in * by lia.
    destruct (negb _); lia.
Qed.

(** Marking the node a walk ended at sends the walk one level down. *)
Lemma walk_cached_extend (buf : list byte) (hash : Z) (c h : Z) (fuel : nat) :
  dir_closed buf = true -> length buf = Z.to_nat DBLKSIZ ->
  0 <= c < DBLKSIZ * BITSIZ ->
  forall d hb,
    0 <= d -> h - hb + 2 <= Z.of_nat fuel ->
    walk_cached fuel buf (DBLKSIZ * BITSIZ) hash d hb = Ok (c, h) ->
    walk_cached fuel (set_bit buf c) (DBLKSIZ * BITSIZ) hash d hb
    = Ok (child c (negb (Z.land hash (i64 (Z.shiftl 1 h)) =? 0)), h + 1).
Proof.
  intros Hcl Hlen Hc.
  assert (Hidx : (Z.to_nat (c / 8) < length buf)%nat).
  { rewrite Hlen. change (DBLKSIZ * BITSIZ) with 32768 in Hc.
    change DBLKSIZ with 4096.
    assert (c / 8 < 4096) by (apply Z.div_lt_upper_bound; lia).
    assert (0 <= c / 8) by (apply Z.div_pos; lia). lia. }
  induction fuel as [|fuel IH]; intros d hb Hd Hfuel Hw.
  { pose proof (walk_cached_end buf (DBLKSIZ * BITSIZ) hash 0 d hb c h ltac:(lia) Hd Hw). lia. }
  pose proof (walk_cached_end buf (DBLKSIZ * BITSIZ) hash (S fuel) d hb c h ltac:(lia) Hd Hw)
    as (Hdc & Hhh & Hclear & _).
  revert Hw. cbn [walk_cached].
  destruct (d <? DBLKSIZ * BITSIZ) eqn:E; [|intros [= <- <-]; zbool; lia].
  zbool. rewrite !dir_bit_first_block by lia.
  rewrite bit_set_set_bit by (try lia; exact Hidx).
  destruct (Z.eq_dec d c) as [->|Hne].
  - specialize (Hclear ltac:(lia)). rewrite Hclear. intros [= <-].
    set (sel := negb (Z.land hash (i64 (Z.shiftl 1 hb)) =? 0)).
    pose proof (child_small c sel ltac:(lia)) as Hch.
    pose proof (parent_child c sel ltac:(lia)) as Hpa.
    destruct fuel as [|fuel]; [lia|]. cbn [walk_cached].
    destruct (child c sel <? DBLKSIZ * BITSIZ) eqn:E2; [|reflexivity].
    zbool.
    assert (Hch0 : 1 <= child c sel) by (rewrite Hch; destruct sel; lia).
    rewrite dir_bit_first_block by lia.
    rewrite bit_set_set_bit by (try lia; exact Hidx).
    destruct (Z.eq_dec (child c sel) c) as [Heq|_];
      [rewrite Hch in Heq; destruct sel; lia|].
    destruct (bit_set buf (child c sel)) eqn:Eb; [|reflexivity].
    apply (proj1 (dir_closed_spec buf Hlen) Hcl) in Eb; [|lia].
    rewrite Hpa in Eb. congruence.
  - destruct (bit_set buf d) eqn:Eb.
    + intros Hw. apply IH; [|lia|exact Hw].
      rewrite child_small by lia.
      destruct (negb (Z.land hash (i64 (Z.shiftl 1 hb)) =? 0)); lia.
    + intros [= Heq _]. contradiction.
Qed.

Lemma length_set_bit (buf : list byte) (c : Z) :
  length (set_bit buf c) = length buf.
Proof. unfold set_bit. apply length_insert. Qed.

(** Marking a node below a split node, or the root, keeps the trie closed. *)
Lemma dir_closed_set_bit (buf : list byte) (c : Z) :
  dir_closed buf = true -> length buf = Z.to_nat DBLKSIZ ->
  0 <= c < DBLKSIZ * BITSIZ ->
  c = 0 \/ bit_set buf (parent c) = true ->
  dir_closed (set_bit buf c) = true.
Proof.
  intros Hcl Hlen Hc Hpar.
  assert (Hidx : (Z.to_nat (c / 8) < length buf)%nat).
  { rewrite Hlen. change (DBLKSIZ * BITSIZ) with 32768 in Hc.
    change DBLKSIZ with 4096.
    assert (c / 8 < 4096) by (apply Z.div_lt_upper_bound; lia).
    assert (0 <= c / 8) by (apply Z.div_pos; lia). lia. }
  apply dir_closed_spec; [rewrite length_set_bit; exact Hlen|]. intros d Hd.
  assert (Hp0 : 0 <= parent d) by (unfold parent; apply Z.div_pos; lia).
  rewrite !bit_set_set_bit by (try lia; exact Hidx).
  destruct (Z.eq_dec (parent d) c) as [_|Hpc]; [reflexivity|].
  destruct (Z.eq_dec d c) as [->|Hdc].
  - intros _. destruct Hpar as [->|Hpar]; [lia|exact Hpar].
  - apply (proj1 (dir_closed_spec buf Hlen) Hcl). exact Hd.
Qed.

(** ** Splitting a well-formed page *)

(** [SplPage] on a well-formed page: the two pages it returns. *)
Lemma SplPage_wf (p : Page) (sbit : Z) :
  wf_page p = true ->
  exists p' newPag,
    SplPage p sbit = Ok (p', newPag) /\
    wf_page p' = true /\ wf_page newPag = true /\
    pairs_of p' = filter (fun kv => goes_to_new sbit kv = false) (pairs_of p) /\
    pairs_of newPag = filter (fun kv => goes_to_new sbit kv = true) (pairs_of p).
Proof.
  intros Hwf. destruct (wf_even p Hwf) as [m Hm].
  pose proof (wf_count p Hwf) as Hn.
  pose proof (wf_top_le p Hwf 0 ltac:(lia)) as Htop.
  destruct (SplPage_loop_wf p sbit Hwf m 0%nat SplPage_fuel zero_page zero_page)
    as (p' & newPag & Hrun & Hw1 & Hw2 & Hp1 & Hp2).
  { lia. }
  { unfold SplPage_fuel. lia. }
  { apply wf_zero_page. }
  { apply wf_zero_page. }
  { rewrite ino_zero_page. lia. }
  { rewrite ino_zero_page. lia. }
  { rewrite ino_zero_page. change (top zero_page 0) with 1024. exact Htop. }
  { rewrite ino_zero_page. change (top zero_page 0) with 1024. exact Htop. }
  exists p', newPag.
  rewrite pairs_of_zero_page in Hp1, Hp2. simpl in Hp1, Hp2.
  assert (Hall : map (pair_at p) (seq 0 m) = pairs_of p).
  { unfold pairs_of. rewrite Hm.
    replace (2 * Z.of_nat m) with (Z.of_nat m * 2) by lia.
    rewrite Z.div_mul, Nat2Z.id by lia. reflexivity. }
  rewrite Hall in Hp1, Hp2.
  split.
  { unfold SplPage. rewrite getIno_ok by lia. cbn [rbind].
    rewrite Hm.
    change (2 * Z.of_nat 0 + 1) with 1 in Hrun.
    change (top p (2 * Z.of_nat 0)) with PBLKSIZ in Hrun.
    exact Hrun. }
  auto.
Qed.


(** ** Masks and page numbers *)

Lemma masks_succ (n : nat) (m : Z) :
  masks !! n = Some m -> (n < 31)%nat ->
  masks !! S n = Some (Z.lor m (i64 (m + 1))) /\
  i64 (m + 1) = i64 (Z.shiftl 1 (Z.of_nat n)) /\
  i64 (m + 1) = 2 ^ Z.of_nat n.
Proof.
  intros H Hn. unfold masks in *.
  do 31 (destruct n as [|n]; [injection H as <-; vm_compute; auto|]).
  lia.
Qed.

Lemma land_pow2 (x k : Z) :
  0 <= k -> Z.land x (2 ^ k) = if Z.testbit x k then 2 ^ k else 0.
Proof.
  intros Hk. apply Z.bits_inj'. intros j Hj.
  rewrite Z.land_spec, Z.pow2_bits_eqb by lia.
  destruct (Z.eqb_spec k j) as [->|Hne].
  - destruct (Z.testbit x j); [rewrite Z.pow2_bits_true by lia; reflexivity|].
    rewrite Z.bits_0. reflexivity.
  - rewrite andb_false_r.
    destruct (Z.testbit x k); [rewrite Z.pow2_bits_false by lia; reflexivity|].
    rewrite Z.bits_0. reflexivity.
Qed.

(** The page the deeper mask selects: the new page when the next bit of the
    hash is set, the old one otherwise. *)
Lemma deeper_page (hash m k : Z) :
  0 <= k ->
  Z.land hash (Z.lor m (2 ^ k))
  = if negb (Z.land hash (2 ^ k) =? 0) then Z.lor (Z.land hash m) (2 ^ k)
    else Z.land hash m.
Proof.
  intros Hk. rewrite Z.land_lor_distr_r, land_pow2 by exact Hk.
  assert (Hp : 0 < 2 ^ k) by (apply Z.pow_pos_nonneg; lia).
  destruct (Z.testbit hash k).
  - destruct (2 ^ k =? 0) eqn:E; [zbool; lia|]. reflexivity.
  - rewrite Z.lor_0_r. reflexivity.
Qed.

Lemma lor_bound (x y : Z) : 0 <= x -> 0 <= y -> 0 <= Z.lor x y <= x + y.
Proof.
  intros Hx Hy. split; [apply Z.lor_nonneg; auto|].
  pose proof (Z.add_lor_land x y).
  assert (0 <= Z.land x y) by (apply Z.land_nonneg; auto). lia.
Qed.

(** ** The pairs under a key *)

(** A split keeps the pairs under [k] together, on the page the hash of
    [k] selects, and in their order. *)
Lemma pairs_with_split (k : list byte) (sbit : Z) (b : bool)
    (l : list (list byte * list byte)) :
  negb (Z.land (Hash k) sbit =? 0) = b ->
  pairs_with k (filter (fun kv => goes_to_new sbit kv = b) l) = pairs_with k l.
Proof.
  intros Hb. unfold pairs_with.
  induction l as [|kv l IH]; [reflexivity|].
  rewrite (filter_cons (fun kv => goes_to_new sbit kv = b)).
  destruct (decide (goes_to_new sbit kv = b)) as [Hgo|Hgo].
  - rewrite !filter_cons, IH. reflexivity.
  - rewrite (filter_cons (fun kv => kv.1 = k) kv).
    destruct (decide (kv.1 = k)) as [Hk|Hk]; [|exact IH].
    exfalso. apply Hgo. unfold goes_to_new. rewrite Hk. exact Hb.
Qed.





(** Reduce the projections of updated handles, and nothing else. *)
Ltac fields := cbn [dirf pagf rdonly maxbno curbit hmask blkptr keyptr pagbno pag dirbno dirbuf faults trace set_dirf set_pagf set_maxbno set_curbit set_hmask set_blkptr set_keyptr set_pagbno set_pag set_dirbno set_dirbuf set_faults set_trace set_file file_of log] in *.

(** What [one_block] says. *)
Lemma one_block_spec (s : DBM) :
  one_block s = true <->
  dirbno s = 0 /\ length (dirbuf s) = Z.to_nat DBLKSIZ /\
  dir_closed (dirbuf s) = true /\
  ((maxbno s = DBLKSIZ * BITSIZ /\ fdata (dirf s) = dirbuf s) \/
   (maxbno s = 0 /\ bit_set (dirbuf s) 0 = false /\ fdata (dirf s) = [])).
Proof.
  unfold one_block.
  rewrite !andb_true_iff, orb_true_iff, !andb_true_iff, !bool_decide_eq_true.
  rewrite !Z.eqb_eq, Nat.eqb_eq, negb_true_iff. tauto.
Qed.

(** ** One pass of the split loop *)

(** The numbers of a state between two passes. *)
Lemma split_ready_bounds (k : list byte) (kl : list (list byte * list byte))
    (hbit : Z) (s : DBM) :
  split_ready k kl hbit s -> hbit <= 14 ->
  0 <= curbit s < DBLKSIZ * BITSIZ /\
  (curbit s = 0 \/ bit_set (dirbuf s) (parent (curbit s)) = true) /\
  0 <= hmask s < 2 ^ 31 /\
  i64 (hmask s + 1) = 2 ^ hbit /\
  i64 (Z.shiftl 1 hbit) = 2 ^ hbit /\
  0 < 2 ^ hbit <= 2 ^ 14 /\
  masks !! Z.to_nat (hbit + 1) = Some (Z.lor (hmask s) (i64 (hmask s + 1))).
Proof.
  intros [Hf Hpw Hdw Hdb Hmx Hlen Hcl Hwalk Hmask Hh Hpb Hwf Hfree] Hdepth.
  pose proof (masks_bound _ _ Hmask) as Hmb.
  destruct (masks_succ (Z.to_nat hbit) (hmask s) Hmask ltac:(lia))
    as (Hmask' & Hsh & Hpow).
  rewrite Z2Nat.id in Hsh, Hpow by lia.
  pose proof (walk_cached_level (dirbuf s) (DBLKSIZ * BITSIZ) (Hash k) walk_fuel 0 0 (curbit s) hbit
                ltac:(lia) ltac:(lia) ltac:(simpl; lia) Hwalk) as Hlev.
  pose proof (walk_cached_end (dirbuf s) (DBLKSIZ * BITSIZ) (Hash k) walk_fuel 0 0 (curbit s) hbit
                ltac:(lia) ltac:(lia) Hwalk) as (_ & _ & _ & Hpar).
  assert (Hp14 : 2 ^ hbit <= 2 ^ 14) by (apply Z.pow_le_mono_r; lia).
  assert (Hp0 : 0 < 2 ^ hbit) by (apply Z.pow_pos_nonneg; lia).
  replace (hbit + 1) with (Z.succ hbit) in Hlev by lia.
  rewrite Z.pow_succ_r in Hlev by lia.
  change (DBLKSIZ * BITSIZ) with 32768. change (2 ^ 14) with 16384 in *.
  split; [lia|]. split; [exact Hpar|]. split; [exact Hmb|].
  split; [exact Hpow|]. split; [rewrite <- Hsh; exact Hpow|]. split; [lia|].
  replace (Z.to_nat (hbit + 1)) with (S (Z.to_nat hbit)) by lia. exact Hmask'.
Qed.

(** The second half of a pass, entered with the pair's page current: the
    directory bit of [curbit] is set and either the pair fits and the loop
    returns, or the handle is one level deeper and ready for the next
    pass. *)
Lemma makeRoom_mark_ready (k : list byte) (kl : list (list byte * list byte))
    (need hbit : Z) (t : DBM) :
  split_ready k kl hbit (set_pagbno (Z.land (Hash k) (hmask t)) t) ->
  hbit <= 14 ->
  pagbno t = Z.land (Hash k) (Z.lor (hmask t) (i64 (hmask t + 1))) ->
  exists s',
    (makeRoom_mark (hmask t) (negb (Z.land (Hash k) (i64 (hmask t + 1)) =? 0)) need t
     = (Ok (Return None), s') /\
     FitPair (pag s') need = Ok true /\ settled k kl s') \/
    (makeRoom_mark (hmask t) (negb (Z.land (Hash k) (i64 (hmask t + 1)) =? 0)) need t
     = (Ok Continue, s') /\
     FitPair (pag s') need = Ok false /\ split_ready k kl (hbit + 1) s').
Proof.
  intros Hready Hdepth Hpag.
  destruct (split_ready_bounds _ _ _ _ Hready Hdepth)
    as (Hcb & Hpar & Hmb & Hpow & Hsh & Hp2 & Hmask').
  destruct Hready as [Hf Hpw Hdw Hdb Hmx Hlen Hcl Hwalk Hmask Hh _ Hwf Hfree].
  fields.
  destruct (setDBit_ok (curbit t) t Hf Hdw Hdb Hcb)
    as (sD & Hrun & HhD & HfD & HwD & HdD & HpD).
  destruct HhD as [d1 d2 d3 d4 d5 d6 d7 d8 d9 d10]. fields.
  assert (Hmax : maxbno sD = DBLKSIZ * BITSIZ).
  { rewrite d2. destruct Hmx as [[-> _] | [-> _]].
    - destruct (DBLKSIZ * BITSIZ <=? curbit t) eqn:E; [zbool; lia|reflexivity].
    - destruct (0 <=? curbit t) eqn:E; [reflexivity|zbool; lia]. }
  assert (Hsync : fdata (dirf sD) = dirbuf sD).
  { rewrite HdD, d10. apply write_at_over. rewrite length_set_bit, Hlen.
    destruct Hmx as [[_ ->] | (_ & _ & ->)]; [rewrite Hlen; lia|cbn; lia]. }
  assert (Hwalk' :
    walk_cached walk_fuel (dirbuf sD) (DBLKSIZ * BITSIZ) (Hash k) 0 0
    = Ok (child (curbit t) (negb (Z.land (Hash k) (i64 (hmask t + 1)) =? 0)), hbit + 1)).
  { rewrite d10, Hpow, <- Hsh.
    apply walk_cached_extend; try assumption; try lia.
    unfold walk_fuel. lia. }
  assert (Hcl' : dir_closed (dirbuf sD) = true).
  { rewrite d10. apply dir_closed_set_bit; assumption. }
  assert (Hlen' : length (dirbuf sD) = Z.to_nat DBLKSIZ).
  { rewrite d10, length_set_bit. exact Hlen. }
  destruct (makeRoom_mark (hmask t) (negb (Z.land (Hash k) (i64 (hmask t + 1)) =? 0))
              need t) as [r sx] eqn:E.
  revert E. unfold makeRoom_mark. unfold bind at 1, get at 1.
  unfold bind at 1. rewrite Hrun.
  unfold bind at 1, get at 1. unfold bind at 1, lift at 1.
  rewrite d8. rewrite wf_FitPair by exact Hwf.
  destruct (need + 4 <=? top (pag t) (ino (pag t) 0) - (ino (pag t) 0 + 1) * 2)
    eqn:Efit.
  - unfold ret. intros [= <- <-].
    exists sD. left. split; [reflexivity|]. split.
    { rewrite d8, wf_FitPair by exact Hwf. rewrite Efit. reflexivity. }
    split.
    + exact HfD.
    + exact (eq_trans (HwD PagF) Hpw).
    + exact (eq_trans (HwD DirF) Hdw).
    + apply one_block_spec. rewrite d9. auto 6.
    + eexists _, _, _. rewrite Hmax. split; [exact Hwalk'|].
      split; [exact Hmask'|]. rewrite d7. exact Hpag.
    + rewrite d8. exact Hwf.
    + rewrite d8. exact Hfree.
  - unfold bind at 1, modify at 1. unfold bind at 1, modify at 1.
    set (sE0 := set_hmask (Z.lor (hmask t) (i64 (hmask t + 1)))
                  (set_curbit (child (curbit t)
                     (negb (Z.land (Hash k) (i64 (hmask t + 1)) =? 0))) sD)).
    pose proof (masks_bound _ _ Hmask') as Hmb'.
    pose proof (land_mask_bound (Hash k) _ (proj1 Hmb')) as Hlb'.
    destruct (write_page_ok sE0) as (sE & HrunE & HhE & HfE & HwE & _ & HdE).
    { exact HfD. }
    { change (pagbno sE0) with (pagbno sD). rewrite d7, Hpag. lia. }
    { exact (eq_trans (HwD PagF) Hpw). }
    destruct HhE as [e1 e2 e3 e4 e5 e6 e7 e8 e9 e10].
    unfold sE0 in e1, e2, e3, e4, e5, e6, e7, e8, e9, e10. fields.
    unfold bind at 1. fold sE0. rewrite HrunE. unfold ret. intros [= <- <-].
    exists sE. right. split; [reflexivity|]. split.
    { rewrite e8, d8, wf_FitPair by exact Hwf. rewrite Efit. reflexivity. }
    split.
    + exact HfE.
    + exact (eq_trans (HwE PagF) (eq_trans (HwD PagF) Hpw)).
    + exact (eq_trans (HwE DirF) (eq_trans (HwD DirF) Hdw)).
    + rewrite e9, d9. exact Hdb.
    + left. split; [rewrite e2; exact Hmax|]. rewrite HdE, e10. exact Hsync.
    + rewrite e10. exact Hlen'.
    + rewrite e10. exact Hcl'.
    + rewrite e10, e3. exact Hwalk'.
    + rewrite e4. exact Hmask'.
    + lia.
    + rewrite e7, e4, d7. exact Hpag.
    + rewrite e8, d8. exact Hwf.
    + rewrite e8, d8. exact Hfree.
Qed.

(** A pass of the split loop from a ready state: the page is split, the
    half the pair does not go to is written out, and [makeRoom_mark] runs
    with the other half current. *)
Lemma makeRoom_body_ready (k : list byte) (kl : list (list byte * list byte))
    (need hbit : Z) (s : DBM) :
  split_ready k kl hbit s -> hbit <= 14 ->
  exists s',
    (makeRoom_body (Hash k) need s = (Ok (Return None), s') /\
     FitPair (pag s') need = Ok true /\ settled k kl s') \/
    (makeRoom_body (Hash k) need s = (Ok Continue, s') /\
     FitPair (pag s') need = Ok false /\ split_ready k kl (hbit + 1) s').
Proof.
  intros Hready Hdepth.
  destruct (split_ready_bounds _ _ _ _ Hready Hdepth)
    as (Hcb & Hpar & Hmb & Hpow & Hsh & Hp2 & Hmask').
  destruct Hready as [Hf Hpw Hdw Hdb Hmx Hlen Hcl Hwalk Hmask Hh Hpb Hwf Hfree].
  pose proof (land_mask_bound (Hash k) (hmask s) (proj1 Hmb)) as Hlb.
  pose proof (deeper_page (Hash k) (hmask s) hbit Hh) as Hdeep.
  rewrite <- Hpow in Hdeep.
  destruct (SplPage_wf (pag s) (i64 (hmask s + 1)) Hwf)
    as (p' & newPag & Hspl & Hw1 & Hw2 & Hp1 & Hp2').
  pose proof (lor_bound (Z.land (Hash k) (hmask s)) (i64 (hmask s + 1))
                ltac:(lia) ltac:(lia)) as Hnewp.
  destruct (makeRoom_body (Hash k) need s) as [r sx] eqn:E. revert E.
  unfold makeRoom_body. unfold bind at 1, get at 1. unfold bind at 1, get at 1.
  unfold bind at 1, lift at 1. rewrite Hspl.
  unfold bind at 1, modify at 1.
  set (sA := set_pag p' s). unfold bind at 1.
  destruct (negb (Z.land (Hash k) (i64 (hmask s + 1)) =? 0)) eqn:Emoves.
  - destruct (write_page_ok sA) as (sB & HrunB & HhB & HfB & HwB & _ & HdB).
    { exact Hf. }
    { change (pagbno sA) with (pagbno s). rewrite Hpb. lia. }
    { exact Hpw. }
    destruct HhB as [b1 b2 b3 b4 b5 b6 b7 b8 b9 b10].
    unfold sA in b1, b2, b3, b4, b5, b6, b7, b8, b9, b10. fields.
    unfold bind at 1. rewrite HrunB.
    unfold bind at 1, modify at 1. unfold bind at 1, modify at 1. unfold ret at 1.
    set (sC := set_pag newPag
                 (set_pagbno (Z.lor (Z.land (Hash k) (hmask s)) (i64 (hmask s + 1))) sB)).
    destruct (makeRoom_mark_ready k kl need hbit sC) as (s' & Hres).
    { unfold sC. split; fields; try assumption.
      - exact (eq_trans (HwB PagF) Hpw).
      - exact (eq_trans (HwB DirF) Hdw).
      - rewrite b9. exact Hdb.
      - rewrite b2, b10, HdB. exact Hmx.
      - rewrite b10. exact Hlen.
      - rewrite b10. exact Hcl.
      - rewrite b10, b3. exact Hwalk.
      - rewrite b4. exact Hmask.
      - reflexivity.
      - rewrite Hp2', pairs_with_split by exact Emoves. exact Hfree. }
    { exact Hdepth. }
    { change (hmask sC) with (hmask sB). rewrite b4, Hdeep. reflexivity. }
    change (hmask sC) with (hmask sB) in Hres. rewrite b4, Emoves in Hres.
    destruct Hres as [(Hr & Hfit & Hset)|(Hr & Hfit & Hrdy)];
      rewrite Hr; intros [= <- <-]; exists s'; [left|right]; auto.
  - destruct (seekWrite_ok PagF
                (offPag (Z.lor (Z.land (Hash k) (hmask s)) (i64 (hmask s + 1))))
                newPag sA) as (sB & HrunB & HhB & HfB & HwB & _ & HoB).
    { exact Hf. }
    { unfold offPag. change PBLKSIZ with 1024. rewrite i64_small; lia. }
    { exact Hpw. }
    pose proof (HoB DirF ltac:(discriminate)) as HdB. cbn [file_of] in HdB.
    destruct HhB as [b1 b2 b3 b4 b5 b6 b7 b8 b9 b10].
    unfold sA in b1, b2, b3, b4, b5, b6, b7, b8, b9, b10. fields.
    rewrite HrunB.
    destruct (makeRoom_mark_ready k kl need hbit sB) as (s' & Hres).
    { split; fields; try assumption.
      - exact (eq_trans (HwB PagF) Hpw).
      - exact (eq_trans (HwB DirF) Hdw).
      - rewrite b9. exact Hdb.
      - rewrite b2, b10, HdB. exact Hmx.
      - rewrite b10. exact Hlen.
      - rewrite b10. exact Hcl.
      - rewrite b10, b3. exact Hwalk.
      - rewrite b4. exact Hmask.
      - reflexivity.
      - rewrite b8. exact Hw1.
      - rewrite b8, Hp1, pairs_with_split by exact Emoves. exact Hfree. }
    { exact Hdepth. }
    { rewrite b4, b7, Hdeep. exact Hpb. }
    rewrite b4, Emoves in Hres.
    destruct Hres as [(Hr & Hfit & Hset)|(Hr & Hfit & Hrdy)];
      rewrite Hr; intros [= <- <-]; exists s'; [left|right]; auto.
Qed.

(** ** The split loop *)

(** From a ready state on a page the pair does not fit on, [n] passes that
    stay inside the directory block end without error: either with room
    made, and then more passes allowed change nothing, or ready for another
    pass [n] levels deeper. *)
Lemma makeRoom_loop_ready (k : list byte) (kl : list (list byte * list byte))
    (need : Z) (n : nat) :
  forall (hbit : Z) (s : DBM),
    split_ready k kl hbit s -> hbit + Z.of_nat n <= 15 ->
    FitPair (pag s) need = Ok false ->
    exists s',
      makeRoom_loop n (Hash k) need s = (Ok None, s') /\
      ((FitPair (pag s') need = Ok true /\ settled k kl s' /\
        forall m, (n <= m)%nat -> makeRoom_loop m (Hash k) need s = (Ok None, s'))
       \/ (FitPair (pag s') need = Ok false /\
           split_ready k kl (hbit + Z.of_nat n) s')).
Proof.
  induction n as [|n IH]; intros hbit s Hready Hdepth Hfit.
  - exists s. split; [reflexivity|]. right. split; [exact Hfit|].
    replace (hbit + Z.of_nat 0) with hbit by lia. exact Hready.
  - destruct (makeRoom_body_ready k kl need hbit s Hready ltac:(lia))
      as (s1 & [(Hrun & Hfit1 & Hset)|(Hrun & Hfit1 & Hready1)]).
    + exists s1. cbn [makeRoom_loop]. unfold bind. rewrite Hrun.
      split; [reflexivity|]. left. split; [exact Hfit1|]. split; [exact Hset|].
      intros [|m] Hm; [lia|]. cbn [makeRoom_loop]. unfold bind. rewrite Hrun.
      reflexivity.
    + destruct (IH (hbit + 1) s1 Hready1 ltac:(lia) Hfit1)
        as (s' & Hloop & Hres).
      exists s'. cbn [makeRoom_loop]. unfold bind at 1. rewrite Hrun.
      split; [exact Hloop|].
      destruct Hres as [(Hfit' & Hset & Hmore)|(Hfit' & Hready')].
      * left. split; [exact Hfit'|]. split; [exact Hset|].
        intros [|m] Hm; [lia|]. cbn [makeRoom_loop]. unfold bind at 1.
        rewrite Hrun. apply Hmore. lia.
      * right. split; [exact Hfit'|].
        replace (hbit + Z.of_nat (S n)) with (hbit + 1 + Z.of_nat n) by lia.
        exact Hready'.
Qed.

(** A ready state is one a walk for the key ends on. *)
Lemma split_ready_settled (k : list byte) (kl : list (list byte * list byte))
    (hbit : Z) (s : DBM) :
  split_ready k kl hbit s -> settled k kl s.
Proof.
  intros [Hf Hpw Hdw Hdb Hmx Hlen Hcl Hwalk Hmask Hh Hpb Hwf Hkeys].
  split; try assumption.
  - apply one_block_spec. split; [exact Hdb|]. split; [exact Hlen|].
    split; [exact Hcl|]. destruct Hmx as [Hmx|(Hmx & -> & Hd)]; [left; exact Hmx|].
    right. split; [exact Hmx|]. split; [|exact Hd].
    change walk_fuel with (S 63) in Hwalk. rewrite walk_cached_step in Hwalk.
    change (0 <? DBLKSIZ * BITSIZ) with true in Hwalk. cbv iota in Hwalk.
    rewrite dir_bit_first_block in Hwalk
      by (change (DBLKSIZ * BITSIZ) with 32768; lia).
    destruct (bit_set (dirbuf s) 0); [|reflexivity].
    apply walk_cached_end in Hwalk; [lia|lia|].
    rewrite child_small by (change (DBLKSIZ * BITSIZ) with 32768; lia).
    destruct (negb _); lia.
  - destruct Hmx as [[-> _]|(-> & -> & _)].
    + exists (curbit s), hbit, (hmask s). auto.
    + exists 0, 0, (hmask s). split; [reflexivity|]. auto.
Qed.





(** ** Store followed by Fetch *)

Lemma masks_pow (n : nat) (m : Z) :
  masks !! n = Some m -> m + 1 = 2 ^ Z.of_nat n.
Proof.
  intros H. unfold masks in H.
  do 32 (destruct n as [|n]; [injection H as <-; reflexivity|]).
  discriminate.
Qed.

(** After a successful [getPage] for the key on a one-block directory the
    handle is ready for the split loop, whatever well-formed page is made
    current. *)
Lemma getPage_ready (k : list byte) (s s1 : DBM) :
  faults s = [] -> fwritable (pagf s) = true -> fwritable (dirf s) = true ->
  getPage (Hash k) s = (Ok None, s1) ->
  one_block s1 = true ->
  exists hbit,
    hmask s1 + 1 = 2 ^ hbit /\
    forall p, wf_page p = true ->
      split_ready k (pairs_with k (pairs_of p)) hbit (set_pag p s1).
Proof.
  intros Hf Hpw Hdw Hget Hone.
  destruct (proj1 (one_block_spec s1) Hone) as (Hdb & Hlen & Hcl & Hmx).
  pose proof (quiet_getPage (Hash k) s) as Hq. rewrite Hget in Hq.
  destruct Hq as [_ _ Hpw1 Hdw1 _ Hmax _ _ _]. simpl in Hpw1, Hdw1, Hmax.
  assert (Hle : maxbno s <= DBLKSIZ * BITSIZ).
  { rewrite <- Hmax. destruct Hmx as [[-> _]|[-> _]]; [lia|].
    change (DBLKSIZ * BITSIZ) with 32768. lia. }
  destruct (getPage_located (Hash k) s s1 Hf Hle Hget)
    as (dbit & hbit & mask & Hwalk & Hmask & Hcur & Hhm & Hpag & _ & Hf1 & _).
  pose proof (walk_cached_end (dirbuf s1) (maxbno s1) (Hash k) walk_fuel 0 0
                dbit hbit ltac:(lia) ltac:(lia) Hwalk) as (_ & Hh & _ & _).
  pose proof (masks_pow _ _ Hmask) as Hpow. rewrite Z2Nat.id in Hpow by lia.
  exists hbit. split; [rewrite Hhm; exact Hpow|].
  intros p Hwf.
  split; cbn [faults pagf dirf dirbno maxbno dirbuf curbit hmask pagbno pag set_pag];
    try assumption; try congruence.
  - destruct Hmx as [Hmx|(Hmx & Hb0 & Hd0)]; [left; exact Hmx|right].
    split; [exact Hmx|]. split; [|exact Hd0]. rewrite Hmx in Hwalk.
    change walk_fuel with (S 63) in Hwalk. rewrite walk_cached_step in Hwalk.
    change (0 <? 0) with false in Hwalk. cbv iota in Hwalk. congruence.
  - destruct Hmx as [[Hmx _]|(Hmx & Hb0 & _)].
    + rewrite Hmx in Hwalk. rewrite Hcur. exact Hwalk.
    + rewrite Hmx in Hwalk. change walk_fuel with (S 63) in *.
      rewrite walk_cached_step in Hwalk.
      change (0 <? 0) with false in Hwalk. cbv iota in Hwalk.
      injection Hwalk as <- <-. rewrite walk_cached_step.
      change (0 <? DBLKSIZ * BITSIZ) with true. cbv iota.
      rewrite dir_bit_first_block by (change (DBLKSIZ * BITSIZ) with 32768; lia).
      rewrite Hb0, Hcur. reflexivity.
Qed.

(** The depth the passes reach, from the bound on the mask. *)
Lemma depth_bound (hm hbit : Z) (n : nat) :
  0 <= hbit -> hm + 1 = 2 ^ hbit ->
  (hm + 1) * 2 ^ Z.of_nat n <= DBLKSIZ * BITSIZ ->
  hbit + Z.of_nat n <= 15.
Proof.
  intros Hh -> Hle. rewrite <- Z.pow_add_r in Hle by lia.
  change (DBLKSIZ * BITSIZ) with (2 ^ 15) in Hle.
  apply (Z.pow_le_mono_r_iff 2); lia.
Qed.





(** * Pages *)

(** ** Lookup *)

Lemma first_slot_key_free (k : list byte) (l : list (list byte * list byte))
    (i : Z) :
  0 < i -> (0 <? first_slot k l i) = negb (key_free k l).
Proof.
  revert i. induction l as [|[k' v] l IH]; intros i Hi; [reflexivity|].
  cbn [first_slot key_free forallb fst].
  destruct (decide (k = k')) as [->|Hne].
  - rewrite !bool_decide_eq_true_2 by reflexivity. cbn [negb andb].
    destruct (0 <? i) eqn:E; [reflexivity|zbool; lia].
  - rewrite (bool_decide_eq_false_2 (k = k')) by exact Hne.
    rewrite (bool_decide_eq_false_2 (k' = k)) by congruence.
    cbn [negb andb]. apply IH. lia.
Qed.

Lemma first_value_key_free (k : list byte) (l : list (list byte * list byte)) :
  key_free k l = true -> first_value k l = Nullitem.
Proof.
  induction l as [|[k' v] l IH]; [reflexivity|].
  cbn [key_free forallb first_value fst]. intros H.
  apply andb_true_iff in H. destruct H as [H1 H2].
  apply negb_true_iff, bool_decide_eq_false in H1.
  rewrite bool_decide_eq_false_2 by congruence. apply IH, H2.
Qed.

Lemma first_value_present (k : list byte) (l : list (list byte * list byte)) :
  key_free k l = false -> exists v, first_value k l = Some v.
Proof.
  induction l as [|[k' v] l IH]; [discriminate|].
  cbn [key_free forallb first_value fst]. intros H.
  destruct (decide (k = k')) as [->|Hne].
  - rewrite bool_decide_eq_true_2 by reflexivity. eauto.
  - rewrite bool_decide_eq_false_2 by exact Hne.
    rewrite (bool_decide_eq_false_2 (k' = k)) in H by congruence.
    apply IH, H.
Qed.

Lemma key_free_filter_out (k : list byte) (l : list (list byte * list byte)) :
  key_free k (filter (fun kv => kv.1 <> k) l) = true.
Proof.
  apply key_free_Forall. apply list.Forall_forall. intros kv Hin.
  apply list_elem_of_filter in Hin. apply Hin.
Qed.

Lemma DupPair_wf (p : Page) (k : list byte) :
  wf_page p = true -> DupPair p (Some k) = Ok (negb (key_free k (pairs_of p))).
Proof.
  intros Hwf. unfold DupPair. rewrite wf_getN by exact Hwf. cbn [rbind].
  destruct (ino p 0 =? 0) eqn:E.
  - zbool. unfold pairs_of. rewrite E. reflexivity.
  - rewrite seePair_wf by exact Hwf. change (bytes (Some k)) with k.
    cbn [rbind]. rewrite first_slot_key_free by lia. reflexivity.
Qed.

(** X3. On a well-formed page [GetPair] returns the value of the first
    pair stored under the key, in slot order, and no value when there is
    none; [DupPair] tells whether there is one. *)
Theorem lookup_finds_first_pair (p : Page) (k : list byte) :
  wf_page p = true ->
  GetPair p (Some k) = Ok (first_value k (pairs_of p)) /\
  DupPair p (Some k) = Ok (negb (key_free k (pairs_of p))) /\
  (GetPair p (Some k) = Ok Nullitem <-> DupPair p (Some k) = Ok false).
Proof.
  intros Hwf.
  pose proof (GetPair_wf p (Some k) Hwf) as Hget.
  pose proof (DupPair_wf p k Hwf) as Hdup.
  change (bytes (Some k)) with k in Hget.
  split; [exact Hget|]. split; [exact Hdup|].
  rewrite Hget, Hdup.
  destruct (key_free k (pairs_of p)) eqn:Efree.
  - rewrite first_value_key_free by exact Efree. cbn. tauto.
  - destruct (first_value_present k (pairs_of p) Efree) as [v ->].
    cbn. split; discriminate.
Qed.

Lemma lookup_finds_first_pair_witness :
  let p := pag (store_all 0 [kv "a" "1"; kv "b" "2"; kv "a" "3"] fresh) in
  GetPair p (key "a") = Ok (first_value (bytes_of "a") (pairs_of p)) /\
  DupPair p (key "a") = Ok (negb (key_free (bytes_of "a") (pairs_of p))) /\
  (GetPair p (key "a") = Ok Nullitem <-> DupPair p (key "a") = Ok false).
Proof.
  intros p. apply (lookup_finds_first_pair p (bytes_of "a")).
  vm_compute. reflexivity.
Defined.

(** ** Enumeration *)

Lemma GetNKey_wf (p : Page) (num : Z) :
  wf_page p = true -> 1 <= num < 2 ^ 62 ->
  GetNKey p num = Ok (fst <$> pairs_of p !! Z.to_nat (num - 1)).
Proof.
  intros Hwf Hnum. destruct (wf_even p Hwf) as [m Hm].
  pose proof (wf_count p Hwf) as Hn.
  unfold GetNKey. rewrite i64_small by lia.
  rewrite wf_getN by exact Hwf. cbn [rbind].
  destruct (ino p 0 =? 0) eqn:E0; cbn [orb].
  { zbool. rewrite (pairs_of_even p m Hm).
    assert (m = 0%nat) as -> by lia. reflexivity. }
  destruct (ino p 0 <? num * 2 - 1) eqn:E1.
  { zbool. rewrite lookup_ge_None_2; [reflexivity|].
    rewrite (length_pairs_of p m Hm). lia. }
  zbool. set (t := Z.to_nat (num - 1)).
  assert (Ht : (t < m)%nat) by (unfold t; lia).
  assert (Hnum' : num = Z.of_nat t + 1) by (unfold t; lia).
  rewrite (lookup_pairs_of p m t Hm Ht). cbn [fmap option_fmap option_map].
  pose proof (wf_pair_bounds p t Hwf ltac:(lia)) as (Hb1 & Hb2 & Hb3 & Hb4).
  assert (Hoff : (if 1 <? num * 2 - 1 then getIno p (num * 2 - 1 - 1)
                  else Ok PBLKSIZ) = Ok (top p (2 * Z.of_nat t))).
  { destruct (1 <? num * 2 - 1) eqn:E2; zbool.
    - rewrite wf_getIno by (try exact Hwf; lia).
      rewrite top_pos by lia. f_equal. f_equal. lia.
    - replace (2 * Z.of_nat t) with 0 by lia. rewrite top_0. reflexivity. }
  rewrite Hoff. cbn [rbind].
  rewrite wf_getIno by (try exact Hwf; lia). cbn [rbind].
  replace (num * 2 - 1) with (2 * Z.of_nat t + 1) by lia.
  rewrite slice_ok by lia. reflexivity.
Qed.



(** ** Insertion and deletion *)

(** X5. [FitPair] is the guard of [PutPair]: on a well-formed page, when
    [FitPair] accepts the size of the pair, [PutPair] returns without
    panic, the page stays well-formed and passes [ChkPage], and its pairs
    are the former ones followed by the new pair.  A pair that [Store]
    admits ([Size] at most [PAIRMAX]) fits on an empty page. *)
Theorem FitPair_guards_PutPair (p : Page) (key val : Datum) :
  wf_page p = true ->
  FitPair p (Size key + Size val) = Ok true ->
  exists p',
    PutPair p key val = Ok p' /\
    wf_page p' = true /\ ChkPage p' = Ok true /\
    pairs_of p' = pairs_of p ++ [(bytes key, bytes val)] /\
    (Size key + Size val <= PAIRMAX ->
     FitPair zero_page (Size key + Size val) = Ok true).
Proof.
  intros Hwf Hfit. rewrite wf_FitPair in Hfit by exact Hwf.
  injection Hfit as Hfit. zbool.
  destruct (PutPair_fits p key val Hwf Hfit) as (p' & Hput & Hwf' & Hpairs & _ & _).
  exists p'. split; [exact Hput|]. split; [exact Hwf'|].
  split; [apply ChkPage_wf, Hwf'|]. split; [exact Hpairs|].
  intros Hmax. rewrite wf_FitPair by apply wf_zero_page.
  rewrite ino_zero_page. change (top zero_page 0) with 1024.
  change PAIRMAX with 1008 in Hmax.
  destruct (Size key + Size val + 4 <=? 1024 - (0 + 1) * 2) eqn:E;
    [reflexivity|zbool; lia].
Qed.

Lemma FitPair_guards_PutPair_witness :
  let p := pag (store_all 0 [kv "a" "1"] fresh) in
  exists p',
    PutPair p (key "b") (key "2") = Ok p' /\
    wf_page p' = true /\ ChkPage p' = Ok true /\
    pairs_of p' = pairs_of p ++ [(bytes (key "b"), bytes (key "2"))] /\
    (Size (key "b") + Size (key "2") <= PAIRMAX ->
     FitPair zero_page (Size (key "b") + Size (key "2")) = Ok true).
Proof.
  intros p. apply (FitPair_guards_PutPair p (key "b") (key "2"));
    vm_compute; reflexivity.
Defined.

Lemma filter_other_keys (k : list byte) (l : list (list byte * list byte)) :
  key_free k l = true -> filter (fun kv => kv.1 <> k) l = l.
Proof.
  intros H. apply key_free_Forall in H.
  induction H as [|kv l Hne _ IH]; [reflexivity|].
  rewrite filter_cons. destruct (decide (kv.1 <> k)) as [_|Hn]; [|contradiction].
  rewrite IH. reflexivity.
Qed.

Lemma DelPair_ends (p : Page) (k : list byte) :
  wf_page p = true -> key_at_ends k (pairs_of p) = true ->
  exists p',
    DelPair p (Some k) = Ok (p', negb (key_free k (pairs_of p))) /\
    wf_page p' = true /\
    pairs_of p' = filter (fun kv => kv.1 <> k) (pairs_of p) /\
    (key_free k (pairs_of p) = true -> p' = p).
Proof.
  intros Hwf Hends. unfold key_at_ends in Hends.
  apply orb_true_iff in Hends. destruct Hends as [Hends|Hlast].
  apply orb_true_iff in Hends. destruct Hends as [Hfree|Hfirst].
  - exists p. rewrite Hfree. split; [|split; [exact Hwf|split]].
    + apply (DelPair_absent p (Some k) Hwf). apply key_free_Forall, Hfree.
    + rewrite filter_other_keys by exact Hfree. reflexivity.
    + reflexivity.
  - destruct (pairs_of p) as [|[k' v] rest] eqn:El; [discriminate|].
    apply andb_true_iff in Hfirst. destruct Hfirst as [Hk Hrest].
    apply bool_decide_eq_true in Hk. subst k'.
    destruct (DelPair_first p (Some k) rest v Hwf El) as (p' & Hrun & Hwf' & Hp').
    exists p'. cbn [key_free forallb fst].
    rewrite bool_decide_eq_true_2 by reflexivity. cbn [negb andb].
    split; [exact Hrun|]. split; [exact Hwf'|]. split; [|discriminate].
    rewrite Hp', filter_cons.
    destruct (decide ((k, v).1 <> k)) as [Hn|_]; [exfalso; apply Hn; reflexivity|].
    rewrite filter_other_keys by exact Hrest. reflexivity.
  - destruct (reverse (pairs_of p)) as [|[k' v] rest] eqn:El; [discriminate|].
    apply andb_true_iff in Hlast. destruct Hlast as [Hk Hrest].
    apply bool_decide_eq_true in Hk. subst k'.
    assert (Hl : pairs_of p = reverse rest ++ [(k, v)]).
    { rewrite <- (reverse_involutive (pairs_of p)), El, reverse_cons. reflexivity. }
    assert (Hfree : key_free k (reverse rest) = true).
    { apply key_free_Forall, Forall_reverse, key_free_Forall, Hrest. }
    destruct (DelPair_last p (Some k) (reverse rest) v Hwf Hl) as (p' & Hrun & Hwf' & Hp').
    { apply key_free_Forall, Hfree. }
    assert (Hpresent : key_free k (pairs_of p) = false).
    { rewrite Hl. unfold key_free. rewrite forallb_app. cbn [forallb fst].
      rewrite bool_decide_eq_true_2 by reflexivity. cbn [negb andb].
      apply andb_false_r. }
    exists p'. rewrite Hpresent. cbn [negb].
    split; [exact Hrun|]. split; [exact Hwf'|]. split; [|discriminate].
    rewrite Hp', Hl, list.filter_app, filter_other_keys by exact Hfree.
    rewrite filter_cons.
    destruct (decide ((k, v).1 <> k)) as [Hn|_]; [exfalso; apply Hn; reflexivity|].
    rewrite filter_nil, app_nil_r. reflexivity.
Qed.

Lemma first_value_filter_other (k k' : list byte)
    (l : list (list byte * list byte)) :
  k' <> k ->
  first_value k' (filter (fun kv => kv.1 <> k) l) = first_value k' l.
Proof.
  intros Hne. induction l as [|[k0 v] l IH]; [reflexivity|].
  rewrite filter_cons. cbn [fst first_value].
  destruct (decide (k0 <> k)) as [Hk|Hk].
  - cbn [first_value]. rewrite IH. reflexivity.
  - rewrite bool_decide_eq_false_2; [exact IH|].
    intros ->. apply Hk, Hne.
Qed.

(** X6. [DelPair] on a well-formed page: a key the page does not hold
    leaves the page as it is and is reported absent; a key held once, by
    the first or the last pair, is removed, the page stays well-formed, the
    other pairs keep their order, and a lookup of any other key finds what
    it found before. *)
Theorem DelPair_removes_end_pair (p : Page) (k : list byte) :
  wf_page p = true -> key_at_ends k (pairs_of p) = true ->
  exists p',
    DelPair p (Some k) = Ok (p', negb (key_free k (pairs_of p))) /\
    wf_page p' = true /\
    pairs_of p' = filter (fun kv => kv.1 <> k) (pairs_of p) /\
    (key_free k (pairs_of p) = true -> p' = p) /\
    GetPair p' (Some k) = Ok Nullitem /\
    (forall k', k' <> k -> GetPair p' (Some k') = GetPair p (Some k')).
Proof.
  intros Hwf Hends.
  destruct (DelPair_ends p k Hwf Hends) as (p' & Hdel & Hwf' & Hp' & Hsame).
  exists p'. split; [exact Hdel|]. split; [exact Hwf'|].
  split; [exact Hp'|]. split; [exact Hsame|]. split.
  - rewrite (GetPair_wf p' (Some k) Hwf'), Hp'. change (bytes (Some k)) with k.
    rewrite first_value_key_free by apply key_free_filter_out. reflexivity.
  - intros k' Hne.
    rewrite (GetPair_wf p' (Some k') Hwf'), (GetPair_wf p (Some k') Hwf), Hp'.
    change (bytes (Some k')) with k'.
    rewrite first_value_filter_other by exact Hne. reflexivity.
Qed.

Lemma DelPair_removes_end_pair_witness :
  let p := pag (store_all 0 [kv "a" "1"; kv "b" "2"; kv "c" "3"] fresh) in
  exists p',
    DelPair p (key "c") = Ok (p', negb (key_free (bytes_of "c") (pairs_of p))) /\
    wf_page p' = true /\
    pairs_of p' = filter (fun kv => kv.1 <> bytes_of "c") (pairs_of p) /\
    (key_free (bytes_of "c") (pairs_of p) = true -> p' = p) /\
    GetPair p' (Some (bytes_of "c")) = Ok Nullitem /\
    (forall k', k' <> bytes_of "c" -> GetPair p' (Some k') = GetPair p (Some k')).
Proof.
  intros p. apply (DelPair_removes_end_pair p (bytes_of "c"));
    vm_compute; reflexivity.
Defined.

(** * The directory and the page cache *)

(** X7. [setDBit] then [getDBit], on the cached first block of the
    directory and without device fault: the bit set reads back as set,
    every other bit of the block reads as before, and the bit lies below
    [maxbno] afterwards. *)
Theorem setDBit_then_getDBit (d : Z) (s : DBM) :
  faults s = [] -> fwritable (dirf s) = true -> dirbno s = 0 ->
  length (dirbuf s) = Z.to_nat DBLKSIZ ->
  0 <= maxbno s <= DBLKSIZ * BITSIZ ->
  0 <= d < DBLKSIZ * BITSIZ ->
  exists s',
    setDBit d s = (Ok None, s') /\
    result (getDBit d) s' = Ok true /\
    (forall d', 0 <= d' < DBLKSIZ * BITSIZ -> d' <> d ->
                result (getDBit d') s' = result (getDBit d') s) /\
    d < maxbno s'.
Proof.
  intros Hf Hw Hdb Hlen Hmx Hd.
  destruct (setDBit_ok d s Hf Hw Hdb Hd) as (s' & Hrun & Hh & _ & _).
  destruct Hh as [h1 h2 h3 h4 h5 h6 h7 h8 h9 h10]. fields.
  assert (Hidx : (Z.to_nat (d / 8) < length (dirbuf s))%nat).
  { rewrite Hlen. change (DBLKSIZ * BITSIZ) with 32768 in Hd.
    change DBLKSIZ with 4096.
    assert (d / 8 < 4096) by (apply Z.div_lt_upper_bound; lia).
    assert (0 <= d / 8) by (apply Z.div_pos; lia). lia. }
  exists s'. split; [exact Hrun|]. split; [|split].
  - unfold result. rewrite getDBit_cached by (rewrite first_block, h9; auto).
    cbn [fst]. rewrite dir_bit_first_block, h10, bit_set_set_bit by (auto; lia).
    destruct (Z.eq_dec d d); [reflexivity|contradiction].
  - intros d' Hd' Hne. unfold result.
    rewrite !getDBit_cached by (rewrite first_block; auto; rewrite h9; auto).
    cbn [fst]. rewrite !dir_bit_first_block, h10, bit_set_set_bit by (auto; lia).
    destruct (Z.eq_dec d' d); [contradiction|reflexivity].
  - rewrite h2. change (DBLKSIZ * BITSIZ) with 32768 in *.
    destruct (maxbno s <=? d) eqn:E; zbool; [rewrite i64_small; lia|lia].
Qed.

Lemma setDBit_then_getDBit_witness :
  exists s',
    setDBit 5 fresh = (Ok None, s') /\
    result (getDBit 5) s' = Ok true /\
    (forall d', 0 <= d' < DBLKSIZ * BITSIZ -> d' <> 5 ->
                result (getDBit d') s' = result (getDBit d') fresh) /\
    5 < maxbno s'.
Proof.
  apply (setDBit_then_getDBit 5 fresh).
  - reflexivity.
  - reflexivity.
  - reflexivity.
  - vm_compute. reflexivity.
  - vm_compute. split; discriminate.
  - vm_compute. split; [discriminate|reflexivity].
Defined.

(** X8. A successful [getPage] settles the handle: [hmask] is one less than
    a power of two, the page number is the hash under the mask, and a second
    [getPage] for the same hash finds the page cached and changes nothing,
    not even the offsets of the files.  (Directory of at most one block, no
    device fault.) *)
Theorem getPage_settles (hash : Z) (s s1 : DBM) :
  faults s = [] -> maxbno s <= DBLKSIZ * BITSIZ ->
  getPage hash s = (Ok None, s1) ->
  (exists hbit, 0 <= hbit < 32 /\ hmask s1 + 1 = 2 ^ hbit) /\
  pagbno s1 = Z.land hash (hmask s1) /\
  0 <= pagbno s1 <= hmask s1 /\
  getPage hash s1 = (Ok None, s1).
Proof.
  intros Hf Hmx Hget.
  destruct (getPage_located hash s s1 Hf Hmx Hget)
    as (dbit & hbit & mask & Hwalk & Hmask & Hcur & Hhm & Hpag & Hdir & Hf1 & Hm1).
  pose proof (masks_bound _ _ Hmask) as Hmb.
  pose proof (masks_pow _ _ Hmask) as Hpow.
  assert (Hh : 0 <= hbit).
  { apply (walk_cached_end (dirbuf s1) (maxbno s1) hash walk_fuel 0 0 dbit hbit);
      [lia|lia|exact Hwalk]. }
  rewrite Z2Nat.id in Hpow by lia.
  split; [|split; [|split]].
  - exists hbit. split; [|rewrite Hhm; exact Hpow].
    split; [exact Hh|]. apply lookup_lt_Some in Hmask.
    change (length masks) with 32%nat in Hmask. lia.
  - rewrite Hhm. exact Hpag.
  - rewrite Hpag, Hhm. apply land_mask_bound. lia.
  - rewrite (getPage_again hash s1 dbit hbit mask); try assumption.
    + f_equal. destruct s1. cbn in Hcur, Hhm. subst. reflexivity.
    + lia.
Qed.

Lemma getPage_settles_witness :
  let s := store_all StoreREPLACE
             [(key "a", big "p" 400); (key "b", big "q" 400); (key "c", big "r" 400)]
             fresh in
  let s1 := after (getPage (Hash (bytes_of "a"))) s in
  (exists hbit, 0 <= hbit < 32 /\ hmask s1 + 1 = 2 ^ hbit) /\
  pagbno s1 = Z.land (Hash (bytes_of "a")) (hmask s1) /\
  0 <= pagbno s1 <= hmask s1 /\
  getPage (Hash (bytes_of "a")) s1 = (Ok None, s1).
Proof.
  intros s s1. apply (getPage_settles (Hash (bytes_of "a")) s s1).
  - vm_compute. reflexivity.
  - vm_compute. discriminate.
  - vm_compute. reflexivity.
Defined.

(** * Delete, and Store with StoreSEEDUPS *)

(** A fetch on a handle already settled on the page of the key. *)
Lemma Fetch_settled (k : list byte) (s : DBM) (dbit hbit mask : Z) :
  dirbno s = 0 \/ maxbno s <= 0 -> maxbno s <= DBLKSIZ * BITSIZ ->
  walk_cached walk_fuel (dirbuf s) (maxbno s) (Hash k) 0 0 = Ok (dbit, hbit) ->
  masks !! Z.to_nat hbit = Some mask ->
  pagbno s = Z.land (Hash k) mask ->
  wf_page (pag s) = true ->
  Fetch (Some k) s
  = (Ok (first_value k (pairs_of (pag s)), None),
     set_hmask mask (set_curbit dbit s)).
Proof.
  intros Hdir Hmx Hwalk Hmask Hpag Hwf.
  unfold Fetch. cbn [bad]. unfold bind at 1.
  change (exHash (Some k)) with (Hash k).
  rewrite (getPage_again (Hash k) s dbit hbit mask) by assumption.
  unfold bind, get, lift, ret. cbn [pag set_hmask set_curbit].
  rewrite GetPair_wf by exact Hwf. reflexivity.
Qed.

(** X9. [Delete] of a key that the located page holds at most once, as its
    first or its last pair: the result tells whether the key was there, the
    other pairs of the page stay, a subsequent [Fetch] of the key returns
    no value, and when the key was absent nothing is written.  (Store open
    for writing, directory of at most one block, no device fault.) *)
Theorem Delete_then_Fetch_absent (k : list byte) (s s1 : DBM) :
  rdonly s = false -> fwritable (pagf s) = true -> faults s = [] ->
  maxbno s <= DBLKSIZ * BITSIZ ->
  getPage (Hash k) s = (Ok None, s1) ->
  wf_page (pag s1) = true ->
  key_at_ends k (pairs_of (pag s1)) = true ->
  exists s2 s3,
    Delete (Some k) s
    = (Ok (negb (key_free k (pairs_of (pag s1))), None), s2) /\
    pairs_of (pag s2) = filter (fun kv => kv.1 <> k) (pairs_of (pag s1)) /\
    Fetch (Some k) s2 = (Ok (Nullitem, None), s3) /\
    (key_free k (pairs_of (pag s1)) = true -> reads_only s s2).
Proof.
  intros Hro Hw Hf Hmx Hget Hwf Hends.
  destruct (getPage_located (Hash k) s s1 Hf Hmx Hget)
    as (dbit & hbit & mask & Hwalk & Hmask & _ & _ & Hpag & Hdir & Hf1 & Hm1).
  pose proof (quiet_getPage (Hash k) s) as Hq. rewrite Hget in Hq.
  cbn [snd] in Hq. pose proof Hq as [_ _ Hpw _ _ _ _ _ _].
  destruct (DelPair_ends (pag s1) k Hwf Hends) as (p' & Hdel & Hwf' & Hp' & Hsame).
  assert (Hrun : Delete (Some k) s
                 = (let! _ := modify (set_pag p') in
                    if negb (key_free k (pairs_of (pag s1)))
                    then let! err := write_page in
                         match err with
                         | Some e => ret (false, Some e)
                         | None => ret (true, None)
                         end
                    else ret (false, None))%dbm s1).
  { unfold Delete. cbn [bad]. unfold bind at 1, get at 1. rewrite Hro.
    change (exHash (Some k)) with (Hash k). unfold bind at 1. rewrite Hget.
    unfold bind at 1, get at 1. unfold bind at 1, lift at 1. rewrite Hdel.
    reflexivity. }
  rewrite Hrun. unfold bind at 1, modify at 1.
  destruct (key_free k (pairs_of (pag s1))) eqn:Efree; cbn [negb].
  - specialize (Hsame eq_refl). subst p'.
    exists (set_pag (pag s1) s1). eexists.
    split; [reflexivity|]. split; [exact Hp'|]. split.
    + assert (Hmx1 : maxbno s1 <= DBLKSIZ * BITSIZ) by (rewrite Hm1; exact Hmx).
      rewrite (Fetch_settled k (set_pag (pag s1) s1) dbit hbit mask
                 Hdir Hmx1 Hwalk Hmask Hpag Hwf).
      cbn [pag set_pag]. rewrite first_value_key_free by exact Efree.
      reflexivity.
    + intros _. eapply reads_only_trans; [exact Hq|apply cache_pag].
  - destruct (write_then_Fetch k s1 (set_pag p' s1))
      as (s2 & s3 & Hwrite & Hpag2 & Hfetch); try assumption.
    { rewrite Hm1. exact Hmx. }
    { exists dbit, hbit, mask. auto. }
    { rewrite Hpw. exact Hw. }
    { split; reflexivity. }
    { reflexivity. }
    exists s2, s3. unfold bind at 1. rewrite Hwrite.
    split; [reflexivity|]. cbn [pag set_pag] in Hpag2, Hfetch.
    split; [rewrite Hpag2; exact Hp'|]. split; [|discriminate].
    rewrite Hfetch, Hp', first_value_key_free by apply key_free_filter_out.
    reflexivity.
Qed.

Lemma Delete_then_Fetch_absent_witness :
  let s := store_all StoreREPLACE [kv "a" "1"; kv "b" "2"; kv "c" "3"] fresh in
  let s1 := after (getPage (Hash (bytes_of "a"))) s in
  exists s2 s3,
    Delete (Some (bytes_of "a")) s
    = (Ok (negb (key_free (bytes_of "a") (pairs_of (pag s1))), None), s2) /\
    pairs_of (pag s2)
    = filter (fun kv => kv.1 <> bytes_of "a") (pairs_of (pag s1)) /\
    Fetch (Some (bytes_of "a")) s2 = (Ok (Nullitem, None), s3) /\
    (key_free (bytes_of "a") (pairs_of (pag s1)) = true -> reads_only s s2).
Proof.
  intros s s1. apply (Delete_then_Fetch_absent (bytes_of "a") s s1).
  - reflexivity.
  - reflexivity.
  - vm_compute. reflexivity.
  - vm_compute. discriminate.
  - vm_compute. reflexivity.
  - vm_compute. reflexivity.
  - vm_compute. reflexivity.
Defined.

(** X10. [Store] with [StoreSEEDUPS] of a key the located page already
    holds returns success without touching the page or writing to a file;
    the handle is left as [getPage] left it, and a subsequent [Fetch]
    returns the value that was there. *)
Theorem Store_seedups_keeps_pair (k v0 : list byte) (val : Datum) (s s1 : DBM) :
  Size (Some k) + Size val <= PAIRMAX ->
  rdonly s = false -> faults s = [] -> maxbno s <= DBLKSIZ * BITSIZ ->
  getPage (Hash k) s = (Ok None, s1) ->
  wf_page (pag s1) = true ->
  first_value k (pairs_of (pag s1)) = Some v0 ->
  Store (Some k) val StoreSEEDUPS s = (Ok (true, None), s1) /\
  reads_only s s1 /\
  Fetch (Some k) s1 = (Ok (Some v0, None), s1).
Proof.
  intros Hneed Hro Hf Hmx Hget Hwf Hv0.
  destruct (getPage_located (Hash k) s s1 Hf Hmx Hget)
    as (dbit & hbit & mask & Hwalk & Hmask & Hcur & Hhm & Hpag & Hdir & Hf1 & Hm1).
  pose proof (quiet_getPage (Hash k) s) as Hq. rewrite Hget in Hq.
  cbn [snd] in Hq.
  assert (Hdup : DupPair (pag s1) (Some k) = Ok true).
  { rewrite DupPair_wf by exact Hwf.
    destruct (key_free k (pairs_of (pag s1))) eqn:Efree; [|reflexivity].
    rewrite first_value_key_free in Hv0 by exact Efree. discriminate. }
  split; [|split; [exact Hq|]].
  - unfold Store. cbn [bad]. unfold bind at 1, get at 1. rewrite Hro.
    assert (Hsz : 0 <= Size (Some k) + Size val) by (unfold Size; lia).
    destruct ((Size (Some k) + Size val <? 0) || (PAIRMAX <? Size (Some k) + Size val))
      eqn:E; [apply orb_true_iff in E; destruct E; zbool; lia|].
    change (exHash (Some k)) with (Hash k). unfold bind at 1. rewrite Hget.
    unfold bind at 1, get at 1. unfold bind at 1.
    change (StoreSEEDUPS =? StoreREPLACE) with false.
    change (StoreSEEDUPS =? StoreSEEDUPS) with true. cbv iota.
    unfold lift. rewrite Hdup. reflexivity.
  - assert (Hmx1 : maxbno s1 <= DBLKSIZ * BITSIZ) by (rewrite Hm1; exact Hmx).
    rewrite (Fetch_settled k s1 dbit hbit mask Hdir Hmx1 Hwalk Hmask Hpag Hwf).
    rewrite Hv0. f_equal. destruct s1. cbn in Hcur, Hhm. subst. reflexivity.
Qed.

Lemma Store_seedups_keeps_pair_witness :
  let s := store_all StoreREPLACE [kv "a" "1"; kv "b" "2"] fresh in
  let s1 := after (getPage (Hash (bytes_of "a"))) s in
  Store (Some (bytes_of "a")) (Some (bytes_of "9")) StoreSEEDUPS s
  = (Ok (true, None), s1) /\
  reads_only s s1 /\
  Fetch (Some (bytes_of "a")) s1 = (Ok (Some (bytes_of "1"), None), s1).
Proof.
  intros s s1.
  apply (Store_seedups_keeps_pair (bytes_of "a") (bytes_of "1")
           (Some (bytes_of "9")) s s1).
  - vm_compute. discriminate.
  - reflexivity.
  - vm_compute. reflexivity.
  - vm_compute. discriminate.
  - vm_compute. reflexivity.
  - vm_compute. reflexivity.
  - vm_compute. reflexivity.
Defined.

(** * Iteration, and handles opened read-only *)

Lemma files_kept_refl (s : DBM) : files_kept s s.
Proof. split; try reflexivity. exists []. split; [reflexivity|constructor]. Qed.

Lemma files_kept_trans (s1 s2 s3 : DBM) :
  files_kept s1 s2 -> files_kept s2 s3 -> files_kept s1 s3.
Proof.
  intros [a1 a2 a3 a4 a5 a6 [n1 [e1 f1]]] [b1 b2 b3 b4 b5 b6 [n2 [e2 f2]]].
  split; try congruence.
  exists (n2 ++ n1). split.
  - rewrite e2, e1, app_assoc. reflexivity.
  - apply Forall_app. split; assumption.
Qed.

Lemma reads_only_kept (s s' : DBM) : reads_only s s' -> files_kept s s'.
Proof. intros [a1 a2 a3 a4 a5 a6 _ _ a9]. split; assumption. Qed.

Lemma still_quiet {A} (m : M A) : quiet m -> still m.
Proof. intros H s. apply reads_only_kept, H. Qed.

Lemma still_bind {A B} (m : M A) (f : A -> M B) :
  still m -> (forall a, still (f a)) -> still (bind m f).
Proof.
  intros Hm Hf s. unfold bind. specialize (Hm s).
  destruct (m s) as [[a| |] s1]; cbn [snd] in *; try assumption.
  eapply files_kept_trans; [exact Hm|apply Hf].
Qed.

Lemma still_if {A} (b : bool) (m1 m2 : M A) :
  still m1 -> still m2 -> still (if b then m1 else m2).
Proof. destruct b; auto. Qed.

Lemma still_blkptr x : still (modify (set_blkptr x)).
Proof.
  intros s. split; try reflexivity. exists []. split; [reflexivity|constructor].
Qed.

Lemma still_keyptr x : still (modify (set_keyptr x)).
Proof.
  intros s. split; try reflexivity. exists []. split; [reflexivity|constructor].
Qed.

Lemma still_getNext_body : still getNext_body.
Proof.
  unfold getNext_body.
  apply still_bind; [apply still_quiet, quiet_get|]. intros kp.
  apply still_bind; [apply still_keyptr|]. intros _.
  apply still_bind; [apply still_quiet, quiet_get|]. intros p.
  apply still_bind; [apply still_quiet, quiet_lift|]. intros [k|].
  { apply still_quiet, quiet_ret. }
  apply still_bind; [apply still_keyptr|]. intros _.
  apply still_bind; [apply still_quiet, quiet_get|]. intros pb.
  apply still_bind; [apply still_quiet, quiet_get|]. intros bp.
  apply still_bind.
  { apply still_if; [|apply still_quiet, quiet_ret].
    apply still_bind; [apply still_blkptr|]. intros _.
    apply still_quiet, quiet_sys_seek. }
  intros [e|]; [apply still_quiet, quiet_ret|].
  apply still_bind; [apply still_quiet, quiet_get|]. intros bp'.
  apply still_bind; [apply still_quiet, quiet_modify, cache_pagbno|]. intros _.
  apply still_bind; [apply still_quiet, quiet_get|]. intros p'.
  apply still_bind; [apply still_quiet, quiet_sys_read|]. intros [got e].
  apply still_bind; [apply still_quiet, quiet_modify, cache_pag|]. intros _.
  destruct e as [[| | |]|]; try apply still_quiet, quiet_ret.
  apply still_bind; [apply still_quiet, quiet_get|]. intros p''.
  apply still_bind; [apply still_quiet, quiet_lift|]. intros ok.
  apply still_if; apply still_quiet, quiet_ret.
Qed.

Lemma still_getNext_loop (fuel : nat) : still (getNext_loop fuel).
Proof.
  induction fuel as [|fuel IH]; cbn [getNext_loop].
  - apply still_quiet, quiet_lift.
  - apply still_bind; [apply still_getNext_body|].
    intros [k e|]; [apply still_quiet, quiet_ret|exact IH].
Qed.

Lemma still_getNext : still getNext.
Proof. intros s. unfold getNext. apply still_getNext_loop. Qed.

Lemma still_FirstKey : still FirstKey.
Proof.
  unfold FirstKey.
  apply still_bind; [apply still_quiet, quiet_get|]. intros buf.
  apply still_bind; [apply still_quiet, quiet_seekRead|]. intros [buf' err].
  apply still_bind; [apply still_quiet, quiet_modify, cache_pag|]. intros _.
  destruct err; [apply still_quiet, quiet_ret|].
  apply still_bind; [apply still_quiet, quiet_modify, cache_pagbno|]. intros _.
  apply still_bind; [apply still_blkptr|]. intros _.
  apply still_bind; [apply still_keyptr|]. intros _.
  apply still_getNext.
Qed.

Lemma kept_no_writes {A} (m : M A) (s : DBM) (f : fileid) :
  files_kept s (after m s) -> writes f (events m s) = 0%nat.
Proof.
  intros [_ _ _ _ _ _ [new [Ht Hnew]]].
  rewrite (events_of_trace m s new Ht).
  apply writes_none, List.Forall_rev.
  eapply List.Forall_impl; [|exact Hnew].
  intros e [H1 H2]. destruct f; assumption.
Qed.

(** X11. Whatever the state of the handle and whatever the outcome,
    [FirstKey] and [NextKey] leave the bytes of both files as they were and
    perform no write. *)
Theorem iteration_does_not_write (s : DBM) :
  files_kept s (after FirstKey s) /\
  files_kept s (after NextKey s) /\
  writes PagF (events FirstKey s) = 0%nat /\
  writes DirF (events FirstKey s) = 0%nat /\
  writes PagF (events NextKey s) = 0%nat /\
  writes DirF (events NextKey s) = 0%nat.
Proof.
  pose proof (still_FirstKey s) as H1.
  pose proof (still_getNext s) as H2.
  split; [exact H1|]. split; [exact H2|].
  repeat split; apply kept_no_writes; assumption.
Qed.

Lemma still_Fetch key : still (Fetch key).
Proof.
  apply still_quiet. unfold Fetch. apply quiet_if; [apply quiet_ret|].
  apply quiet_bind; [apply quiet_getPage|]. intros [e|]; [apply quiet_ret|].
  apply quiet_bind; [apply quiet_get|]. intros p.
  apply quiet_bind; [apply quiet_lift|]. intros v. apply quiet_ret.
Qed.

Lemma run_call_rdonly (c : call) (s : DBM) :
  rdonly s = true -> files_kept s (run_call c s).
Proof.
  intros Hro. destruct c as [k|k v fl|k| |]; cbn [run_call].
  - apply still_Fetch.
  - unfold after, Store. destruct (bad k); [apply files_kept_refl|].
    unfold bind, get. rewrite Hro. apply files_kept_refl.
  - unfold after, Delete. destruct (bad k); [apply files_kept_refl|].
    unfold bind, get. rewrite Hro. apply files_kept_refl.
  - apply still_FirstKey.
  - apply still_getNext.
Qed.

(** X12. A handle with [rdonly] set, and so a store opened with
    [O_RDONLY], is never written: whatever sequence of calls of the API is
    run on it, the bytes of both files stay as they were and no write is
    attempted. *)
Theorem read_only_store_is_never_written (l : list call) (s : DBM) :
  rdonly s = true ->
  files_kept s (run_calls l s) /\
  forall dir_bytes pag_bytes,
    files_kept (Prep dir_bytes pag_bytes O_RDONLY)
      (run_calls l (Prep dir_bytes pag_bytes O_RDONLY)).
Proof.
  assert (H : forall l s, rdonly s = true -> files_kept s (run_calls l s)).
  { clear. induction l as [|c l IH]; intros s Hro; [apply files_kept_refl|].
    cbn [run_calls fold_left]. fold (run_calls l (run_call c s)).
    pose proof (run_call_rdonly c s Hro) as Hc.
    eapply files_kept_trans; [exact Hc|]. apply IH.
    rewrite (fk_rdonly _ _ Hc). exact Hro. }
  intros Hro. split; [apply H, Hro|].
  intros d p. apply H. reflexivity.
Qed.

Lemma read_only_store_is_never_written_witness :
  let s := Prep [] (fdata (pagf (store_all 0 [kv "a" "1"] fresh))) O_RDONLY in
  let l := [CallStore (key "b") (key "2") 0; CallDelete (key "a"); CallFirstKey] in
  files_kept s (run_calls l s) /\
  forall dir_bytes pag_bytes,
    files_kept (Prep dir_bytes pag_bytes O_RDONLY)
      (run_calls l (Prep dir_bytes pag_bytes O_RDONLY)).
Proof.
  intros s l. apply (read_only_store_is_never_written l s). reflexivity.
Defined.

(** ** Reading a block of a file *)

Lemma list_inserts_all {A} (got buf : list A) :
  length got = length buf -> list_inserts 0 got buf = got.
Proof.
  intros Hlen. apply list_eq. intros i.
  destruct (decide (i < length got)%nat) as [Hlt|Hge].
  - rewrite list_lookup_inserts by lia. f_equal. lia.
  - rewrite !lookup_ge_None_2; [reflexivity|lia|rewrite length_inserts; lia].
Qed.

(** Without faults [seekRead] at a non-negative offset returns no error and
    the buffer with the bytes of the file from that offset over its head;
    the handle and the bytes of the files stay. *)
Lemma seekRead_content (f : fileid) (off : Z) (buf : list byte) (s : DBM) :
  faults s = [] -> 0 <= off ->
  exists s',
    seekRead f off buf s
    = (Ok (list_inserts 0
             (take (length buf) (drop (Z.to_nat off) (fdata (file_of f s)))) buf,
           None), s') /\
    same_handle s s' /\ faults s' = [] /\
    (forall g, fdata (file_of g s') = fdata (file_of g s)) /\
    (forall g, fwritable (file_of g s') = fwritable (file_of g s)).
Proof.
  intros Hs Hoff. unfold seekRead, bind. rewrite sys_seek_calm by assumption.
  unfold sys_read, bind, next_fault.
  assert (Hfl : forall x, faults (log (EvSeek f off) (set_file f x s)) = [])
    by (intros x; destruct f; exact Hs).
  rewrite Hfl.
  assert (Hfile : forall x, file_of f (log (EvSeek f off) (set_file f x s)) = x)
    by (intros x; destruct f; reflexivity).
  rewrite Hfile. cbn [fdata fpos fwritable].
  destruct (take (length buf) (drop (Z.to_nat off) (fdata (file_of f s))))
    as [|b got] eqn:E.
  - destruct (length buf) eqn:El; eexists; (split; [reflexivity|]);
      (split; [destruct f; split; reflexivity|]);
      (split; [apply Hfl|]);
      split; intros g; destruct f, g; reflexivity.
  - eexists. split; [reflexivity|].
    split; [destruct f; split; reflexivity|].
    split; [destruct f; exact Hs|].
    split; intros g; destruct f, g; reflexivity.
Qed.

(** * Iteration over the first page *)

(** [getNext] while the cursor is inside the current page. *)
Lemma getNext_found (s : DBM) (kv : list byte * list byte) :
  wf_page (pag s) = true -> 0 <= keyptr s ->
  pairs_of (pag s) !! Z.to_nat (keyptr s) = Some kv ->
  getNext s = (Ok (Some kv.1, None), set_keyptr (keyptr s + 1) s).
Proof.
  intros Hwf Hk Hkv.
  pose proof (wf_count (pag s) Hwf) as Hn.
  destruct (wf_even (pag s) Hwf) as [m Hm].
  pose proof (lookup_lt_Some _ _ _ Hkv) as Hlt.
  rewrite (length_pairs_of (pag s) m Hm) in Hlt.
  unfold getNext. cbn [getNext_loop]. unfold bind at 1.
  unfold getNext_body. unfold bind at 1, get at 1.
  unfold bind at 1, modify at 1. unfold bind at 1, get at 1.
  unfold bind at 1, lift at 1. cbn [pag set_keyptr].
  rewrite i64_small by lia.
  rewrite (GetNKey_wf (pag s) (keyptr s + 1) Hwf) by lia.
  replace (keyptr s + 1 - 1) with (keyptr s) by lia.
  rewrite Hkv. reflexivity.
Qed.

Lemma nth_key_run (s : DBM) (j : nat) :
  faults s = [] -> length (pag s) = Z.to_nat PBLKSIZ ->
  wf_page (take (Z.to_nat PBLKSIZ) (fdata (pagf s))) = true ->
  (j < length (pairs_of (take (Z.to_nat PBLKSIZ) (fdata (pagf s)))))%nat ->
  exists s',
    nth_key j s
    = (Ok (fst <$> pairs_of (take (Z.to_nat PBLKSIZ) (fdata (pagf s))) !! j, None),
       s') /\
    pag s' = take (Z.to_nat PBLKSIZ) (fdata (pagf s)) /\
    keyptr s' = Z.of_nat j + 1.
Proof.
  intros Hf Hlen Hwf. set (p0 := take (Z.to_nat PBLKSIZ) (fdata (pagf s))) in *.
  induction j as [|j IH]; intros Hj.
  - destruct (lookup_lt_is_Some_2 (pairs_of p0) 0 Hj) as [kv Hkv].
    cbn [nth_key]. unfold FirstKey. unfold bind at 1, get at 1.
    destruct (seekRead_content PagF (offPag 0) (pag s) s Hf ltac:(vm_compute; discriminate))
      as (s1 & Hrun & Hh & _ & _ & _).
    unfold bind at 1. rewrite Hrun.
    change (Z.to_nat (offPag 0)) with 0%nat. rewrite drop_0, Hlen.
    cbn [file_of]. fold p0.
    rewrite list_inserts_all
      by (rewrite Hlen; apply (wf_length p0 Hwf)).
    unfold bind at 1, modify at 1. unfold bind at 1, modify at 1.
    unfold bind at 1, modify at 1. unfold bind at 1, modify at 1.
    match goal with
    | |- context [getNext ?st] =>
        rewrite (getNext_found st kv); [|exact Hwf|cbn; lia|exact Hkv]
    end.
    eexists. rewrite Hkv. split; [reflexivity|]. split; reflexivity.
  - destruct (IH ltac:(lia)) as (s1 & Hrun & Hpag & Hkp).
    destruct (lookup_lt_is_Some_2 (pairs_of p0) (S j) Hj) as [kv Hkv].
    cbn [nth_key]. unfold bind. rewrite Hrun. unfold NextKey.
    rewrite (getNext_found s1 kv).
    + eexists. rewrite Hkv. split; [reflexivity|].
      cbn [pag keyptr set_keyptr]. split; [exact Hpag|]. lia.
    + rewrite Hpag. exact Hwf.
    + lia.
    + rewrite Hpag, Hkp. replace (Z.to_nat (Z.of_nat j + 1)) with (S j) by lia.
      exact Hkv.
Qed.

(** X13. Iteration over the first page.  When the first block of the page
    file is a well-formed page holding more than [j] pairs, [FirstKey]
    followed by [j] calls of [NextKey] returns, without error, the key of
    the pair number [j] of that page in slot order (no device fault). *)
Theorem iteration_over_first_page (j : nat) (s : DBM) :
  faults s = [] -> length (pag s) = Z.to_nat PBLKSIZ ->
  wf_page (take (Z.to_nat PBLKSIZ) (fdata (pagf s))) = true ->
  (j < length (pairs_of (take (Z.to_nat PBLKSIZ) (fdata (pagf s)))))%nat ->
  result (nth_key j) s
  = Ok (fst <$> pairs_of (take (Z.to_nat PBLKSIZ) (fdata (pagf s))) !! j, None).
Proof.
  intros Hf Hlen Hwf Hj.
  destruct (nth_key_run s j Hf Hlen Hwf Hj) as (s' & Hrun & _).
  unfold result. rewrite Hrun. reflexivity.
Qed.

Lemma iteration_over_first_page_witness :
  let s := store_all 0 [kv "a" "1"; kv "b" "2"; kv "c" "3"] fresh in
  result (nth_key 2) s
  = Ok (fst <$> pairs_of (take (Z.to_nat PBLKSIZ) (fdata (pagf s))) !! 2%nat, None).
Proof.
  intros s. apply (iteration_over_first_page 2 s).
  - vm_compute. reflexivity.
  - vm_compute. reflexivity.
  - vm_compute. reflexivity.
  - vm_compute. lia.
Defined.

(** * The number of writes of the split loop *)

Lemma wam_emits {A} (f : fileid) (P : event -> Prop) (m : M A) :
  (forall e, P e -> is_write f e = false) -> emits P m -> writes_at_most f 0 m.
Proof.
  intros HP Hm s. destruct (Hm s) as (new & Ht & Hnew).
  exists new. split; [exact Ht|].
  rewrite writes_none; [lia|]. apply List.Forall_rev.
  eapply List.Forall_impl; [|exact Hnew]. exact HP.
Qed.

Lemma wam_silent {A} (f : fileid) (m : M A) :
  (forall s, trace (m s).2 = trace s) -> writes_at_most f 0 m.
Proof. intros H s. exists []. split; [apply H|cbn; lia]. Qed.

Lemma wam_weaken {A} (f : fileid) (n n' : nat) (m : M A) :
  (n <= n')%nat -> writes_at_most f n m -> writes_at_most f n' m.
Proof.
  intros Hle Hm s. destruct (Hm s) as (new & Ht & Hnew).
  exists new. split; [exact Ht|lia].
Qed.

Lemma wam_bind {A B} (f : fileid) (n1 n2 : nat) (m : M A) (k : A -> M B) :
  writes_at_most f n1 m -> (forall a, writes_at_most f n2 (k a)) ->
  writes_at_most f (n1 + n2) (bind m k).
Proof.
  intros Hm Hk s. unfold bind. destruct (Hm s) as (l1 & Ht1 & Hw1).
  destruct (m s) as [[a| |] s1]; cbn [snd] in *;
    try (exists l1; split; [exact Ht1|lia]).
  destruct (Hk a s1) as (l2 & Ht2 & Hw2).
  exists (l2 ++ l1). rewrite Ht2, Ht1, app_assoc. split; [reflexivity|].
  rewrite rev_app_distr, writes_app. lia.
Qed.

Lemma wam_if {A} (f : fileid) (n : nat) (b : bool) (m1 m2 : M A) :
  writes_at_most f n m1 -> writes_at_most f n m2 ->
  writes_at_most f n (if b then m1 else m2).
Proof. destruct b; auto. Qed.

Lemma on_file_other (f g : fileid) (e : event) :
  f <> g -> on_file g e -> is_write f e = false.
Proof.
  intros Hne. destruct e as [h o|h o n|h o d]; cbn; try reflexivity.
  intros ->. apply bool_decide_eq_false_2. exact Hne.
Qed.

Lemma wam_seekWrite (f g : fileid) (off : Z) (buf : list byte) :
  writes_at_most g 1 (seekWrite f off buf).
Proof.
  intros s.
  destruct (seekWrite_run f off buf s) as [(e & new & _ & Ht & Hnw & _)|[_ Ht]];
    unfold after in Ht.
  - exists new. split; [exact Ht|].
    rewrite writes_none; [lia|]. apply List.Forall_rev.
    eapply List.Forall_impl; [|exact Hnw]. intros ev [H1 H2]. destruct g; assumption.
  - eexists [_; _]. split; [exact Ht|].
    cbn [rev app]. unfold writes. rewrite !filter_cons, filter_nil.
    cbn [is_write]. destruct (decide (false = true)); [discriminate|].
    destruct (decide (bool_decide (g = f) = true)); cbn; lia.
Qed.

Lemma wam_seekWrite_other (f g : fileid) (off : Z) (buf : list byte) :
  g <> f -> writes_at_most g 0 (seekWrite f off buf).
Proof.
  intros Hne. apply (wam_emits g (on_file f)).
  - intros e. apply on_file_other. exact Hne.
  - apply emits_seekWrite.
Qed.

Lemma wam_write_page (g : fileid) :
  writes_at_most g (if g is PagF then 1 else 0) write_page.
Proof.
  unfold write_page.
  apply (wam_bind g 0 _ (get pagbno)); [apply wam_silent; reflexivity|]. intros b.
  apply (wam_bind g 0 _ (get pag)); [apply wam_silent; reflexivity|]. intros buf.
  destruct g; [apply wam_seekWrite_other; discriminate|apply wam_seekWrite].
Qed.

Lemma wam_setDBit (g : fileid) (dbit : Z) :
  writes_at_most g (if g is DirF then 1 else 0) (setDBit dbit).
Proof.
  unfold setDBit.
  apply (wam_bind g 0).
  { apply (wam_emits g (reads_on DirF)); [|apply emits_load_dir].
    intros e [_ [H1 H2]]. destruct g; assumption. }
  intros [e|]; [apply wam_weaken with 0%nat; [lia|apply wam_silent; reflexivity]|].
  apply (wam_bind g 0).
  { unfold dir_cell. apply wam_if; apply wam_silent; reflexivity. }
  intros [idx sh].
  apply (wam_bind g 0 _ (get dirbuf)); [apply wam_silent; reflexivity|]. intros buf.
  apply (wam_bind g 0); [apply wam_silent; reflexivity|]. intros _.
  apply (wam_bind g 0 _ (get maxbno)); [apply wam_silent; reflexivity|]. intros mx.
  apply (wam_bind g 0); [apply wam_if; apply wam_silent; reflexivity|]. intros _.
  apply (wam_bind g 0 _ (get dirbuf)); [apply wam_silent; reflexivity|]. intros buf'.
  destruct g; [apply wam_seekWrite|apply wam_seekWrite_other; discriminate].
Qed.

Lemma wam_makeRoom_mark (g : fileid) (hm : Z) (moves : bool) (need : Z) :
  writes_at_most g 1 (makeRoom_mark hm moves need).
Proof.
  unfold makeRoom_mark.
  apply (wam_bind g 0 1 (get curbit)); [apply wam_silent; reflexivity|]. intros cb.
  destruct g.
  - apply (wam_bind DirF 1 0); [apply (wam_setDBit DirF)|].
    intros [e|]; [apply wam_silent; reflexivity|].
    apply (wam_bind DirF 0 0 (get pag)); [apply wam_silent; reflexivity|]. intros p.
    apply (wam_bind DirF 0 0); [apply wam_silent; reflexivity|]. intros fits.
    apply wam_if; [apply wam_silent; reflexivity|].
    apply (wam_bind DirF 0 0); [apply wam_silent; reflexivity|]. intros _.
    apply (wam_bind DirF 0 0); [apply wam_silent; reflexivity|]. intros _.
    apply (wam_bind DirF 0 0); [apply (wam_write_page DirF)|].
    intros [e|]; apply wam_silent; reflexivity.
  - apply (wam_bind PagF 0 1); [apply (wam_setDBit PagF)|].
    intros [e|]; [apply wam_weaken with 0%nat; [lia|apply wam_silent; reflexivity]|].
    apply (wam_bind PagF 0 1 (get pag)); [apply wam_silent; reflexivity|]. intros p.
    apply (wam_bind PagF 0 1); [apply wam_silent; reflexivity|]. intros fits.
    apply wam_if; [apply wam_weaken with 0%nat; [lia|apply wam_silent; reflexivity]|].
    apply (wam_bind PagF 0 1); [apply wam_silent; reflexivity|]. intros _.
    apply (wam_bind PagF 0 1); [apply wam_silent; reflexivity|]. intros _.
    apply (wam_bind PagF 1 0); [apply (wam_write_page PagF)|].
    intros [e|]; apply wam_silent; reflexivity.
Qed.

Lemma wam_makeRoom_body (g : fileid) (hash need : Z) :
  writes_at_most g (if g is DirF then 1 else 2) (makeRoom_body hash need).
Proof.
  unfold makeRoom_body.
  apply (wam_bind g 0 _ (get pag)); [apply wam_silent; reflexivity|]. intros p.
  apply (wam_bind g 0 _ (get hmask)); [apply wam_silent; reflexivity|]. intros hm.
  apply (wam_bind g 0); [apply wam_silent; reflexivity|]. intros [p' newPag].
  apply (wam_bind g 0); [apply wam_silent; reflexivity|]. intros _.
  destruct g.
  - apply (wam_bind DirF 0 1).
    + apply wam_if; [|apply wam_seekWrite_other; discriminate].
      apply (wam_bind DirF 0 0); [apply (wam_write_page DirF)|].
      intros [e|]; [apply wam_silent; reflexivity|].
      apply (wam_bind DirF 0 0); [apply wam_silent; reflexivity|]. intros _.
      apply (wam_bind DirF 0 0); [apply wam_silent; reflexivity|]. intros _.
      apply wam_silent; reflexivity.
    + intros [e|]; [apply wam_weaken with 0%nat; [lia|apply wam_silent; reflexivity]|].
      apply wam_makeRoom_mark.
  - apply (wam_bind PagF 1 1).
    + apply wam_if; [|apply wam_seekWrite].
      apply (wam_bind PagF 1 0); [apply (wam_write_page PagF)|].
      intros [e|]; [apply wam_silent; reflexivity|].
      apply (wam_bind PagF 0 0); [apply wam_silent; reflexivity|]. intros _.
      apply (wam_bind PagF 0 0); [apply wam_silent; reflexivity|]. intros _.
      apply wam_silent; reflexivity.
    + intros [e|]; [apply wam_weaken with 0%nat; [lia|apply wam_silent; reflexivity]|].
      apply wam_makeRoom_mark.
Qed.

Lemma wam_makeRoom_loop (g : fileid) (hash need : Z) (n : nat) :
  writes_at_most g (n * (if g is DirF then 1 else 2)) (makeRoom_loop n hash need).
Proof.
  induction n as [|n IH]; cbn [makeRoom_loop].
  - apply wam_silent; reflexivity.
  - cbn [Nat.mul]. apply wam_bind; [apply wam_makeRoom_body|].
    intros [e|]; [|exact IH].
    eapply wam_weaken; [|apply wam_silent; reflexivity]. lia.
Qed.

(** X14. Whatever the state of the handle, the hash and the outcome, one
    call of [makeRoom] marks at most nine splits in the directory file and
    writes at most eighteen pages: the loop runs [SPLTMAX - 1] times, each
    pass writing the directory block once and the page file twice. *)
Theorem makeRoom_splits_at_most_nine_times (hash need : Z) (s : DBM) :
  (writes DirF (events (makeRoom hash need) s) <= 9)%nat /\
  (writes PagF (events (makeRoom hash need) s) <= 18)%nat.
Proof.
  split.
  - destruct (wam_makeRoom_loop DirF hash need makeRoom_passes s) as (new & Ht & Hw).
    rewrite (events_of_trace (makeRoom hash need) s new Ht).
    change (makeRoom_passes * 1)%nat with 9%nat in Hw. exact Hw.
  - destruct (wam_makeRoom_loop PagF hash need makeRoom_passes s) as (new & Ht & Hw).
    rewrite (events_of_trace (makeRoom hash need) s new Ht).
    change (makeRoom_passes * 2)%nat with 18%nat in Hw. exact Hw.
Qed.

(** * What the split loop leaves behind *)

(** X15. [makeRoom], called as [Store] calls it (after a successful
    [getPage] for the key, on a one-block directory, with a well-formed
    current page the pair does not fit on), returns no error and does not
    panic when no device fault occurs and the nine passes stay inside the
    directory block, whether or not it has made room; it leaves the handle
    settled: the directory is one block again, the current page is
    well-formed, holds the same pairs under the key, and is the page a walk
    for the key ends on. *)
Theorem makeRoom_leaves_handle_settled (k : list byte) (need : Z) (p : Page)
    (s s1 : DBM) :
  faults s = [] -> fwritable (pagf s) = true -> fwritable (dirf s) = true ->
  getPage (Hash k) s = (Ok None, s1) ->
  one_block s1 = true ->
  (hmask s1 + 1) * 2 ^ Z.of_nat makeRoom_passes <= DBLKSIZ * BITSIZ ->
  wf_page p = true ->
  FitPair p need = Ok false ->
  exists s',
    makeRoom (Hash k) need (set_pag p s1) = (Ok None, s') /\
    settled k (pairs_with k (pairs_of p)) s'.
Proof.
  intros Hf Hpw Hdw Hget Hone Hdepth Hwf Hfit.
  destruct (getPage_ready k s s1 Hf Hpw Hdw Hget Hone) as (hbit & Hpow & Hready).
  specialize (Hready p Hwf).
  pose proof (sr_hbit _ _ _ _ Hready) as Hh.
  destruct (makeRoom_loop_ready k _ need makeRoom_passes hbit (set_pag p s1) Hready
              (depth_bound _ _ _ Hh Hpow Hdepth) Hfit)
    as (s' & Hloop & [(_ & Hset & _)|(_ & Hready')]).
  - exists s'. split; [exact Hloop|exact Hset].
  - exists s'. split; [exact Hloop|].
    apply (split_ready_settled _ _ _ _ Hready').
Qed.

Lemma makeRoom_leaves_handle_settled_witness :
  let s := after (Store (key "aa") (big "x" 506) StoreREPLACE) fresh in
  let s1 := after (getPage (Hash (bytes_of "ii"))) s in
  exists s',
    makeRoom (Hash (bytes_of "ii")) 508 (set_pag (pag s1) s1) = (Ok None, s') /\
    settled (bytes_of "ii") (pairs_with (bytes_of "ii") (pairs_of (pag s1))) s'.
Proof.
  intros s s1.
  apply (makeRoom_leaves_handle_settled (bytes_of "ii") 508 (pag s1) s s1).
  - vm_compute. reflexivity.
  - reflexivity.
  - reflexivity.
  - vm_compute. reflexivity.
  - vm_compute. reflexivity.
  - vm_compute. discriminate.
  - vm_compute. reflexivity.
  - vm_compute. reflexivity.
Defined.

(** * Reopening the store *)






(** * Pages that pass ChkPage *)

Lemma getIno_Ok_inv (p : Page) (i : Z) (A : Type) (k : Z -> res A) (r : A) :
  rbind (getIno p i) k = Ok r -> 0 <= i <= 511 /\ k (ino p i) = Ok r.
Proof.
  unfold getIno. change PBLKSIZ with 1024.
  destruct ((0 <=? i) && (i * 2 + 2 <=? 1024)) eqn:E; [|discriminate].
  apply andb_true_iff in E. destruct E as [E1 E2]. zbool.
  cbn [rbind]. intros H. split; [lia|exact H].
Qed.

(** The search of [seePair] over the slots a successful [ChkPage_loop] has
    checked: it does not panic, and a slot it returns holds offsets in
    order and inside the page. *)
Lemma seePair_from_checked (p : Page) (key : list byte) (count : nat) :
  forall (i off : Z) (c : nat),
    ChkPage_loop p i off count = Ok true ->
    0 <= i -> off <= 1024 -> (c <= count)%nat ->
    exists r,
      seePair_from p key off (map (fun t => i + 2 * Z.of_nat t) (seq 0 c)) = Ok r /\
      (r = 0 \/ (i <= r /\ r + 1 <= 511 /\ ino p (r + 1) <= ino p r <= 1024)).
Proof.
  induction count as [|count IH]; intros i off c Hchk Hi Hoff Hc.
  - assert (c = 0%nat) as -> by lia. exists 0. split; [reflexivity|]. left. reflexivity.
  - destruct c as [|c]; [exists 0; split; [reflexivity|left; reflexivity]|].
    cbn [ChkPage_loop] in Hchk.
    apply getIno_Ok_inv in Hchk. destruct Hchk as [Hi1 Hchk].
    apply getIno_Ok_inv in Hchk. destruct Hchk as [Hi2 Hchk].
    destruct ((off <? ino p i) || (off <? ino p (i + 1)) || (ino p i <? ino p (i + 1)))
      eqn:E; [discriminate|].
    apply orb_false_iff in E. destruct E as [E E3].
    apply orb_false_iff in E. destruct E as [E1 E2]. zbool.
    pose proof (ino_range p i) as Hr1. pose proof (ino_range p (i + 1)) as Hr2.
    cbn [seq map seePair_from]. replace (i + 2 * Z.of_nat 0) with i by lia.
    rewrite getIno_ok by lia. cbn [rbind].
    assert (Hhit : exists b,
      (if Z.of_nat (length key) =? off - ino p i
       then rbind (slice p (ino p i) (u16 (ino p i + u16 (Z.of_nat (length key)))))
                  (fun s => Ok (bool_decide (key = s)))
       else Ok false) = Ok b).
    { destruct (Z.of_nat (length key) =? off - ino p i) eqn:Ek; [|eauto].
      zbool. rewrite Ek. rewrite (u16_small (off - ino p i)) by lia.
      replace (ino p i + (off - ino p i)) with off by lia.
      rewrite u16_small by lia. rewrite slice_ok by lia. cbn [rbind]. eauto. }
    destruct Hhit as [b ->]. cbn [rbind]. destruct b.
    + exists i. split; [reflexivity|]. right. lia.
    + rewrite getIno_ok by lia. cbn [rbind].
      destruct (IH (i + 2) (ino p (i + 1)) c Hchk ltac:(lia) ltac:(lia) ltac:(lia))
        as (r & Hrun & Hr).
      exists r. split.
      * rewrite <- Hrun. f_equal. rewrite <- seq_shift, map_map.
        apply map_ext. intros t. lia.
      * destruct Hr as [->|Hr]; [left; reflexivity|right; lia].
Qed.

Lemma seePair_checked (p : Page) (key : list byte) :
  ChkPage p = Ok true -> 0 < ino p 0 ->
  ino p 0 <= 510 /\
  exists r,
    seePair p (ino p 0) key = Ok r /\
    (r = 0 \/ (1 <= r /\ r + 1 <= 511 /\ ino p (r + 1) <= ino p r <= 1024)).
Proof.
  intros Hchk Hpos. unfold ChkPage in Hchk.
  unfold getN in Hchk. rewrite getIno_ok in Hchk by lia. cbn [rbind] in Hchk.
  change (PBLKSIZ / SHORTSIZE) with 512 in Hchk.
  destruct ((ino p 0 <? 0) || (512 <? ino p 0)) eqn:E; [discriminate|].
  apply orb_false_iff in E. destruct E as [E1 E2]. zbool.
  destruct (0 <? ino p 0) eqn:E3; [|zbool; lia].
  change PBLKSIZ with 1024 in Hchk.
  assert (Hhalf : 0 <= ino p 0 / 2 <= (ino p 0 + 1) / 2).
  { split; [apply Z.div_pos; lia|apply Z.div_le_mono; lia]. }
  assert (Hn : ino p 0 <= 510).
  { destruct (Z.le_gt_cases (ino p 0) 510) as [H|H]; [exact H|]. exfalso.
    assert (Hc : Z.to_nat ((ino p 0 + 1) / 2) = 256%nat).
    { assert (ino p 0 = 511 \/ ino p 0 = 512) as [->| ->] by lia; reflexivity. }
    rewrite Hc in Hchk.
    assert (Hgo : forall count i off,
              ChkPage_loop p i off count = Ok true -> 0 <= i ->
              (0 < count)%nat -> i + 2 * Z.of_nat count - 1 <= 511).
    { clear. induction count as [|count IH]; intros i off H Hi Hc; [lia|].
      cbn [ChkPage_loop] in H.
      apply getIno_Ok_inv in H. destruct H as [Hi1 H].
      apply getIno_Ok_inv in H. destruct H as [Hi2 H].
      destruct (_ || _ || _); [discriminate|].
      destruct count as [|count]; [lia|].
      specialize (IH (i + 2) _ H ltac:(lia) ltac:(lia)). lia. }
    specialize (Hgo 256%nat 1 1024 Hchk ltac:(lia) ltac:(lia)). lia. }
  split; [exact Hn|].
  destruct (seePair_from_checked p key _ 1 1024 (Z.to_nat (ino p 0 / 2)) Hchk
              ltac:(lia) ltac:(lia) ltac:(lia)) as (r & Hrun & Hr).
  exists r. split; [|exact Hr].
  unfold seePair, odd_slots. change PBLKSIZ with 1024. rewrite <- Hrun.
  f_equal. apply map_ext. intros t. lia.
Qed.

(** X17. A page that [ChkPage] accepts can be searched: whatever its
    bytes otherwise are, [GetPair] and [DupPair] return without panic for
    every key, and the page has at most 510 offset entries (with 511 or
    512 entries [ChkPage] rejects the page or panics on the entry past the
    table; it does not accept). *)
Theorem ChkPage_makes_lookup_safe (p : Page) (key : Datum) :
  ChkPage p = Ok true ->
  (exists v, GetPair p key = Ok v) /\
  (exists b, DupPair p key = Ok b) /\
  ino p 0 <= 510.
Proof.
  intros Hchk. pose proof (ino_range p 0) as Hr0.
  destruct (Z.eq_dec (ino p 0) 0) as [Hz|Hnz].
  - unfold GetPair, DupPair, getN. rewrite getIno_ok by lia. cbn [rbind].
    rewrite Hz. cbn. split; [eauto|]. split; [eauto|lia].
  - destruct (seePair_checked p (bytes key) Hchk ltac:(lia)) as (Hn & r & Hrun & Hr).
    unfold GetPair, DupPair, getN. rewrite getIno_ok by lia. cbn [rbind].
    destruct (ino p 0 =? 0) eqn:E; [zbool; lia|].
    rewrite Hrun. cbn [rbind]. split; [|split; [eauto|exact Hn]].
    destruct Hr as [->|Hr]; [cbn; eauto|].
    destruct (r =? 0) eqn:Er; [eauto|].
    pose proof (ino_range p (r + 1)) as Hr1.
    rewrite !getIno_ok by lia. cbn [rbind].
    rewrite slice_ok by lia. cbn [rbind]. eauto.
Qed.

Lemma ChkPage_makes_lookup_safe_witness :
  let p := put16 (put16 (put16 zero_page 0 2) 1 1000) 2 990 in
  (exists v, GetPair p (key "k") = Ok v) /\
  (exists b, DupPair p (key "k") = Ok b) /\
  ino p 0 <= 510.
Proof.
  intros p. apply (ChkPage_makes_lookup_safe p (key "k")).
  vm_compute. reflexivity.
Defined.

(** * More on Fetch and Store *)

(** X18. [Fetch] on a block that fails [ChkPage]: once the walk has found
    the page number and the page is not the cached one, the block is read
    over the page buffer, [ChkPage] rejects it and [Fetch] returns
    [ErrInvalidPage]; [pagbno] keeps the number of the page cached before
    while the buffer now holds the rejected block. *)
Theorem Fetch_rejects_bad_page (k : list byte) (s sw : DBM) (dbit hbit mask : Z) :
  walk walk_fuel (Hash k) 0 0 s = (Ok (dbit, hbit), sw) ->
  masks !! Z.to_nat hbit = Some mask ->
  faults sw = [] -> pagbno sw <> Z.land (Hash k) mask ->
  length (pag sw) = Z.to_nat PBLKSIZ ->
  length (block_at (fdata (pagf sw)) (Z.land (Hash k) mask)) = Z.to_nat PBLKSIZ ->
  ChkPage (block_at (fdata (pagf sw)) (Z.land (Hash k) mask)) = Ok false ->
  exists s',
    Fetch (Some k) s = (Ok (Nullitem, Some ErrInvalidPage), s') /\
    pag s' = block_at (fdata (pagf sw)) (Z.land (Hash k) mask) /\
    pagbno s' = pagbno sw.
Proof.
  intros Hwalk Hmask Hf Hpb Hlen Hblen Hchk.
  pose proof (masks_bound _ _ Hmask) as Hmb.
  pose proof (land_mask_bound (Hash k) mask ltac:(lia)) as Hlb.
  unfold Fetch. cbn [bad]. change (exHash (Some k)) with (Hash k).
  unfold bind at 1. unfold getPage. unfold bind at 1. rewrite Hwalk.
  unfold bind at 1, modify at 1. unfold bind at 1, lift at 1. rewrite Hmask.
  unfold bind at 1, modify at 1. unfold bind at 1, get at 1.
  set (t1 := set_hmask mask (set_curbit dbit sw)).
  change (pagbno t1) with (pagbno sw).
  destruct (Z.land (Hash k) mask =? pagbno sw) eqn:E; [zbool; congruence|].
  unfold bind at 1, get at 1.
  destruct (seekRead_content PagF (offPag (Z.land (Hash k) mask)) (pag t1) t1)
    as (s1 & Hrun & Hh & _ & _ & _).
  { exact Hf. }
  { unfold offPag. change PBLKSIZ with 1024. rewrite i64_small; lia. }
  unfold bind at 1. rewrite Hrun.
  change (pag t1) with (pag sw). change (file_of PagF t1) with (pagf sw).
  rewrite Hlen.
  assert (Hoff : Z.to_nat (offPag (Z.land (Hash k) mask))
                 = Z.to_nat (Z.land (Hash k) mask * PBLKSIZ)).
  { unfold offPag. change PBLKSIZ with 1024. rewrite i64_small by lia.
    reflexivity. }
  rewrite Hoff. fold (block_at (fdata (pagf sw)) (Z.land (Hash k) mask)).
  rewrite list_inserts_all by (rewrite Hlen, Hblen; reflexivity).
  unfold bind at 1, modify at 1. unfold bind at 1, lift at 1.
  rewrite Hchk. unfold ret.
  eexists. split; [reflexivity|]. cbn [pag pagbno set_pag]. split; [reflexivity|].
  apply (sh_pagbno _ _ Hh).
Qed.

Lemma Fetch_rejects_bad_page_witness :
  let bad_page := put16 (put16 (put16 zero_page 0 2) 1 10) 2 20 in
  let s := Prep [] bad_page O_RDWR in
  exists s',
    Fetch (Some (bytes_of "k")) s = (Ok (Nullitem, Some ErrInvalidPage), s') /\
    pag s' = block_at (fdata (pagf s)) (Z.land (Hash (bytes_of "k")) 0) /\
    pagbno s' = pagbno s.
Proof.
  intros bad_page s.
  apply (Fetch_rejects_bad_page (bytes_of "k") s s 0 0 0); vm_compute;
    try reflexivity; discriminate.
Defined.






(** * Pages with a bad entry count *)

(** A loop of [ChkPage] that succeeds is a prefix of any longer loop. *)
Lemma ChkPage_loop_more (p : Page) (c : nat) :
  forall (i off : Z),
    ChkPage_loop p i off c = Ok true ->
    exists off',
      forall m, ChkPage_loop p i off (c + m)
                = ChkPage_loop p (i + 2 * Z.of_nat c) off' m.
Proof.
  induction c as [|c IH]; intros i off H.
  - exists off. intros m. cbn [Nat.add]. f_equal. lia.
  - cbn [ChkPage_loop] in H.
    apply getIno_Ok_inv in H. destruct H as [Hi1 H].
    apply getIno_Ok_inv in H. destruct H as [Hi2 H].
    destruct ((off <? ino p i) || (off <? ino p (i + 1)) || (ino p i <? ino p (i + 1)))
      eqn:E; [discriminate|].
    destruct (IH _ _ H) as (off' & Hmore). exists off'. intros m.
    cbn [Nat.add ChkPage_loop]. rewrite !getIno_ok by lia. cbn [rbind].
    rewrite E, Hmore. f_equal. lia.
Qed.

(** X21. [ChkPage] on a page whose entry count is 511 or 512, which the
    test [n > PBLKSIZ/SHORTSIZE] lets through: it never accepts the page,
    and when the first 255 pairs pass the offset checks it panics, reading
    the entry past the end of the page, instead of rejecting it. *)
Theorem ChkPage_panics_on_full_table (p : Page) :
  510 < ino p 0 <= 512 ->
  ChkPage p <> Ok true /\
  (ChkPage_loop p 1 PBLKSIZ 255 = Ok true -> ChkPage p = Panic).
Proof.
  intros Hn. split.
  - intros Hchk. destruct (seePair_checked p [] Hchk ltac:(lia)) as [H _]. lia.
  - intros Hloop. unfold ChkPage, getN. rewrite getIno_ok by lia. cbn [rbind].
    change (PBLKSIZ / SHORTSIZE) with 512.
    destruct ((ino p 0 <? 0) || (512 <? ino p 0)) eqn:E.
    { apply orb_true_iff in E. destruct E; zbool; lia. }
    destruct (0 <? ino p 0) eqn:E3; [|zbool; lia].
    assert (Hc : Z.to_nat ((ino p 0 + 1) / 2) = (255 + 1)%nat).
    { assert (ino p 0 = 511 \/ ino p 0 = 512) as [->| ->] by lia; reflexivity. }
    rewrite Hc. destruct (ChkPage_loop_more p 255 1 PBLKSIZ Hloop) as (off' & Hmore).
    rewrite Hmore. cbn [ChkPage_loop]. rewrite getIno_ok by lia. reflexivity.
Qed.

Lemma ChkPage_panics_on_full_table_witness :
  let p := put16 zero_page 0 512 in
  ChkPage p <> Ok true /\
  (ChkPage_loop p 1 PBLKSIZ 255 = Ok true -> ChkPage p = Panic).
Proof.
  intros p. apply (ChkPage_panics_on_full_table p). vm_compute.
  split; [reflexivity|discriminate].
Defined.

Lemma rbind_panics {A B} (m : res A) (k : A -> res B) :
  m <> Timeout -> (forall x, k x = Panic) -> rbind m k = Panic.
Proof. intros Hm Hk. destruct m; [apply Hk|reflexivity|contradiction]. Qed.

Lemma slice_returns (p : Page) (a b : Z) : slice p a b <> Timeout.
Proof. unfold slice. destruct (_ && _ && _); discriminate. Qed.

Lemma getIno_returns (p : Page) (i : Z) : getIno p i <> Timeout.
Proof. unfold getIno. destruct (_ && _); discriminate. Qed.

Lemma rbind_returns {A B} (m : res A) (k : A -> res B) :
  m <> Timeout -> (forall x, k x <> Timeout) -> rbind m k <> Timeout.
Proof. intros Hm Hk. destruct m; [apply Hk|discriminate|contradiction]. Qed.

Lemma PutPair_returns (p : Page) (key val : Datum) : PutPair p key val <> Timeout.
Proof.
  unfold PutPair, getN, setN.
  apply rbind_returns; [apply getIno_returns|]. intros n.
  apply rbind_returns.
  { unfold free_end. destruct (0 <? n); [apply getIno_returns|discriminate]. }
  intros off.
  apply rbind_returns; [unfold copy_at; destruct (_ && _); discriminate|]. intros p1.
  apply rbind_returns; [unfold setIno; destruct (_ && _); discriminate|]. intros p2.
  apply rbind_returns; [unfold copy_at; destruct (_ && _); discriminate|]. intros p3.
  apply rbind_returns; [unfold setIno; destruct (_ && _); discriminate|]. intros p4.
  unfold setIno. destruct (_ && _); discriminate.
Qed.

(** The loop of [SplPage] with an odd count left: the count never reaches
    zero, and the loop runs into the end of the page. *)
Lemma SplPage_loop_odd (cur : Page) (sbit : Z) (d : nat) :
  forall (fuel : nat) (p newPag : Page) (i off n : Z),
    i + 2 * Z.of_nat d = 511 -> 0 <= i -> (d < fuel)%nat ->
    Z.odd n = true -> 0 < n < 65536 ->
    SplPage_loop fuel cur p newPag sbit i off n = Panic.
Proof.
  induction d as [|d IH]; intros fuel p newPag i off n Hi Hi0 Hfuel Hodd Hn;
    (destruct fuel as [|fuel]; [lia|]); cbn [SplPage_loop];
    (destruct (0 <? n) eqn:E; [|zbool; lia]).
  - rewrite getIno_ok by lia. cbn [rbind].
    unfold getIno at 1. change PBLKSIZ with 1024.
    destruct ((0 <=? i + 1) && ((i + 1) * 2 + 2 <=? 1024)) eqn:E2; [|reflexivity].
    apply andb_true_iff in E2. destruct E2. zbool. lia.
  - rewrite !getIno_ok by lia. cbn [rbind].
    apply rbind_panics; [apply slice_returns|]. intros key.
    apply rbind_panics; [apply slice_returns|]. intros val.
    assert (Hnext : forall p' newPag',
              SplPage_loop fuel cur p' newPag' sbit (i + 2) (ino cur (i + 1))
                (u16 (n - 2)) = Panic).
    { intros p' newPag'. apply IH; try lia.
      - destruct (Z.eq_dec n 1) as [->|Hne]; [reflexivity|].
        rewrite u16_small by lia.
        replace (n - 2) with (n + -2) by lia. rewrite Z.odd_add, Hodd. reflexivity.
      - destruct (Z.eq_dec n 1) as [->|Hne]; [vm_compute; split; reflexivity|].
        assert (n <> 2) by (intros ->; discriminate).
        rewrite u16_small by lia. lia. }
    apply rbind_panics.
    + destruct (negb _); (apply rbind_returns; [apply PutPair_returns|discriminate]).
    + intros [p' newPag']. apply Hnext.
Qed.

(** X22. [SplPage] on a page with an odd entry count panics: the loop
    counter is a [uint16] decremented by two, so it never reaches zero, and
    the loop runs until an offset entry past the end of the page is read
    (or a slice or [PutPair] panics before).  [ChkPage] accepts such
    pages. *)
Theorem SplPage_panics_on_odd_count (p : Page) (sbit : Z) :
  Z.odd (ino p 0) = true -> SplPage p sbit = Panic.
Proof.
  intros Hodd. pose proof (ino_range p 0) as Hr.
  unfold SplPage. rewrite getIno_ok by lia. cbn [rbind].
  apply (SplPage_loop_odd p sbit 255); try lia.
  - unfold SplPage_fuel. lia.
  - exact Hodd.
  - destruct (Z.eq_dec (ino p 0) 0) as [Hz|Hnz]; [rewrite Hz in Hodd; discriminate|lia].
Qed.

Lemma SplPage_panics_on_odd_count_witness :
  let p := put16 (put16 (put16 zero_page 0 1) 1 1000) 2 990 in
  ChkPage p = Ok true /\ SplPage p 1 = Panic.
Proof.
  intros p. split; [vm_compute; reflexivity|].
  apply (SplPage_panics_on_odd_count p 1). vm_compute. reflexivity.
Defined.

(** * Iteration over a page file of one page *)

(** [seekRead] of the whole first block leaves the position behind it. *)
Lemma seekRead_first_block (buf : list byte) (s : DBM) :
  faults s = [] -> length buf = Z.to_nat PBLKSIZ ->
  length (fdata (pagf s)) = Z.to_nat PBLKSIZ ->
  exists s',
    seekRead PagF (offPag 0) buf s = (Ok (fdata (pagf s), None), s') /\
    faults s' = [] /\ fdata (pagf s') = fdata (pagf s) /\ fpos (pagf s') = PBLKSIZ.
Proof.
  intros Hs Hbuf Hlen. unfold seekRead, bind.
  rewrite sys_seek_calm by (assumption || (vm_compute; discriminate)).
  unfold sys_read, bind, next_fault.
  assert (Hfl : forall x, faults (log (EvSeek PagF (offPag 0)) (set_file PagF x s)) = [])
    by (intros x; exact Hs).
  rewrite Hfl.
  assert (Hfile : forall x, file_of PagF (log (EvSeek PagF (offPag 0)) (set_file PagF x s)) = x)
    by reflexivity.
  rewrite Hfile. cbn [file_of fdata fpos fwritable].
  change (Z.to_nat (offPag 0)) with 0%nat. rewrite drop_0, Hbuf.
  rewrite firstn_all2 by lia.
  destruct (fdata (pagf s)) as [|b d] eqn:Ed; [discriminate|].
  change (Z.to_nat PBLKSIZ) with (S 1023).
  eexists. split; [|split; [|split]].
  - rewrite list_inserts_all by (rewrite Hlen, Hbuf; reflexivity).
    reflexivity.
  - exact Hs.
  - reflexivity.
  - cbn [fpos pagf log set_file]. rewrite Hlen. reflexivity.
Qed.

(** A read at or behind the end of a file reports the end of the file and
    changes nothing. *)
Lemma sys_read_eof (f : fileid) (n : nat) (s : DBM) :
  faults s = [] ->
  (length (fdata (file_of f s)) <= Z.to_nat (fpos (file_of f s)))%nat ->
  sys_read f (S n) s = (Ok ([], Some EOF), s).
Proof.
  intros Hs Hpos. unfold sys_read, bind, next_fault. rewrite Hs.
  rewrite drop_ge by exact Hpos. rewrite take_nil. reflexivity.
Qed.

(** One call of [getNext] under [cursor]: the next key and the cursor on
    the next pair, or, behind the last pair, no key and the cursor back on
    the first pair. *)
Lemma getNext_cursor (p0 : Page) (k : nat) (s : DBM) :
  wf_page p0 = true -> cursor p0 k s -> (k <= length (pairs_of p0))%nat ->
  exists s',
    getNext s = (Ok (fst <$> pairs_of p0 !! k, None), s') /\
    cursor p0 (S k mod S (length (pairs_of p0))) s'.
Proof.
  intros Hwf [Hpag Hkp Hpb Hbp Hf Hdata Hpos] Hk.
  pose proof (wf_count p0 Hwf) as Hn.
  destruct (wf_even p0 Hwf) as [m Hm].
  pose proof (length_pairs_of p0 m Hm) as Hlen.
  destruct (decide (k < length (pairs_of p0))%nat) as [Hlt|Hge].
  - destruct (lookup_lt_is_Some_2 (pairs_of p0) k Hlt) as [kv Hkv].
    exists (set_keyptr (keyptr s + 1) s). split.
    + rewrite Hkv. apply getNext_found.
      * rewrite Hpag. exact Hwf.
      * lia.
      * rewrite Hpag, Hkp, Nat2Z.id. exact Hkv.
    + rewrite Nat.mod_small by lia.
      split; cbn [pag keyptr pagbno blkptr faults pagf set_keyptr]; try assumption. lia.
  - assert (k = length (pairs_of p0)) as Hkm by lia.
    rewrite (lookup_ge_None_2 (pairs_of p0) k) by lia.
    replace (S k mod S (length (pairs_of p0)))%nat with 0%nat
      by (rewrite Hkm; symmetry; apply Nat.Div0.mod_same).
    unfold getNext. cbn [getNext_loop]. unfold bind at 1.
    unfold getNext_body. unfold bind at 1, get at 1.
    unfold bind at 1, modify at 1. unfold bind at 1, get at 1.
    unfold bind at 1, lift at 1. cbn [pag set_keyptr].
    rewrite Hpag, Hkp. rewrite i64_small by lia.
    rewrite (GetNKey_wf p0 (Z.of_nat k + 1) Hwf) by lia.
    replace (Z.to_nat (Z.of_nat k + 1 - 1)) with k by lia.
    rewrite (lookup_ge_None_2 (pairs_of p0) k) by lia. cbn [fmap option_fmap option_map].
    unfold bind at 1, modify at 1. unfold bind at 1, get at 1.
    unfold bind at 1, get at 1. cbn [pagbno blkptr set_keyptr].
    rewrite Hpb, Hbp. cbn [Z.eqb negb]. unfold bind at 1, ret at 1.
    unfold bind at 1, get at 1. unfold bind at 1, modify at 1.
    unfold bind at 1, get at 1. cbn [blkptr pag set_keyptr set_pagbno].
    rewrite Hbp, Hpag.
    unfold bind at 1. rewrite (wf_length p0 Hwf). change (Z.to_nat PBLKSIZ) with (S 1023).
    rewrite sys_read_eof;
      [|exact Hf
       |cbn [file_of pagf set_keyptr set_pagbno]; rewrite Hdata, Hpos, (wf_length p0 Hwf);
        reflexivity].
    unfold bind at 1, modify at 1. cbn [list_inserts]. unfold ret.
    eexists. split; [reflexivity|].
    split; cbn [pag keyptr pagbno blkptr faults pagf set_keyptr set_pagbno set_pag];
      try assumption; reflexivity.
Qed.

Lemma nth_key_cursor (s : DBM) (j : nat) :
  faults s = [] -> length (pag s) = Z.to_nat PBLKSIZ ->
  wf_page (fdata (pagf s)) = true ->
  exists s',
    nth_key j s
    = (Ok (fst <$> pairs_of (fdata (pagf s))
                   !! (j mod S (length (pairs_of (fdata (pagf s)))))%nat, None), s') /\
    cursor (fdata (pagf s)) (S j mod S (length (pairs_of (fdata (pagf s))))) s'.
Proof.
  intros Hf Hlen Hwf. set (p0 := fdata (pagf s)) in *.
  set (m := length (pairs_of p0)).
  induction j as [|j IH].
  - cbn [nth_key]. unfold FirstKey. unfold bind at 1, get at 1.
    destruct (seekRead_first_block (pag s) s Hf Hlen (wf_length p0 Hwf))
      as (s1 & Hrun & Hf1 & Hd1 & Hp1).
    unfold bind at 1. rewrite Hrun. fold p0.
    unfold bind at 1, modify at 1. unfold bind at 1, modify at 1.
    unfold bind at 1, modify at 1. unfold bind at 1, modify at 1.
    rewrite Nat.Div0.mod_0_l.
    apply (getNext_cursor p0 0); [exact Hwf| |lia].
    split; cbn [pag keyptr pagbno blkptr faults pagf set_keyptr set_pagbno set_blkptr set_pag];
      try assumption; reflexivity.
  - destruct IH as (s1 & Hrun & Hcur).
    cbn [nth_key]. unfold bind. rewrite Hrun. unfold NextKey.
    assert (Hk : (S j mod S m < S m)%nat) by (apply Nat.mod_upper_bound; lia).
    destruct (getNext_cursor p0 (S j mod S m) s1 Hwf Hcur ltac:(fold m; lia))
      as (s2 & Hrun2 & Hcur2).
    exists s2. split; [exact Hrun2|].
    fold m in Hcur2.
    replace (S (S j) mod S m)%nat with (S (S j mod S m) mod S m)%nat; [exact Hcur2|].
    replace (S (S j mod S m)) with (S j mod S m + 1)%nat by lia.
    rewrite Nat.Div0.add_mod_idemp_l. f_equal. lia.
Qed.

(** X23. Iteration over a store whose page file is one well-formed page
    with [m] pairs: [FirstKey] and the following calls of [NextKey] return
    the [m] keys in slot order and then no key and no error; the cursor
    does not stay at the end, the next call of [NextKey] starts over with
    the first key, so that call number [j] returns entry [j mod (m+1)]. *)
Theorem iteration_cycles_on_one_page (j : nat) (s : DBM) :
  faults s = [] -> length (pag s) = Z.to_nat PBLKSIZ ->
  wf_page (fdata (pagf s)) = true ->
  result (nth_key j) s
  = Ok (fst <$> pairs_of (fdata (pagf s))
                !! (j mod S (length (pairs_of (fdata (pagf s)))))%nat, None).
Proof.
  intros Hf Hlen Hwf.
  destruct (nth_key_cursor s j Hf Hlen Hwf) as (s' & Hrun & _).
  unfold result. rewrite Hrun. reflexivity.
Qed.

Lemma iteration_cycles_on_one_page_witness :
  let s := store_all 0 [kv "a" "1"; kv "b" "2"; kv "c" "3"] fresh in
  result (nth_key 3) s = Ok (Nullitem, None) /\
  result (nth_key 4) s = result (nth_key 0) s.
Proof.
  intros s.
  assert (Hf : faults s = []) by (vm_compute; reflexivity).
  assert (Hlen : length (pag s) = Z.to_nat PBLKSIZ) by (vm_compute; reflexivity).
  assert (Hwf : wf_page (fdata (pagf s)) = true) by (vm_compute; reflexivity).
  split.
  - rewrite (iteration_cycles_on_one_page 3 s Hf Hlen Hwf). vm_compute. reflexivity.
  - rewrite (iteration_cycles_on_one_page 4 s Hf Hlen Hwf),
      (iteration_cycles_on_one_page 0 s Hf Hlen Hwf). vm_compute. reflexivity.
Defined.
